(** * Parts-AI backend: relevance scoring, selection, download and job tracking

    A shallow embedding of [backend/server.py] and the properties of its
    scoring/selection algorithm, its fetcher, its archiver and its job
    tracker.

    Conventions of the embedding.
    - Python [str] is [string], read as the sequence of the code points of
      the text: a character of [string] is one code point, not a byte of an
      encoding, so the texts covered are those whose code points are below
      256 (ISO 8859-1, the first 256 code points of Unicode).  The letter
      U-umlaut is the one character of code 220, and its lower-case form the
      one of code 252.  [str.lower], [str.isalnum] and the whitespace of
      [str.split] and [str.strip] are the tables of Python on these 256
      code points; slicing and [len] count code points.  The string
      literals of this file are ASCII.
    - Python [int] is [Z].  The relevance score starts as the float [0.0] and
      only ever receives small integer increments, so it is an exact integer
      and is modelled in [Z] as well.
    - A provider hit is a Python [dict]; the keys the code reads are the
      fields of [hit].  A key read with [get(k, "")] is a plain [string]
      (absent = empty), a key whose absence the code can observe is an
      [option].
    - The process-wide [download_tasks] dict and the download directory are
      finite maps ([gmap string _]) threaded through the operations. *)

From Stdlib Require Import ZArith Lia List Bool Ascii String Sorted Permutation.
From Stdlib.Strings Require Import Byte.
From stdpp Require Import gmap strings pretty list fin_maps relations.

Local Open Scope string_scope.
Local Open Scope Z_scope.

(** ** Python string primitives *)

Module PyStr.

(** The character of a code point below 256. *)
Definition chr (n : nat) : ascii := ascii_of_nat n.

(** [lo <= ord(c) <= hi] *)
Definition in_range (lo hi : nat) (c : ascii) : bool :=
  ((lo <=? nat_of_ascii c) && (nat_of_ascii c <=? hi))%nat.

(** A to Z, a to z and 0 to 9. *)
Definition is_upper (c : ascii) : bool :=
  ((65 <=? nat_of_ascii c) && (nat_of_ascii c <=? 90))%nat.

Definition is_lower (c : ascii) : bool :=
  ((97 <=? nat_of_ascii c) && (nat_of_ascii c <=? 122))%nat.

Definition is_digit (c : ascii) : bool :=
  ((48 <=? nat_of_ascii c) && (nat_of_ascii c <=? 57))%nat.

(** The code points from 128 to 255 for which [str.isalnum] holds: the
    ordinal indicators 170 and 186, the micro sign 181, the superscript
    digits 178, 179 and 185, the fractions 188 to 190, and the letters 192
    to 255 without the multiplication sign 215 and the division sign
    247. *)
Definition is_latin1_alnum (c : ascii) : bool :=
  in_range 170 170 c || in_range 178 179 c || in_range 181 181 c ||
  in_range 185 186 c || in_range 188 190 c || in_range 192 214 c ||
  in_range 216 246 c || in_range 248 255 c.

(** [c.isalnum()] *)
Definition isalnum (c : ascii) : bool :=
  is_upper c || is_lower c || is_digit c || is_latin1_alnum c.

(** The code points from 128 to 255 that [str.lower] changes: the capital
    letters 192 to 222 without the multiplication sign 215.  Like A to Z
    they move up by 32. *)
Definition is_latin1_upper (c : ascii) : bool :=
  in_range 192 214 c || in_range 216 222 c.

Definition lower_char (c : ascii) : ascii :=
  if is_upper c || is_latin1_upper c
  then ascii_of_nat (nat_of_ascii c + 32) else c.

(** [s.lower()] *)
Fixpoint lower (s : string) : string :=
  match s with
  | EmptyString => EmptyString
  | String c s' => String (lower_char c) (lower s')
  end.

(** [s.replace(c, "")] for a one-character [c] *)
Fixpoint remove_char (c : ascii) (s : string) : string :=
  match s with
  | EmptyString => EmptyString
  | String d s' =>
      if Ascii.eqb c d then remove_char c s' else String d (remove_char c s')
  end.

(** [s.startswith(p)] *)
Fixpoint starts_with (p s : string) : bool :=
  match p, s with
  | EmptyString, _ => true
  | String _ _, EmptyString => false
  | String a p', String b s' => Ascii.eqb a b && starts_with p' s'
  end.

(** [needle in hay] on strings: substring test *)
Fixpoint contains (needle hay : string) : bool :=
  starts_with needle hay ||
  match hay with
  | EmptyString => false
  | String _ hay' => contains needle hay'
  end.

(** [x in xs] on a list of strings *)
Definition mem (x : string) (xs : list string) : bool :=
  existsb (String.eqb x) xs.

(** A Python value used as a condition: the empty string is falsy. *)
Definition truthy (s : string) : bool :=
  match s with EmptyString => false | String _ _ => true end.

End PyStr.

(** ** Relevance scorer and selector ([GoogleImageSearchService]) *)

(** One raw record of the provider's [images_results]. *)
Record hit : Type := Hit {
  hit_title : string;               (* image_data.get("title", "") *)
  hit_source : string;              (* image_data.get("source", "") *)
  hit_original : option string;     (* key "original", may be absent *)
  hit_link : option string;         (* key "link", may be absent *)
  hit_thumbnail : string;           (* img.get("thumbnail", "") *)
  hit_original_width : option Z;    (* key "original_width" *)
  hit_original_height : option Z    (* key "original_height" *)
}.

Module Scorer.
Import PyStr.

Definition part_keywords : list string :=
  ["transformer"; "relay"; "contactor"; "breaker"; "component";
   "electrical"; "industrial"; "genuine"; "oem"; "original";
   "schneider"; "abb"; "siemens"; "eocr"; "current"].

Definition industrial_sources : list string :=
  ["alliance"; "automation"; "industrial"; "electric"; "schneider";
   "abb.com"; "siemens"; "rockwell"; "eaton"; "ge.com"; "westinghouse";
   "technical"; "catalog"; "datasheet"; "spec"].

Definition trusted_sources : list string :=
  ["ebay"; "amazon"; "digikey"; "mouser"; "newark"; "rs-online";
   "farnell"; "allied"; "grainger"].

Definition avoid_keywords : list string :=
  ["logo"; "banner"; "advertisement"; "ad"; "promo"; "sale";
   "coupon"; "catalog"; "manual"; "diagram"; "schematic"].

(** Part number match in title:
    [if part_clean in title.replace("-","").replace(" ",""): +50
     elif part_number.lower() in title: +30]. *)
Definition strip_separators (s : string) : string :=
  remove_char " " (remove_char "-" s).

Definition part_match (title part_number : string) (score : Z) : Z :=
  let part_clean := strip_separators (lower part_number) in
  if contains part_clean (strip_separators title) then score + 50
  else if contains (lower part_number) title then score + 30
  else score.

(** [if manufacturer and manufacturer.lower() in title: +20] *)
Definition manufacturer_match (title : string) (manufacturer : option string)
    (score : Z) : Z :=
  match manufacturer with
  | Some m => if truthy m && contains (lower m) title then score + 20 else score
  | None => score
  end.

(** [for keyword in part_keywords: if keyword in title: score += 8] *)
Definition keyword_bonus (title : string) (score : Z) : Z :=
  fold_left (fun sc kw => if contains kw title then sc + 8 else sc)
            part_keywords score.

(** The loop over [industrial_sources].  Its loop variable is called
    [source], the same name as the local that holds the hit's source label:
    each iteration rebinds [source] to the list element and then tests
    [source in source].  The function returns the binding of [source] that
    is live after the loop together with the score. *)
Fixpoint industrial_loop (l : list string) (source : string) (score : Z)
    : string * Z :=
  match l with
  | [] => (source, score)
  | elt :: rest =>
      let source := elt in
      if contains source source then (source, score + 20)   (* break *)
      else industrial_loop rest source score
  end.

(** [for trusted in trusted_sources: if trusted in source: +10; break] *)
Fixpoint trusted_loop (l : list string) (source : string) (score : Z) : Z :=
  match l with
  | [] => score
  | trusted :: rest =>
      if contains trusted source then score + 10             (* break *)
      else trusted_loop rest source score
  end.

(** Lines 132-147: both source loops in sequence, on the running score. *)
Definition source_trust (source : string) (score : Z) : Z :=
  let '(source, score) := industrial_loop industrial_sources source score in
  trusted_loop trusted_sources source score.

(** [for avoid in avoid_keywords: if avoid in title: score -= 10] *)
Definition avoid_penalty (title : string) (score : Z) : Z :=
  fold_left (fun sc kw => if contains kw title then sc - 10 else sc)
            avoid_keywords score.

(** A Python integer used as a condition: zero is falsy. *)
Definition nonzero (z : Z) : bool := negb (z =? 0).

Definition dimension_adjust (width height : Z) (score : Z) : Z :=
  if nonzero width && nonzero height then
    if (200 <=? width) && (width <=? 1000) && (200 <=? height) && (height <=? 1000)
    then score + 10
    else if (width <? 100) || (height <? 100) then score - 15
    else if (width >? 2000) || (height >? 2000) then score - 5
    else score
  else score.

Definition _score_image_relevance (image_data : hit) (part_number : string)
    (manufacturer : option string) : Z :=
  let score := 0 in
  let title := lower (hit_title image_data) in
  let source := lower (hit_source image_data) in
  let score := part_match title part_number score in
  let score := manufacturer_match title manufacturer score in
  let score := keyword_bonus title score in
  let score := source_trust source score in
  let score := avoid_penalty title score in
  let width := default 0 (hit_original_width image_data) in
  let height := default 0 (hit_original_height image_data) in
  let score := dimension_adjust width height score in
  Z.max 0 score.

(** The rule of the specification for the source-trust component, written
    from its words: +20 when the label contains a preferred substring,
    otherwise +10 when it contains a marketplace substring, otherwise 0. *)
Definition spec_source_bonus (source_label : string) : Z :=
  if existsb (fun s => contains s source_label) industrial_sources then 20
  else if existsb (fun s => contains s source_label) trusted_sources then 10
  else 0.

(** The source-trust component as the code computes it: the amount lines
    132-147 add to the running score. *)
Definition code_source_bonus (source_label : string) : Z :=
  source_trust (lower source_label) 0.

End Scorer.

Module Selector.
Import PyStr Scorer.

(** [scored_images.sort(key=lambda x: x[0], reverse=True)]: Python's sort is
    stable, also with [reverse=True]; elements of equal score keep their
    input order. *)
Fixpoint insert_desc (x : Z * hit) (l : list (Z * hit)) : list (Z * hit) :=
  match l with
  | [] => [x]
  | y :: l' => if fst x <? fst y then y :: insert_desc x l' else x :: y :: l'
  end.

Definition sort_desc (l : list (Z * hit)) : list (Z * hit) :=
  fold_right insert_desc [] l.

(** [sum(1 for sel_img in selected
         if sel_img.get("source","").lower() == source)] *)
Definition source_count (source : string) (selected : list hit) : Z :=
  Z.of_nat (length (filter (fun sel_img =>
    String.eqb (lower (hit_source sel_img)) source = true) selected)).

(** The selection loop.  [used_sources] is only ever written, never read,
    and is left out. *)
Fixpoint select_loop (scored : list (Z * hit)) (max_images : Z)
    (selected : list hit) : list hit :=
  match scored with
  | [] => selected
  | (score, img) :: rest =>
      if Z.of_nat (length selected) >=? max_images then selected  (* break *)
      else
        let source := lower (hit_source img) in
        let source_count := source_count source selected in
        if (score >? 10) && (source_count <? 2)
        then select_loop rest max_images (selected ++ [img])
        else select_loop rest max_images selected
  end.

Definition _select_best_images (images : list hit) (part_number : string)
    (manufacturer : option string) (max_images : Z) : list hit :=
  let scored_images :=
    map (fun img => (_score_image_relevance img part_number manufacturer, img))
        images in
  let scored_images := sort_desc scored_images in
  select_loop scored_images max_images [].

End Selector.

(** ** Pydantic models *)

Record ImageResult : Type := mkImageResult {
  ir_title : string;
  ir_original_url : string;
  ir_thumbnail_url : string;
  ir_source : string;
  ir_width : option Z;
  ir_height : option Z
}.

Record PartSearchResult : Type := mkPartSearchResult {
  psr_part_number : string;
  psr_search_query : string;
  psr_images : list ImageResult;
  psr_search_success : bool;
  psr_error_message : option string
}.

Record DownloadResult : Type := mkDownloadResult {
  dr_part_number : string;
  dr_image_url : string;
  dr_filename : string;
  dr_success : bool;
  dr_error_message : option string;
  dr_file_size : option Z
}.

Record DownloadResponse : Type := mkDownloadResponse {
  resp_download_id : string;
  resp_status : string;
  resp_total_images : Z;
  resp_downloaded_images : Z;
  resp_results : list DownloadResult;
  resp_zip_file : option string
}.

(** The outcome of an endpoint: a response body or a raised [HTTPException]. *)
Inductive http_result (A : Type) : Type :=
  | Ok (a : A)
  | HTTPException (status_code : Z) (detail : string).
Arguments Ok {A} a.
Arguments HTTPException {A} status_code detail.

(** ** Query planning and the search service *)

Module SearchService.
Import PyStr Scorer Selector.

(** The double-quote character used by the query templates. *)
Definition dquote : string := String (ascii_of_nat 34) EmptyString.
Definition quoted (s : string) : string := dquote +:+ s +:+ dquote.

(** [" ".join(parts)] *)
Fixpoint join_space (parts : list string) : string :=
  match parts with
  | [] => ""
  | [p] => p
  | p :: rest => p +:+ " " +:+ join_space rest
  end.

(** The provider parameters that vary between calls ([api_key], [engine],
    [safe] and [location] are constants). *)
Record search_params : Type := mkParams {
  sp_q : string;
  sp_num : Z;
  sp_tbs : string
}.

(** What [GoogleSearch(params).get_dict()] does: it raises, or returns a
    dict that may hold an ["error"] and may hold ["images_results"]. *)
Inductive provider_outcome : Type :=
  | ProviderRaises (msg : string)
  | ProviderDict (error : option string) (images_results : option (list hit)).

Definition is_truthy_opt (m : option string) : bool :=
  match m with Some s => truthy s | None => false end.

Definition _get_alternative_search_params (part_number : string)
    (manufacturer : option string) (strategy : string) : search_params :=
  if String.eqb strategy "broader" then
    let query_parts := [part_number; "automotive part"; "replacement"] in
    let query_parts :=
      if is_truthy_opt manufacturer
      then (query_parts ++ [default "" manufacturer])%list else query_parts in
    mkParams (join_space query_parts) 25 "isz:m"
  else if String.eqb strategy "specific" then
    let query_parts :=
      if is_truthy_opt manufacturer
      then [quoted part_number; quoted (default "" manufacturer);
            "genuine"; "original"]
      else [quoted part_number; "genuine"; "original"] in
    mkParams (join_space query_parts) 20 "isz:l"
  else
    let query_parts := [part_number; "aftermarket"; "compatible"; "fits"] in
    let query_parts :=
      if is_truthy_opt manufacturer
      then (query_parts ++ [default "" manufacturer])%list else query_parts in
    mkParams (join_space query_parts) 20 "isz:m".

(** [img.get("original", "")] and [img.get("link", "")] *)
Definition get_or_empty (o : option string) : string := default "" o.

(** [_filter_previous_images]: [exclude_urls] is [None] or a list; an empty
    list is falsy like [None]. *)
Definition _filter_previous_images (images : list hit)
    (exclude_urls : option (list string)) : list hit :=
  match exclude_urls with
  | None | Some [] => images
  | Some exclude_set =>
      List.filter (fun img =>
        let original_url := get_or_empty (hit_original img) in
        let link_url := get_or_empty (hit_link img) in
        negb (mem original_url exclude_set) && negb (mem link_url exclude_set))
        images
  end.

(** The conversion of a selected hit into an [ImageResult]:
    [original_url = img.get("original", img.get("link", ""))]. *)
Definition to_image_result (img : hit) : ImageResult :=
  mkImageResult
    (hit_title img)
    (match hit_original img with
     | Some u => u
     | None => get_or_empty (hit_link img)
     end)
    (hit_thumbnail img)
    (hit_source img)
    (hit_original_width img)
    (hit_original_height img).

Definition failed_search (part_number query msg : string) : PartSearchResult :=
  mkPartSearchResult part_number query [] false (Some msg).

(** [GoogleImageSearchService.reprocess_part_images] *)
Definition reprocess_part_images (provider : search_params -> provider_outcome)
    (part_number : string) (manufacturer : option string) (num_results : Z)
    (strategy : string) (exclude_urls : option (list string))
    : PartSearchResult :=
  let params := _get_alternative_search_params part_number manufacturer strategy in
  match provider params with
  | ProviderRaises msg => failed_search part_number "" msg
  | ProviderDict (Some err) _ => failed_search part_number (sp_q params) err
  | ProviderDict None images_results =>
      let raw_images := default [] images_results in
      let filtered_images := _filter_previous_images raw_images exclude_urls in
      let best_images :=
        _select_best_images filtered_images part_number manufacturer num_results in
      mkPartSearchResult part_number (sp_q params)
        (map to_image_result best_images) true None
  end.

Definition any_in (keywords : list string) (s : string) : bool :=
  existsb (fun keyword => contains keyword s) keywords.

(** The query of the first-pass search, by part type. *)
Definition build_search_query (part_number : string)
    (manufacturer : option string) : string :=
  let part_lower := lower part_number in
  let m := default "" manufacturer in
  if any_in ["ct-"; "transformer"; "relay"; "contactor"; "breaker"] part_lower then
    if is_truthy_opt manufacturer
    then quoted part_number +:+ " " +:+ m +:+ " electrical component industrial"
    else quoted part_number +:+ " electrical component transformer relay"
  else if any_in ["pf"; "filter"; "bpr"; "ngk"; "spark"] part_lower then
    if is_truthy_opt manufacturer
    then quoted part_number +:+ " " +:+ quoted m +:+ " genuine part"
    else quoted part_number +:+ " genuine OEM part"
  else
    if is_truthy_opt manufacturer
    then quoted part_number +:+ " " +:+ m +:+ " part component"
    else quoted part_number +:+ " industrial part component".

(** [GoogleImageSearchService.search_part_images] *)
Definition search_part_images (provider : search_params -> provider_outcome)
    (part_number : string) (manufacturer : option string) (num_results : Z)
    : PartSearchResult :=
  let search_query := build_search_query part_number manufacturer in
  let params := mkParams search_query (Z.min (num_results * 5) 20) "isz:m" in
  match provider params with
  | ProviderRaises msg => failed_search part_number "" msg
  | ProviderDict (Some err) _ => failed_search part_number search_query err
  | ProviderDict None images_results =>
      let raw_images := default [] images_results in
      let best_images :=
        _select_best_images raw_images part_number manufacturer num_results in
      mkPartSearchResult part_number search_query
        (map to_image_result best_images) true None
  end.

End SearchService.

(** ** Local storage under [DOWNLOADS_DIR] *)

(** A file of the download directory: the bytes a fetch wrote, or a ZIP
    archive with its entries (archive name and the file copied into it). *)
#[warnings="-register-all"] Inductive file_obj : Type :=
  | Blob (content : list byte)
  | ZipArchive (entries : list (string * file_obj)).

(** The download directory, keyed by the file name below [DOWNLOADS_DIR]. *)
Abbreviation storage := (gmap string file_obj).

(** ** Fetcher ([AsyncImageDownloader.download_image]) *)

Module Fetcher.
Import PyStr.

(** The exceptions the handler of [download_image] tells apart. *)
Inductive exn : Type :=
  | TimeoutError                 (* asyncio.TimeoutError *)
  | OtherError (msg : string).   (* any other Exception, with str(e) *)

(** What the world outside the program does to one fetch: [session.get]
    raises; or a response with a status arrives whose [read()] raises or
    yields the body, which the fetch can then write to its local file; or a
    200 response arrives and its body is read, but opening the local file
    for writing raises (the file name is too long for the file system, the
    directory is gone).  A write that raises after the file was opened is
    not modelled. *)
Inductive get_outcome : Type :=
  | GetRaises (e : exn)
  | GetResponse (status : Z) (read : exn + list byte)
  | OpenRaises (content : list byte) (e : exn).

Definition failure (url filename msg : string) : DownloadResult :=
  mkDownloadResult "" url filename false (Some msg) None.

(** The two [except] clauses. *)
Definition on_exception (e : exn) (url filename : string) : DownloadResult :=
  match e with
  | TimeoutError => failure url filename "Timeout"
  | OtherError msg => failure url filename ("Error: " +:+ substring 0 100 msg)
  end.

Section WithDecoder.
(** [Image.open] on a file with these bytes succeeds (PIL is external). *)
Variable image_opens : list byte -> bool.

Definition opens_as_image (f : option file_obj) : bool :=
  match f with
  | Some (Blob content) => image_opens content
  | _ => false
  end.

(** [download_image], run with no other coroutine or request touching the
    assigned file between the write and the checks that follow it: then
    [filepath.exists()] holds and [Image.open] reads what was written.  An
    exception raised by the request, by [read()] or by the opening of the
    local file is caught by the same two handlers. *)
Definition download_image (reply : get_outcome) (url filename : string)
    (fs : storage) : DownloadResult * storage :=
  match reply with
  | GetRaises e => (on_exception e url filename, fs)
  | OpenRaises _ e => (on_exception e url filename, fs)
  | GetResponse status read =>
      if status =? 200 then
        match read with
        | inl e => (on_exception e url filename, fs)
        | inr content =>
            (* async with aiofiles.open(filepath, 'wb') as f: f.write(content) *)
            let fs := <[filename := Blob content]> fs in
            if bool_decide (is_Some (fs !! filename))
               && (Z.of_nat (length content) >? 1000)
            then
              if opens_as_image (fs !! filename) then
                (mkDownloadResult "" url filename true None
                   (Some (Z.of_nat (length content))), fs)
              else
                (failure url filename "Invalid image format",
                 delete filename fs)
            else
              (failure url filename "File too small or empty",
               delete filename fs)
        end
      else (failure url filename ("HTTP " +:+ pretty status), fs)
  end.

(** [download_with_semaphore]: [download_image] catches every exception
    itself, so the wrapper's own handler is never entered; it stamps the
    owning part number on the result. *)
Definition download_with_semaphore (reply : get_outcome)
    (part_number image_url filename : string) (fs : storage)
    : DownloadResult * storage :=
  let '(result, fs) := download_image reply image_url filename fs in
  (mkDownloadResult part_number (dr_image_url result) (dr_filename result)
     (dr_success result) (dr_error_message result) (dr_file_size result),
   fs).

(** [download_images_batch], with the fetches run one at a time in
    submission order.  Chunks of ten are gathered one after the other and
    [asyncio.gather] returns results in task order, so the result list is
    in submission order in every run.  Inside a chunk the fetches run
    concurrently under the semaphore; [Gather] below has the steps of the
    event loop, of which the run in submission order is one, and when the
    file names of each chunk are pairwise distinct every run ends as this
    one does ([batch_runs_sequential]).  [net i] is what happens to the
    [i]-th task. *)
Fixpoint download_images_batch (net : nat -> get_outcome) (i : nat)
    (images_data : list (string * string * string)) (fs : storage)
    : list DownloadResult * storage :=
  match images_data with
  | [] => ([], fs)
  | (part_num, url, filename) :: rest =>
      let '(result, fs) :=
        download_with_semaphore (net i) part_num url filename fs in
      let '(results, fs) := download_images_batch net (S i) rest fs in
      (result :: results, fs)
  end.

End WithDecoder.

End Fetcher.

(** ** The event loop on a chunk of fetches *)

Module Gather.
Import PyStr Fetcher.

(** How far one task of a chunk has come.  The awaits of a fetch are the
    points at which the event loop can run another task; what the download
    directory sees of a fetch are the opening of its file (which creates or
    empties it), the write of the body, and the checks that follow the
    close, which run without an await up to the [return]. *)
Inductive task_state : Type :=
  | Waiting
  | Opened (content : list byte)
  | Written (content : list byte)
  | Returned (result : DownloadResult).

(** The tasks that count against the semaphore. *)
Definition running (st : task_state) : bool :=
  match st with
  | Opened _ | Written _ => true
  | Waiting | Returned _ => false
  end.

(** [result.part_number = part_number] *)
Definition stamp (part_number : string) (result : DownloadResult)
    : DownloadResult :=
  mkDownloadResult part_number (dr_image_url result) (dr_filename result)
    (dr_success result) (dr_error_message result) (dr_file_size result).

Section WithDecoder.
Variable image_opens : list byte -> bool.

(** The next step of a task, on the download directory as it is when the
    task is resumed.  Files are addressed by name: the steps are those of
    the code when no two tasks that are under way share a file name. *)
Definition task_step (reply : get_outcome) (item : string * string * string)
    (st : task_state) (fs : storage) : option (task_state * storage) :=
  let '(part_number, url, filename) := item in
  match st with
  | Waiting =>
      match reply with
      | GetRaises e | OpenRaises _ e =>
          Some (Returned (stamp part_number (on_exception e url filename)), fs)
      | GetResponse status read =>
          if status =? 200 then
            match read with
            | inl e =>
                Some (Returned (stamp part_number (on_exception e url filename)),
                      fs)
            | inr content => Some (Opened content, <[filename := Blob []]> fs)
            end
          else
            Some (Returned (stamp part_number
                              (failure url filename ("HTTP " +:+ pretty status))),
                  fs)
      end
  | Opened content => Some (Written content, <[filename := Blob content]> fs)
  | Written content =>
      if bool_decide (is_Some (fs !! filename))
         && (Z.of_nat (length content) >? 1000)
      then
        if opens_as_image image_opens (fs !! filename) then
          Some (Returned (stamp part_number
                            (mkDownloadResult "" url filename true None
                               (Some (Z.of_nat (length content))))),
                fs)
        else
          Some (Returned (stamp part_number
                            (failure url filename "Invalid image format")),
                delete filename fs)
      else
        Some (Returned (stamp part_number
                          (failure url filename "File too small or empty")),
              delete filename fs)
  | Returned _ => None
  end.

(** One step of the event loop on a chunk whose first task has the index
    [first] of the batch: some task that has not returned takes its next
    step; one that has not started needs a free slot of the semaphore.  A
    task holds its slot from before the request to its [return]; the request
    and the read of the body touch no file, so they are counted with the
    step that opens the file, at which the other tasks under way hold fewer
    than [max_concurrent] slots.  Every run of the code is thus a run of
    these steps. *)
Inductive step (max_concurrent : nat) (net : nat -> get_outcome) (first : nat)
    (chunk : list (string * string * string))
    : list task_state * storage -> list task_state * storage -> Prop :=
  | step_task (i : nat) (item : string * string * string) (st st' : task_state)
      (tasks : list task_state) (fs fs' : storage) :
      chunk !! i = Some item ->
      tasks !! i = Some st ->
      (st = Waiting ->
       (length (List.filter running tasks) < max_concurrent)%nat) ->
      task_step (net (first + i)%nat) item st fs = Some (st', fs') ->
      step max_concurrent net first chunk (tasks, fs) (<[i := st']> tasks, fs').

(** [asyncio.gather] on a chunk: the tasks are stepped in some order until
    all have returned; the results come in task order. *)
Definition gathered (max_concurrent : nat) (net : nat -> get_outcome)
    (first : nat) (chunk : list (string * string * string)) (fs : storage)
    (results : list DownloadResult) (fs' : storage) : Prop :=
  rtc (step max_concurrent net first chunk)
      (replicate (length chunk) Waiting, fs) (map Returned results, fs').

(** [download_images_batch]: the chunks of ten are gathered one after the
    other. *)
Inductive batch_runs (max_concurrent : nat) (net : nat -> get_outcome)
    : nat -> list (string * string * string) -> storage ->
      list DownloadResult -> storage -> Prop :=
  | batch_runs_nil (i : nat) (fs : storage) :
      batch_runs max_concurrent net i [] fs [] fs
  | batch_runs_chunk (i : nat) (item : string * string * string)
      (rest : list (string * string * string)) (fs fs1 fs2 : storage)
      (results results' : list DownloadResult) :
      gathered max_concurrent net i (take 10 (item :: rest)) fs results fs1 ->
      batch_runs max_concurrent net (i + 10) (drop 10 (item :: rest)) fs1
        results' fs2 ->
      batch_runs max_concurrent net i (item :: rest) fs (results ++ results')%list
        fs2.

End WithDecoder.

End Gather.

(** ** File names and the archiver *)

Module Archiver.
Import PyStr.

Fixpoint map_chars (f : ascii -> ascii) (s : string) : string :=
  match s with
  | EmptyString => EmptyString
  | String c s' => String (f c) (map_chars f s')
  end.

(** [c if c.isalnum() or c in "._-" else "_"] *)
Definition clean_char (c : ascii) : ascii :=
  if isalnum c || Ascii.eqb c "." || Ascii.eqb c "_" || Ascii.eqb c "-"
  then c else "_"%char.

Definition clean_part (part_number : string) : string :=
  map_chars clean_char part_number.

(** The text from the last ["."] of [s] on, if [s] has one. *)
Fixpoint last_dot_suffix (s : string) : option string :=
  match s with
  | EmptyString => None
  | String c s' =>
      match last_dot_suffix s' with
      | Some t => Some t
      | None => if Ascii.eqb c "." then Some s else None
      end
  end.

(** [p.split("/")] *)
Fixpoint split_path (p : string) : list string :=
  match p with
  | EmptyString => [EmptyString]
  | String c p' =>
      if Ascii.eqb c "/" then EmptyString :: split_path p'
      else match split_path p' with
           | first :: rest => String c first :: rest
           | [] => [String c EmptyString]
           end
  end.

(** The components [pathlib] keeps of a path: those that are neither empty
    nor ["."] (so a trailing [/] or [/.] does not count). *)
Definition path_parts (p : string) : list string :=
  List.filter (fun x => truthy x && negb (String.eqb x ".")) (split_path p).

(** [Path(p).name]: the last component, or the empty string when there is
    none. *)
Definition path_name (p : string) : string := List.last (path_parts p) "".

(** [Path(p).suffix]: with [i = name.rfind(".")], [name[i:]] when
    [0 < i < len(name) - 1] and the empty string otherwise. *)
Definition path_suffix (p : string) : string :=
  match path_name p with
  | EmptyString => ""
  | String _ rest =>
      match last_dot_suffix rest with
      | Some t => if (1 <? String.length t)%nat then t else ""
      | None => ""
      end
  end.

Definition allowed_extensions : list string :=
  [".jpg"; ".jpeg"; ".png"; ".webp"; ".gif"].

Section WithUrlParser.
(** [urlparse(url).path] of the standard library; [None] when it raises
    (the bare [except] then falls back to [".jpg"]). *)
Variable urlparse_path : string -> option string.

Definition url_extension (url : string) : string :=
  match urlparse_path url with
  | Some path =>
      let extension := lower (path_suffix path) in
      if mem extension allowed_extensions then extension else ".jpg"
  | None => ".jpg"
  end.

(** [f"{clean_part}_{image_index + 1}{extension}"] *)
Definition generate_filename (part_number : string) (image_index : nat)
    (url : string) : string :=
  clean_part part_number +:+ "_" +:+ pretty (image_index + 1)%nat
    +:+ url_extension url.

End WithUrlParser.

(** [part_groups]: a dict from part number to the list of its results, in
    insertion order. *)
Fixpoint group_add (groups : list (string * list DownloadResult))
    (r : DownloadResult) : list (string * list DownloadResult) :=
  match groups with
  | [] => [(dr_part_number r, [r])]
  | (k, rs) :: rest =>
      if String.eqb k (dr_part_number r) then (k, (rs ++ [r])%list) :: rest
      else (k, rs) :: group_add rest r
  end.

Definition part_groups (download_results : list DownloadResult)
    : list (string * list DownloadResult) :=
  fold_left (fun groups result =>
               if dr_success result && truthy (dr_filename result)
               then group_add groups result else groups)
            download_results [].

(** ["/".join(comps)] *)
Fixpoint join_slash (comps : list string) : string :=
  match comps with
  | [] => ""
  | [c] => c
  | c :: rest => c +:+ "/" +:+ join_slash rest
  end.

(** The loop of [os.path.normpath] over the components, on the stack
    [new_comps] kept with its last element first. *)
Fixpoint normpath_comps (initial_slashes : bool) (comps : list string)
    (new_comps : list string) : list string :=
  match comps with
  | [] => rev new_comps
  | comp :: rest =>
      if String.eqb comp "" || String.eqb comp "."
      then normpath_comps initial_slashes rest new_comps
      else if negb (String.eqb comp "..")
              || (negb initial_slashes
                  && match new_comps with [] => true | _ :: _ => false end)
              || match new_comps with l :: _ => String.eqb l ".." | [] => false end
      then normpath_comps initial_slashes rest (comp :: new_comps)
      else normpath_comps initial_slashes rest (tl new_comps)
  end.

Fixpoint lstrip_slashes (s : string) : string :=
  match s with
  | String c s' => if Ascii.eqb c "/" then lstrip_slashes s' else s
  | EmptyString => EmptyString
  end.

(** [os.path.normpath(path)] up to the number of leading slashes, which
    the caller strips: empty and ["."] components are dropped, [".."]
    cancels the component before it, and an empty result is ["."]. *)
Definition normpath (path : string) : string :=
  let initial_slashes := starts_with "/" path in
  let comps := normpath_comps initial_slashes (split_path path) [] in
  let path := join_slash comps in
  let path := if initial_slashes then "/" +:+ path else path in
  if truthy path then path else ".".

(** The name under which [ZipFile.write(path, arcname)] stores a file:
    [ZipInfo.from_file] takes [os.path.normpath(arcname)] without its
    leading slashes.  (The loop that strips the slashes raises on a name
    made of slashes only; an entry name, which ends in [_<i><extension>],
    is not one.  [ZipInfo] also cuts the name at a null character; a
    cleaned part number has none, and neither has the name of a file that
    exists.) *)
Definition zip_arcname (arcname : string) : string :=
  lstrip_slashes (normpath arcname).

(** The archive name of the [i]-th (0-based) result of a group. *)
Definition entry_name (part_number : string) (i : nat)
    (result : DownloadResult) : string :=
  let clean_part_folder := clean_part part_number in
  let extension :=
    let s := path_suffix (dr_filename result) in
    if truthy s then s else ".jpg" in
  let clean_filename :=
    clean_part_folder +:+ "_" +:+ pretty (i + 1)%nat +:+ extension in
  zip_arcname (clean_part_folder +:+ "/" +:+ clean_filename).

(** The inner loop: files that do not exist are skipped, and keep their
    ordinal. *)
Definition group_entries (fs : storage) (part_number : string)
    (results : list DownloadResult) : list (string * file_obj) :=
  concat (imap (fun i result =>
                  match fs !! dr_filename result with
                  | Some f => [(entry_name part_number i result, f)]
                  | None => []
                  end) results).

Definition zip_entries (fs : storage) (download_results : list DownloadResult)
    : list (string * file_obj) :=
  flat_map (fun g => group_entries fs (fst g) (snd g))
           (part_groups download_results).

Definition downloads_dir : string := "/tmp/downloads".

(** [create_zip_file]: opening the archive for writing creates it before
    any file is read. *)
Definition create_zip_file (download_results : list DownloadResult)
    (zip_filename : string) (fs : storage) : string * storage :=
  let fs := <[zip_filename := ZipArchive []]> fs in
  let entries := zip_entries fs download_results in
  (downloads_dir +:+ "/" +:+ zip_filename,
   <[zip_filename := ZipArchive entries]> fs).

End Archiver.

(** ** Job tracker and endpoints *)

(** One value of the process-wide [download_tasks] dict.  The same dict holds
    search jobs and download jobs; every key but ["created_at"] (a
    timestamp no operation reads) is a field, absent keys are [None].  The
    key ["zip_file"] can be present with the value [None]. *)
Record task_data : Type := mkTask {
  td_search_results : option (list PartSearchResult);
  td_status : option string;
  td_total_images : option Z;
  td_downloaded_images : option Z;
  td_results : option (list DownloadResult);
  td_zip_file : option (option string);
  td_error_message : option string
}.

Abbreviation tracker := (gmap string task_data).

Record PartSearchRequest : Type := mkPartSearchRequest {
  req_part_numbers : list string;
  req_manufacturer : option string;
  req_num_images_per_part : Z
}.

Record SearchResponse : Type := mkSearchResponse {
  sr_search_id : string;
  sr_results : list PartSearchResult;
  sr_total_parts : Z;
  sr_total_images_found : Z
}.

Record DownloadRequest : Type := mkDownloadRequest {
  dreq_search_id : string;
  dreq_part_numbers : option (list string)
}.

Module Endpoints.
Import PyStr Fetcher Archiver.

(** [total_images += len(result.images)] over the successful results *)
Definition total_images_found (results : list PartSearchResult) : Z :=
  fold_left (fun total result =>
               if psr_search_success result
               then total + Z.of_nat (length (psr_images result)) else total)
            results 0.

(** POST /search-images.  [search_id] is the fresh [uuid4] of the call. *)
Definition search_part_images
    (provider : SearchService.search_params -> SearchService.provider_outcome)
    (request : PartSearchRequest) (search_id : string)
    (download_tasks : tracker) : SearchResponse * tracker :=
  let results :=
    map (fun part_number =>
           SearchService.search_part_images provider part_number
             (req_manufacturer request) (req_num_images_per_part request))
        (req_part_numbers request) in
  let response :=
    mkSearchResponse search_id results
      (Z.of_nat (length (req_part_numbers request)))
      (total_images_found results) in
  (response,
   <[search_id := mkTask (Some results) (Some "completed") None None None None None]>
     download_tasks).

Section WithUrlParser.
Variable urlparse_path : string -> option string.

(** The work list of POST /download-images: one
    [(part_number, original_url, filename)] per image with a non-empty URL of
    every successful search result (of the requested parts, if any were
    named). *)
Definition images_of_result (result : PartSearchResult)
    : list (string * string * string) :=
  if psr_search_success result then
    concat (imap (fun i image =>
                    if truthy (ir_original_url image)
                    then [(psr_part_number result, ir_original_url image,
                           generate_filename urlparse_path
                             (psr_part_number result) i (ir_original_url image))]
                    else [])
                 (psr_images result))
  else [].

Definition filter_requested (search_results : list PartSearchResult)
    (part_numbers : option (list string)) : list PartSearchResult :=
  match part_numbers with
  | None | Some [] => search_results
  | Some wanted =>
      List.filter (fun r => mem (psr_part_number r) wanted) search_results
  end.

Definition images_to_download (search_results : list PartSearchResult)
    (part_numbers : option (list string)) : list (string * string * string) :=
  flat_map images_of_result (filter_requested search_results part_numbers).

(** POST /download-images.  [download_id] is the fresh [uuid4] of the call.
    Returns the response and the arguments of the background task it
    schedules.  A tracker entry without ["search_results"] (a download job)
    makes the lookup raise [KeyError], which the framework turns into a 500. *)
Definition download_images (request : DownloadRequest) (download_id : string)
    (download_tasks : tracker)
    : http_result (DownloadResponse * list (string * string * string)) * tracker :=
  match download_tasks !! dreq_search_id request with
  | None => (HTTPException 404 "Search ID not found", download_tasks)
  | Some search_data =>
      match td_search_results search_data with
      | None => (HTTPException 500 "Internal Server Error", download_tasks)
      | Some search_results =>
          let todo := images_to_download search_results (dreq_part_numbers request) in
          let total := Z.of_nat (length todo) in
          (Ok (mkDownloadResponse download_id "started" total 0 [] None, todo),
           <[download_id := mkTask None (Some "started") (Some total) (Some 0)
                              (Some []) None None]> download_tasks)
      end
  end.

End WithUrlParser.

(** An exception that escapes to the handler of [download_images_background]:
    none, one raised while the batch is set up or run, or one raised while
    the archive is written. *)
Inductive fault : Type :=
  | NoFault
  | BatchRaises (msg : string)
  | ZipRaises (msg : string).

Definition set_processing (t : task_data) : task_data :=
  mkTask (td_search_results t) (Some "processing") (td_total_images t)
    (td_downloaded_images t) (td_results t) (td_zip_file t) (td_error_message t).

(** [dict.update] with status, downloaded_images, results and zip_file *)
Definition set_completed (downloaded : Z) (results : list DownloadResult)
    (zip_file : option string) (t : task_data) : task_data :=
  mkTask (td_search_results t) (Some "completed") (td_total_images t)
    (Some downloaded) (Some results) (Some zip_file) (td_error_message t).

(** [dict.update] with status, error_message and downloaded_images *)
Definition set_failed (msg : string) (t : task_data) : task_data :=
  mkTask (td_search_results t) (Some "failed") (td_total_images t)
    (Some 0) (td_results t) (td_zip_file t) (Some msg).

(** The part of [download_images_background] that follows the batch: the
    successful results are counted, the archive is written and the
    tracker entry updated.  It runs without an await, on the results the
    batch returned and on the download directory as it is at that moment
    (the batch ends with a sleep, during which other requests are served).
    When the archive writer raises, the archive it had begun is not part
    of the storage returned. *)
Definition finish_job (flt : fault) (download_id : string)
    (results : list DownloadResult) (processing : tracker) (fs : storage)
    : tracker * storage :=
  let successful_downloads := List.filter dr_success results in
  match successful_downloads, flt with
  | [], _ =>
      (alter (set_completed 0 results None) download_id processing, fs)
  | _ :: _, ZipRaises msg =>
      (alter (set_failed msg) download_id processing, fs)
  | _ :: _, _ =>
      let zip_filename := "parts_images_" +:+ download_id +:+ ".zip" in
      let '(zip_path, fs) :=
        create_zip_file successful_downloads zip_filename fs in
      (alter (set_completed (Z.of_nat (length successful_downloads)) results
                (if truthy zip_path then Some zip_filename else None))
             download_id processing,
       fs)
  end.

Section WithDecoder.
Variable image_opens : list byte -> bool.

(** The body of [download_images_background] after the status assignment,
    on the tracker [processing] in which the job has the status
    ["processing"]: the batch, run in submission order, and then what
    [finish_job] does, on the download directory as the batch left it (no
    other request touches it in between). *)
Definition run_job (net : nat -> get_outcome) (flt : fault)
    (download_id : string) (todo : list (string * string * string))
    (processing : tracker) (fs : storage) : tracker * storage :=
  match flt with
  | BatchRaises msg => (alter (set_failed msg) download_id processing, fs)
  | _ =>
      let '(results, fs) := download_images_batch image_opens net 0 todo fs in
      let successful_downloads := List.filter dr_success results in
      match successful_downloads, flt with
      | [], _ =>
          (alter (set_completed 0 results None) download_id processing, fs)
      | _ :: _, ZipRaises msg =>
          (alter (set_failed msg) download_id processing, fs)
      | _ :: _, _ =>
          let zip_filename := "parts_images_" +:+ download_id +:+ ".zip" in
          let '(zip_path, fs) :=
            create_zip_file successful_downloads zip_filename fs in
          (alter (set_completed (Z.of_nat (length successful_downloads)) results
                    (if truthy zip_path then Some zip_filename else None))
                 download_id processing,
           fs)
      end
  end.

(** [download_images_background], run with no other request touching the
    download directory or the job's tracker entry while the job runs.  The
    tracker is observable when the task
    is created, after the status is set to ["processing"] (the batch then
    awaits the network) and after the final update; the function returns the
    tracker at the last two points and the storage at the end.  Every
    tracker access is [download_tasks[download_id]]: when the entry is
    missing the first statement raises [KeyError], the handler raises it
    again, and nothing is fetched. *)
Definition download_images_background (net : nat -> get_outcome) (flt : fault)
    (download_id : string) (todo : list (string * string * string))
    (download_tasks : tracker) (fs : storage)
    : tracker * tracker * storage :=
  match download_tasks !! download_id with
  | None => (download_tasks, download_tasks, fs)
  | Some _ =>
      let processing := alter set_processing download_id download_tasks in
      let '(final, fs) := run_job net flt download_id todo processing fs in
      (processing, final, fs)
  end.

End WithDecoder.

(** GET /download-status/{download_id} *)
Definition get_download_status (download_id : string) (download_tasks : tracker)
    : http_result DownloadResponse :=
  match download_tasks !! download_id with
  | None => HTTPException 404 "Download ID not found"
  | Some task_data =>
      Ok (mkDownloadResponse download_id
            (default "unknown" (td_status task_data))
            (default 0 (td_total_images task_data))
            (default 0 (td_downloaded_images task_data))
            (default [] (td_results task_data))
            (default None (td_zip_file task_data)))
  end.

(** The number of entries of a result list with [success = true]. *)
Definition count_success (results : list DownloadResult) : Z :=
  Z.of_nat (length (List.filter dr_success results)).

End Endpoints.

(** ** Re-process endpoint *)

Record ReprocessRequest : Type := mkReprocessRequest {
  rreq_search_id : string;
  rreq_part_numbers : list string;
  rreq_search_strategy : option string;
  rreq_exclude_sources : option (list string)   (* accepted, never read *)
}.

Module Reprocess.
Import PyStr.

(** The whitespace of [str.split] and [str.strip] among the code points
    below 256: tab to carriage return, the four separators 28..31, the
    space, NEL (133) and the no-break space (160). *)
Definition is_space (c : ascii) : bool :=
  let n := nat_of_ascii c in
  ((9 <=? n) && (n <=? 13) || (28 <=? n) && (n <=? 31) || (n =? 32)
   || (n =? 133) || (n =? 160))%nat.

Definition flush (cur : option string) : list string :=
  match cur with Some w => [w] | None => [] end.

(** [s.split()]: the maximal runs of characters that are not whitespace. *)
Fixpoint split_go (cur : option string) (s : string) : list string :=
  match s with
  | EmptyString => flush cur
  | String c s' =>
      if is_space c then (flush cur ++ split_go None s')%list
      else split_go (Some (default "" cur +:+ String c "")) s'
  end.

Definition split (s : string) : list string := split_go None s.

(** The previous image URLs of the requested parts: [exclude_urls]. *)
Definition previous_urls (original_search : list PartSearchResult)
    (part_numbers : list string) : list string :=
  flat_map (fun result =>
              if mem (psr_part_number result) part_numbers
              then List.filter truthy (map ir_original_url (psr_images result))
              else [])
           original_search.

(** One round of the loop that guesses the manufacturer from the second word
    of an original query. *)
Definition guess_manufacturer (part_number : string) (manufacturer : option string)
    (orig_result : PartSearchResult) : option string :=
  if String.eqb (psr_part_number orig_result) part_number
     && truthy (psr_search_query orig_result)
  then
    match split (psr_search_query orig_result) with
    | _ :: second :: _ =>
        if mem second ["OEM"; "part"; "component"] then None else Some second
    | _ => manufacturer
    end
  else manufacturer.

Definition original_manufacturer (original_search : list PartSearchResult)
    (part_number : string) : option string :=
  fold_left (guess_manufacturer part_number) original_search None.

(** [request.search_strategy or "alternative"] *)
Definition strategy_of (request : ReprocessRequest) : string :=
  match rreq_search_strategy request with
  | Some s => if truthy s then s else "alternative"
  | None => "alternative"
  end.

(** POST /reprocess-images.  [new_search_id] is the fresh [uuid4] of the
    call.  The entry it stores also carries the keys ["reprocessed_from"]
    and ["strategy"]; no operation reads them, and like ["created_at"] they
    are not kept.  An entry without ["search_results"] makes the lookup
    raise [KeyError], which the framework turns into a 500. *)
Definition reprocess_part_images
    (provider : SearchService.search_params -> SearchService.provider_outcome)
    (request : ReprocessRequest) (new_search_id : string)
    (download_tasks : tracker) : http_result SearchResponse * tracker :=
  match download_tasks !! rreq_search_id request with
  | None => (HTTPException 404 "Original search ID not found", download_tasks)
  | Some original =>
      match td_search_results original with
      | None => (HTTPException 500 "Internal Server Error", download_tasks)
      | Some original_search =>
          let exclude_urls :=
            previous_urls original_search (rreq_part_numbers request) in
          let results :=
            map (fun part_number =>
                   SearchService.reprocess_part_images provider part_number
                     (original_manufacturer original_search part_number) 4
                     (strategy_of request) (Some exclude_urls))
                (rreq_part_numbers request) in
          (Ok (mkSearchResponse new_search_id results
                 (Z.of_nat (length (rreq_part_numbers request)))
                 (Endpoints.total_images_found results)),
           <[new_search_id := mkTask (Some results) (Some "completed")
                                None None None None None]> download_tasks)
      end
  end.

End Reprocess.

(** ** Archive download and cleanup endpoints *)

Module Maintenance.
Import PyStr.

(** GET /download-zip/{download_id}: the file name and the file served. *)
Definition download_zip_file (download_id : string) (download_tasks : tracker)
    (fs : storage) : http_result (string * file_obj) :=
  match download_tasks !! download_id with
  | None => HTTPException 404 "Download ID not found"
  | Some task_data =>
      match default None (td_zip_file task_data) with
      | Some zip_filename =>
          if truthy zip_filename then
            match fs !! zip_filename with
            | Some f => Ok (zip_filename, f)
            | None => HTTPException 404 "ZIP file not found"
            end
          else HTTPException 404 "ZIP file not available"
      | None => HTTPException 404 "ZIP file not available"
      end
  end.

(** The first loop of [cleanup_task]: [unlink(missing_ok=True)] on the file
    of every successful result with a name. *)
Definition unlink_results (results : list DownloadResult) (fs : storage)
    : storage :=
  fold_left (fun fs result =>
               if dr_success result && truthy (dr_filename result)
               then delete (dr_filename result) fs else fs)
            results fs.

(** DELETE /cleanup/{task_id} *)
Definition cleanup_task (task_id : string) (download_tasks : tracker)
    (fs : storage) : http_result string * tracker * storage :=
  match download_tasks !! task_id with
  | Some task_data =>
      let fs := match td_results task_data with
                | Some results => unlink_results results fs
                | None => fs
                end in
      let fs := match td_zip_file task_data with
                | Some (Some zip_file) =>
                    if truthy zip_file then delete zip_file fs else fs
                | _ => fs
                end in
      (Ok "Cleanup completed", delete task_id download_tasks, fs)
  | None => (HTTPException 404 "Task not found", download_tasks, fs)
  end.

End Maintenance.

(** ** CSV upload *)

Module CsvUpload.
Import PyStr.

(** [s.endswith(suffix)] *)
Fixpoint ends_with (suffix s : string) : bool :=
  String.eqb suffix s ||
  match s with
  | EmptyString => false
  | String _ s' => ends_with suffix s'
  end.

Fixpoint lstrip (s : string) : string :=
  match s with
  | EmptyString => EmptyString
  | String c s' => if Reprocess.is_space c then lstrip s' else s
  end.

Fixpoint rstrip (s : string) : string :=
  match s with
  | EmptyString => EmptyString
  | String c s' =>
      match rstrip s' with
      | EmptyString => if Reprocess.is_space c then EmptyString else String c EmptyString
      | r => String c r
      end
  end.

(** [s.strip()] *)
Definition strip (s : string) : string := rstrip (lstrip s).

Definition header_indicators : list string :=
  ["part"; "number"; "component"; "item"; "code"; "id"].

(** The test made on the first row: its first cell, lower-cased and
    stripped, contains a header word. *)
Definition looks_like_header (row : list string) : bool :=
  match row with
  | [] => false
  | cell :: _ => SearchService.any_in header_indicators (strip (lower cell))
  end.

(** [row[0].strip() if len(row) == 1 else " ".join(row).strip()] *)
Definition row_part_number (row : list string) : string :=
  match row with
  | [cell] => strip cell
  | _ => strip (SearchService.join_space row)
  end.

(** The loop over the rows [csv.reader] yields, from row index [row_idx]. *)
Fixpoint collect (row_idx : nat) (rows : list (list string))
    (part_numbers : list string) : list string :=
  match rows with
  | [] => part_numbers
  | row :: rest =>
      match row with
      | [] => collect (S row_idx) rest part_numbers
      | _ :: _ =>
          if (row_idx =? 0)%nat && looks_like_header row
          then collect (S row_idx) rest part_numbers          (* continue *)
          else
            let part_number := row_part_number row in
            if truthy part_number && negb (mem part_number part_numbers)
            then collect (S row_idx) rest (part_numbers ++ [part_number])
            else collect (S row_idx) rest part_numbers
      end
  end.

(** POST /parse-csv.  Decoding the upload and reading it with [csv.reader]
    are the standard library's: [parsed] is the message of the exception
    they raise, or the rows they yield.  The response is the list of part
    numbers and [total_count]. *)
Definition parse_csv_file (filename : string)
    (parsed : string + list (list string)) : http_result (list string * Z) :=
  if negb (ends_with ".csv" filename)
  then HTTPException 400 "File must be a CSV"
  else
    match parsed with
    | inl msg => HTTPException 400 ("Failed to parse CSV: " +:+ msg)
    | inr rows =>
        let part_numbers := collect 0 rows [] in
        Ok (part_numbers, Z.of_nat (length part_numbers))
    end.

End CsvUpload.

(** ** Vocabulary of the properties *)

(** What the selection loop keeps true of [selected]. *)
Record selection_ok (part_number : string) (manufacturer : option string)
    (max_images : Z) (selected : list hit) : Prop := {
  sel_length : Z.of_nat (length selected) <= max_images;
  sel_scores :
    Forall (fun img => 10 < Scorer._score_image_relevance img part_number manufacturer)
           selected;
  sel_sources : forall s, Selector.source_count s selected <= 2
}.

(** Every pair of the scored list carries the score of its own hit. *)
Definition well_scored (part_number : string) (manufacturer : option string)
    (scored : list (Z * hit)) : Prop :=
  Forall (fun p => fst p = Scorer._score_image_relevance (snd p) part_number manufacturer)
         scored.

(** The two hits of the CT-100 scenario, with nothing but a title. *)
Definition contactor_hit : hit :=
  Hit "CT-100 Schneider industrial contactor" "" None None "" None None.

Definition logo_banner_hit : hit :=
  Hit "ct100 logo banner" "" None None "" None None.

(** Stand-ins for the two external libraries, used to run the model on
    concrete inputs.  [opens_pixel_gif] plays PIL's [Image.open] on the
    files of the examples: it accepts a file that begins with the bytes of
    a complete GIF image of one pixel ([Image.open] reads a GIF up to its
    first image descriptor and does not look at what follows the image).
    [simple_url_path] plays [urlparse(url).path] on URLs of the form
    scheme://host/path?query#frag. *)

(** A GIF89a image of 1 x 1 pixel, 42 bytes: header and logical screen
    descriptor, a colour table of two entries, a graphic control
    extension, the image descriptor, two bytes of image data and the
    trailer. *)
Definition pixel_gif : list byte :=
  [x47; x49; x46; x38; x39; x61; x01; x00; x01; x00; x80; x00; x00;
   x00; x00; x00; xff; xff; xff;
   x21; xf9; x04; x01; x00; x00; x00; x00;
   x2c; x00; x00; x00; x00; x01; x00; x01; x00; x00;
   x02; x01; x44; x00; x3b].

Fixpoint bytes_prefix (p l : list byte) : bool :=
  match p, l with
  | [], _ => true
  | _ :: _, [] => false
  | a :: p', b :: l' => Byte.eqb a b && bytes_prefix p' l'
  end.

Definition opens_pixel_gif (content : list byte) : bool :=
  bytes_prefix pixel_gif content.

(** The one-pixel image followed by zero bytes, [n] bytes in all (for [n]
    of 42 or more). *)
Definition gif_of_size (n : nat) : list byte :=
  (pixel_gif ++ repeat x00 (n - 42))%list.

Fixpoint drop_through (sep s : string) : option string :=
  if PyStr.starts_with sep s
  then Some (substring (String.length sep) (String.length s) s)
  else match s with
       | EmptyString => None
       | String _ s' => drop_through sep s'
       end.

Fixpoint from_first (c : ascii) (s : string) : string :=
  match s with
  | EmptyString => EmptyString
  | String d s' => if Ascii.eqb c d then s else from_first c s'
  end.

Fixpoint take_until (stop : ascii -> bool) (s : string) : string :=
  match s with
  | EmptyString => EmptyString
  | String d s' => if stop d then EmptyString else String d (take_until stop s')
  end.

Definition simple_url_path (url : string) : option string :=
  let rest := default url (drop_through "://" url) in
  Some (take_until (fun c => Ascii.eqb c "?" || Ascii.eqb c "#")
          (from_first "/" rest)).

(** What a status poll shows for a job: the status, and a count of
    downloaded images that equals the number of successful results. *)
Definition observed (download_id status : string) (download_tasks : tracker)
    : Prop :=
  exists r, Endpoints.get_download_status download_id download_tasks = Ok r /\
            resp_status r = status /\
            resp_downloaded_images r = Endpoints.count_success (resp_results r).

(** A provider that answers every query with the same two hits. *)
Definition two_hit_provider (p : SearchService.search_params)
    : SearchService.provider_outcome :=
  SearchService.ProviderDict None
    (Some [Hit "CT-100 current transformer" "Alliance Electric"
             (Some "https://a.example/ct100.jpg") (Some "https://a.example/p/1")
             "https://a.example/t1.jpg" (Some 640) (Some 480);
           Hit "CT-100 relay" "eBay"
             None (Some "https://b.example/ct100.png")
             "https://b.example/t2.jpg" None None]).

(** A tracker holding one search job, and the download job made from it. *)
Definition demo_tracker : tracker :=
  snd (Endpoints.search_part_images two_hit_provider
         (mkPartSearchRequest ["CT-100"] None 4) "search-1" ∅).

Definition demo_todo : list (string * string * string) :=
  [("CT-100", "https://a.example/ct100.jpg", "CT-100_1.jpg");
   ("CT-100", "https://b.example/ct100.png", "CT-100_2.png")].

Definition demo_created : tracker :=
  <["download-1" := mkTask None (Some "started") (Some 2) (Some 0) (Some []) None None]>
    demo_tracker.

(** A remote side that answers every request with a GIF image of 2048
    bytes. *)
Definition always_gif (i : nat) : Fetcher.get_outcome :=
  Fetcher.GetResponse 200 (inr (gif_of_size 2048)).

(** [c in s] for a character [c] *)
Fixpoint has_char (c : ascii) (s : string) : bool :=
  match s with
  | EmptyString => false
  | String d s' => Ascii.eqb c d || has_char c s'
  end.

(** The filename of a work item [(part_number, url, filename)]. *)
Definition item_filename (item : string * string * string) : string := snd item.

(** The search results that contribute work items: the requested ones whose
    search succeeded. *)
Definition contributing (search_results : list PartSearchResult)
    (part_numbers : option (list string)) : list PartSearchResult :=
  List.filter psr_search_success
    (Endpoints.filter_requested search_results part_numbers).

(** A file name generated for the cleaned part number [key]. *)
Definition generated_for (urlparse_path : string -> option string)
    (key filename : string) : Prop :=
  exists part_number i url,
    filename = Archiver.generate_filename urlparse_path part_number i url /\
    Archiver.clean_part part_number = key.

(** The archive the specification describes, written from its words: the owners
    (part numbers) of the results in order of first appearance; for each
    owner its results in order; the entry of the [i]-th of them (counting
    from 1) is named sanitizedOwner/sanitizedOwner_i.ext. *)
Definition owners (l : list DownloadResult) : list string :=
  fold_left (fun acc r =>
               if PyStr.mem (dr_part_number r) acc then acc
               else (acc ++ [dr_part_number r])%list) l [].

Definition owned_by (owner : string) (l : list DownloadResult)
    : list DownloadResult :=
  List.filter (fun r => String.eqb (dr_part_number r) owner) l.

Definition entry_extension (r : DownloadResult) : string :=
  let s := Archiver.path_suffix (dr_filename r) in
  if PyStr.truthy s then s else ".jpg".

Definition spec_entry_name (owner : string) (ordinal : nat) (ext : string)
    : string :=
  Archiver.clean_part owner +:+ "/" +:+ Archiver.clean_part owner +:+ "_"
    +:+ pretty ordinal +:+ ext.

(** The name as the archive stores it: the archive library normalises the
    name it is given, which removes the folder part when the sanitized owner
    is empty or a single dot; otherwise it is the name of the
    specification. *)
Definition stored_entry_name (owner : string) (ordinal : nat) (ext : string)
    : string :=
  let folder := Archiver.clean_part owner in
  if String.eqb folder "" || String.eqb folder "."
  then folder +:+ "_" +:+ pretty ordinal +:+ ext
  else spec_entry_name owner ordinal ext.


(** The number of results held by a list of groups. *)
Definition groups_size (groups : list (string * list DownloadResult)) : nat :=
  list_sum (map (fun g => length (snd g)) groups).

(** The search results of the demo tracker. *)
Definition demo_results : list PartSearchResult :=
  sr_results (fst (Endpoints.search_part_images two_hit_provider
                     (mkPartSearchRequest ["CT-100"] None 4) "search-1" ∅)).

(** A provider with one hit of its own for the part number "CT_100", and a
    search for two part numbers that differ only in a character the file
    name generator replaces, with the download job made from it. *)
Definition clash_provider (p : SearchService.search_params)
    : SearchService.provider_outcome :=
  if PyStr.contains "CT_100" (SearchService.sp_q p)
  then SearchService.ProviderDict None
         (Some [Hit "CT_100 relay" "Shop C"
                  (Some "https://c.example/ct_100.jpg") None
                  "https://c.example/t.jpg" None None])
  else two_hit_provider p.

Definition clash_tracker : tracker :=
  snd (Endpoints.search_part_images clash_provider
         (mkPartSearchRequest ["CT 100"; "CT_100"] None 4) "search-2" ∅).

Definition clash_todo : list (string * string * string) :=
  [("CT 100", "https://a.example/ct100.jpg", "CT_100_1.jpg");
   ("CT 100", "https://b.example/ct100.png", "CT_100_2.png");
   ("CT_100", "https://c.example/ct_100.jpg", "CT_100_1.jpg")].

Definition clash_created : tracker :=
  <["download-2" := mkTask None (Some "started") (Some 3) (Some 0) (Some []) None None]>
    clash_tracker.


Definition chunked_todo : list (string * string * string) :=
  [("CT 100", "https://a.example/ct100.jpg", "CT_100_1.jpg");
   ("CT 100", "https://b.example/ct100.png", "CT_100_2.png");
   ("LC1D09", "https://a.example/ct100.jpg", "LC1D09_1.jpg");
   ("LC1D09", "https://b.example/ct100.png", "LC1D09_2.png");
   ("LC1D12", "https://a.example/ct100.jpg", "LC1D12_1.jpg");
   ("LC1D12", "https://b.example/ct100.png", "LC1D12_2.png");
   ("LC1D18", "https://a.example/ct100.jpg", "LC1D18_1.jpg");
   ("LC1D18", "https://b.example/ct100.png", "LC1D18_2.png");
   ("LC1D25", "https://a.example/ct100.jpg", "LC1D25_1.jpg");
   ("LC1D25", "https://b.example/ct100.png", "LC1D25_2.png");
   ("CT_100", "https://c.example/ct_100.jpg", "CT_100_1.jpg")].


(** A remote side whose answer to the eleventh fetch is a GIF image of 512
    bytes; all others are GIF images of 2048 bytes. *)
Definition eleventh_is_small (i : nat) : Fetcher.get_outcome :=
  match i with
  | 10%nat => Fetcher.GetResponse 200 (inr (gif_of_size 512))
  | _ => Fetcher.GetResponse 200 (inr (gif_of_size 2048))
  end.

(** The results of a search for two part numbers. *)
Definition pair_results : list PartSearchResult :=
  sr_results (fst (Endpoints.search_part_images two_hit_provider
                     (mkPartSearchRequest ["CT-100"; "LC1D09"] None 4)
                     "search-4" ∅)).

(** The order of the selection: a hit comes before another when it scores at
    least as much. *)
Definition scores_no_less (part_number : string) (manufacturer : option string)
    (a b : hit) : Prop :=
  Scorer._score_image_relevance b part_number manufacturer
  <= Scorer._score_image_relevance a part_number manufacturer.

(** A title with every domain keyword, the part number and the manufacturer,
    and no noise keyword. *)
Definition keyword_rich_hit : hit :=
  Hit ("CT-100 Schneider transformer relay contactor breaker component " +:+
       "electrical industrial genuine oem original abb siemens eocr current")
      "Alliance Electric" None None "" (Some 640) (Some 480).

(** [c in s] for some whitespace character [c] *)
Fixpoint has_space (s : string) : bool :=
  match s with
  | EmptyString => false
  | String c s' => Reprocess.is_space c || has_space s'
  end.

(** All the images of a list of search results. *)
Definition all_images (results : list PartSearchResult) : list ImageResult :=
  flat_map psr_images results.

(** What every result of the two service methods has in common. *)
Definition service_result_ok (part_number : string) (num_results : Z)
    (r : PartSearchResult) : Prop :=
  psr_part_number r = part_number /\
  Z.of_nat (length (psr_images r)) <= num_results /\
  (psr_search_success r = false -> psr_images r = []) /\
  (psr_search_success r = true <-> psr_error_message r = None).

(** A provider that answers every query with the two hits of
    [two_hit_provider] and a third one. *)
Definition three_hit_provider (p : SearchService.search_params)
    : SearchService.provider_outcome :=
  SearchService.ProviderDict None
    (Some [Hit "CT-100 current transformer" "Alliance Electric"
             (Some "https://a.example/ct100.jpg") (Some "https://a.example/p/1")
             "https://a.example/t1.jpg" (Some 640) (Some 480);
           Hit "CT-100 relay" "eBay"
             None (Some "https://b.example/ct100.png")
             "https://b.example/t2.jpg" None None;
           Hit "CT-100 contactor" "Mouser"
             (Some "https://c.example/new.jpg") None
             "https://c.example/t3.jpg" None None]).

(** The two tests by which the first-pass search classifies a part number. *)
Definition industrial_part (part_number : string) : bool :=
  SearchService.any_in ["ct-"; "transformer"; "relay"; "contactor"; "breaker"]
    (PyStr.lower part_number).

Definition automotive_part (part_number : string) : bool :=
  SearchService.any_in ["pf"; "filter"; "bpr"; "ngk"; "spark"]
    (PyStr.lower part_number).

(** A search result for [part_number] that carries the first-pass query. *)
Definition first_pass_result (part_number : string) (manufacturer : option string)
    (r : PartSearchResult) : Prop :=
  psr_part_number r = part_number /\
  psr_search_query r = SearchService.build_search_query part_number manufacturer.

(** The two shapes of a [DownloadResult]: a success with the size of the
    body, above 1000 bytes, and no message; or a failure with a message and
    no size. *)
Definition well_formed_result (r : DownloadResult) : Prop :=
  (dr_success r = true /\ dr_error_message r = None /\
   exists n, dr_file_size r = Some n /\ 1000 < n) \/
  (dr_success r = false /\ dr_file_size r = None /\
   exists msg, dr_error_message r = Some msg).

(** The name of the archive of a download job. *)
Definition zip_name (download_id : string) : string :=
  "parts_images_" +:+ download_id +:+ ".zip".

(** The characters a cleaned part number is made of. *)
Definition safe_char (c : ascii) : bool :=
  PyStr.isalnum c || Ascii.eqb c "." || Ascii.eqb c "_" || Ascii.eqb c "-".

(** [all(p(c) for c in s)] *)
Fixpoint all_chars (p : ascii -> bool) (s : string) : bool :=
  match s with
  | EmptyString => true
  | String c s' => p c && all_chars p s'
  end.

(** The condition under which [create_zip_file] groups a result. *)
Definition archivable (r : DownloadResult) : bool :=
  dr_success r && PyStr.truthy (dr_filename r).

(** What the event loop keeps true of a task of a chunk whose file names
    are pairwise distinct: the file of the task is as the task left it, and
    a task that has returned has the result of its fetch run alone on the
    download directory [fs0] the chunk started with. *)
Definition task_ok (image_opens : list byte -> bool) (reply : Fetcher.get_outcome)
    (item : string * string * string) (fs0 fs : storage)
    (st : Gather.task_state) : Prop :=
  let '(p, u, f) := item in
  match st with
  | Gather.Waiting => fs !! f = fs0 !! f
  | Gather.Opened c =>
      reply = Fetcher.GetResponse 200 (inr c) /\ fs !! f = Some (Blob [])
  | Gather.Written c =>
      reply = Fetcher.GetResponse 200 (inr c) /\ fs !! f = Some (Blob c)
  | Gather.Returned r =>
      r = fst (Fetcher.download_with_semaphore image_opens reply p u f fs0) /\
      fs !! f
      = snd (Fetcher.download_with_semaphore image_opens reply p u f fs0) !! f
  end.

(** The same of a whole chunk. *)
Definition chunk_ok (image_opens : list byte -> bool)
    (net : nat -> Fetcher.get_outcome) (first : nat)
    (chunk : list (string * string * string)) (fs0 : storage)
    (cfg : list Gather.task_state * storage) : Prop :=
  length (fst cfg) = length chunk /\
  (forall k, ~ In k (map item_filename chunk) -> snd cfg !! k = fs0 !! k) /\
  forall i item st,
    chunk !! i = Some item -> fst cfg !! i = Some st ->
    task_ok image_opens (net (first + i)%nat) item fs0 (snd cfg) st.

(** The chunks of ten of a work list each have pairwise distinct file
    names. *)
Inductive chunks_distinct : list (string * string * string) -> Prop :=
  | chunks_distinct_nil : chunks_distinct []
  | chunks_distinct_cons (item : string * string * string)
      (rest : list (string * string * string)) :
      NoDup (map item_filename (take 10 (item :: rest))) ->
      chunks_distinct (drop 10 (item :: rest)) ->
      chunks_distinct (item :: rest).


(** The hits the exclusion list of a re-process call names: those whose
    original URL or whose link URL is in the list. *)
Definition listed (exclude_urls : list string) (img : hit) : Prop :=
  (exists u, hit_original img = Some u /\ In u exclude_urls) \/
  (exists u, hit_link img = Some u /\ In u exclude_urls).

Definition unlisted (exclude_urls : list string) (img : hit) : bool :=
  negb (match hit_original img with
        | Some u => PyStr.mem u exclude_urls
        | None => false
        end
        || match hit_link img with
           | Some u => PyStr.mem u exclude_urls
           | None => false
           end).

(** A provider that does not report the listed hits. *)
Definition without_listed (exclude_urls : list string)
    (provider : SearchService.search_params -> SearchService.provider_outcome)
    (params : SearchService.search_params) : SearchService.provider_outcome :=
  match provider params with
  | SearchService.ProviderDict err (Some hits) =>
      SearchService.ProviderDict err
        (Some (List.filter (unlisted exclude_urls) hits))
  | outcome => outcome
  end.

(** * Properties *)

(** ** Relevance scorer *)

Section ScorerFacts.
Import PyStr Scorer.

(** The loop over [industrial_sources] tests each element against itself, so
    it stops at the first one whatever the hit's source label is, and the
    label that reaches the marketplace loop is that first element. *)
Lemma industrial_loop_first (source : string) (score : Z) :
  industrial_loop industrial_sources source score = ("alliance", score + 20).
Proof. reflexivity. Qed.

Lemma source_trust_constant (source : string) (score : Z) :
  source_trust source score = score + 20.
Proof. unfold source_trust. rewrite industrial_loop_first. reflexivity. Qed.

Lemma code_source_bonus_constant (label : string) : code_source_bonus label = 20.
Proof. unfold code_source_bonus. now rewrite source_trust_constant. Qed.

(** C1. The two-tier source-trust rule (+20 for a preferred industrial
    source, otherwise +10 for a marketplace, otherwise nothing) is not what
    the code computes: for the marketplace label "ebay" the rule gives 10 and
    the code adds 20, for the label "corner shop" the rule gives 0 and the
    code adds 20, and a hit with an empty title from "ebay" scores 20. *)
Theorem source_bonus_diverges_from_rule :
  spec_source_bonus "ebay" = 10 /\ code_source_bonus "ebay" = 20 /\
  spec_source_bonus "corner shop" = 0 /\ code_source_bonus "corner shop" = 20 /\
  _score_image_relevance (Hit "" "ebay" None None "" None None) "X1" None = 20.
Proof. repeat split; reflexivity. Qed.

End ScorerFacts.

(** ** Selector *)

Section SelectorFacts.
Import PyStr Scorer Selector.

Lemma source_count_nonneg (s : string) (selected : list hit) :
  0 <= source_count s selected.
Proof. unfold source_count. lia. Qed.

Lemma source_count_snoc (s : string) (selected : list hit) (img : hit) :
  source_count s (selected ++ [img]) =
  source_count s selected +
  (if String.eqb (lower (hit_source img)) s then 1 else 0).
Proof.
  unfold source_count. rewrite filter_app, length_app, Nat2Z.inj_add.
  f_equal. rewrite filter_cons, filter_nil.
  destruct (String.eqb (lower (hit_source img)) s) eqn:E.
  - rewrite decide_True by reflexivity. reflexivity.
  - rewrite decide_False by discriminate. reflexivity.
Qed.

Lemma insert_desc_forall (P : Z * hit -> Prop) (x : Z * hit) (l : list (Z * hit)) :
  P x -> Forall P l -> Forall P (insert_desc x l).
Proof.
  intros Hx Hl. induction Hl as [|y l Hy Hl IH]; simpl.
  - auto.
  - destruct (fst x <? fst y); auto.
Qed.

Lemma sort_desc_forall (P : Z * hit -> Prop) (l : list (Z * hit)) :
  Forall P l -> Forall P (sort_desc l).
Proof.
  induction 1 as [|x l Hx Hl IH]; simpl.
  - constructor.
  - now apply insert_desc_forall.
Qed.

(** [sort_desc] is a stable sort into descending order of score: its result
    is a permutation of its argument, is sorted, and keeps the hits of each
    score in their input order. *)
Lemma insert_desc_perm (x : Z * hit) (l : list (Z * hit)) :
  Permutation (insert_desc x l) (x :: l).
Proof.
  induction l as [|y l IH]; simpl; [reflexivity|].
  destruct (fst x <? fst y); [|reflexivity].
  rewrite IH. apply perm_swap.
Qed.

Lemma sort_desc_perm (l : list (Z * hit)) : Permutation (sort_desc l) l.
Proof.
  induction l as [|x l IH]; simpl; [reflexivity|].
  rewrite insert_desc_perm. now constructor.
Qed.

Lemma insert_desc_sorted (x : Z * hit) (l : list (Z * hit)) :
  StronglySorted (fun p q => fst q <= fst p) l ->
  StronglySorted (fun p q => fst q <= fst p) (insert_desc x l).
Proof.
  induction 1 as [|y l Hl IH Hy]; simpl.
  - repeat constructor.
  - destruct (fst x <? fst y) eqn:Hlt.
    + constructor; [exact IH|].
      apply (insert_desc_forall (fun q => fst q <= fst y)); [lia | exact Hy].
    + constructor; [now constructor|].
      constructor; [lia|].
      eapply List.Forall_impl; [|exact Hy]. simpl. intros q Hq. lia.
Qed.

Lemma sort_desc_sorted (l : list (Z * hit)) :
  StronglySorted (fun p q => fst q <= fst p) (sort_desc l).
Proof.
  induction l as [|x l IH]; simpl; [constructor|]. now apply insert_desc_sorted.
Qed.

Lemma insert_desc_stable (v : Z) (x : Z * hit) (l : list (Z * hit)) :
  List.filter (fun p => fst p =? v) (insert_desc x l)
  = List.filter (fun p => fst p =? v) (x :: l).
Proof.
  induction l as [|y l IH]; [reflexivity|].
  simpl insert_desc. destruct (fst x <? fst y) eqn:Hlt; [|reflexivity].
  simpl in *. rewrite IH.
  destruct (fst x =? v) eqn:Hx; [|reflexivity].
  replace (fst y =? v) with false by lia. reflexivity.
Qed.

Lemma sort_desc_stable (v : Z) (l : list (Z * hit)) :
  List.filter (fun p => fst p =? v) (sort_desc l)
  = List.filter (fun p => fst p =? v) l.
Proof.
  induction l as [|x l IH]; [reflexivity|].
  simpl sort_desc. rewrite insert_desc_stable. simpl. now rewrite IH.
Qed.

Lemma select_loop_ok (part_number : string) (manufacturer : option string)
    (max_images : Z) (scored : list (Z * hit)) :
  well_scored part_number manufacturer scored ->
  forall selected,
    selection_ok part_number manufacturer max_images selected ->
    selection_ok part_number manufacturer max_images
      (select_loop scored max_images selected).
Proof.
  induction 1 as [|[score img] rest Hp Hrest IH]; intros selected Hsel; simpl.
  - exact Hsel.
  - destruct (Z.of_nat (length selected) >=? max_images) eqn:Hfull; [exact Hsel|].
    destruct (score >? 10) eqn:Hscore; simpl; [|now apply IH].
    destruct (source_count (lower (hit_source img)) selected <? 2) eqn:Hcnt;
      [|now apply IH].
    apply IH. destruct Hsel as [Hlen Hsc Hsrc]. simpl in Hp. split.
    + rewrite length_app, Nat2Z.inj_add. simpl. lia.
    + apply Forall_app. split; [exact Hsc|]. constructor; [|constructor]. lia.
    + intros s. rewrite source_count_snoc.
      destruct (String.eqb (lower (hit_source img)) s) eqn:E.
      * apply String.eqb_eq in E. subst s. lia.
      * specialize (Hsrc s). lia.
Qed.

(** C2. For every list of hits, part number, optional manufacturer and
    (non-negative) maximum count, the selection of [_select_best_images] has
    at most [max_images] elements, every selected hit scores strictly more
    than 10, and no source label, compared case-insensitively, occurs more
    than twice among the selected hits. *)
Theorem select_best_images_bounds (images : list hit) (part_number : string)
    (manufacturer : option string) (max_images : Z) :
  0 <= max_images ->
  let selected := _select_best_images images part_number manufacturer max_images in
  Z.of_nat (length selected) <= max_images /\
  Forall (fun img => 10 < _score_image_relevance img part_number manufacturer)
         selected /\
  forall label : string, source_count (lower label) selected <= 2.
Proof.
  intros Hmax selected.
  assert (H : selection_ok part_number manufacturer max_images selected).
  { apply select_loop_ok.
    - apply sort_desc_forall. apply Forall_map. apply Forall_forall.
      intros img _. reflexivity.
    - split; [simpl; lia | apply List.Forall_nil | intros s; unfold source_count; rewrite filter_nil; simpl; lia]. }
  destruct H as [H1 H2 H3]. auto.
Qed.

(** With no room at all the loop breaks at once (or has nothing to look
    at): the selection is empty. *)
Lemma select_best_images_no_room (images : list hit) (part_number : string)
    (manufacturer : option string) (max_images : Z) :
  max_images <= 0 ->
  _select_best_images images part_number manufacturer max_images = [].
Proof.
  intros Hmax. unfold _select_best_images.
  destruct (sort_desc _) as [|[score img] rest]; [reflexivity|].
  cbn [select_loop length]. change (Z.of_nat 0) with 0.
  destruct (0 >=? max_images) eqn:Hfull; [reflexivity | lia].
Qed.

Lemma select_best_images_bounds_witness :
  let hits := [Hit "CT-100 relay" "eBay" None None "" None None;
               Hit "CT-100 relay" "EBAY" None None "" None None;
               Hit "CT-100 relay" "ebay" None None "" None None] in
  let selected := _select_best_images hits "CT-100" None 4 in
  Z.of_nat (length selected) <= 4 /\
  Forall (fun img => 10 < _score_image_relevance img "CT-100" None) selected /\
  forall label : string, source_count (lower label) selected <= 2.
Proof. apply (select_best_images_bounds _ "CT-100" None 4). lia. Defined.

End SelectorFacts.

(** ** The CT-100 scenario *)

Section ScenarioFacts.
Import PyStr Scorer Selector.

Lemma dimension_adjust_bounds (width height score : Z) :
  score - 15 <= dimension_adjust width height score <= score + 10.
Proof.
  unfold dimension_adjust.
  repeat match goal with |- context [if ?b then _ else _] => destruct b end; lia.
Qed.

Lemma score_contactor_hit (a : hit) :
  hit_title a = "CT-100 Schneider industrial contactor" ->
  99 <= _score_image_relevance a "CT-100" (Some "Schneider") <= 124.
Proof.
  intros Ha. unfold _score_image_relevance. cbv zeta.
  rewrite Ha, source_trust_constant.
  change (lower "CT-100 Schneider industrial contactor")
    with "ct-100 schneider industrial contactor".
  change (avoid_penalty "ct-100 schneider industrial contactor"
            (keyword_bonus "ct-100 schneider industrial contactor"
               (manufacturer_match "ct-100 schneider industrial contactor"
                  (Some "Schneider")
                  (part_match "ct-100 schneider industrial contactor" "CT-100" 0))
             + 20))
    with 114.
  pose proof (dimension_adjust_bounds
                (default 0 (hit_original_width a))
                (default 0 (hit_original_height a)) 114).
  lia.
Qed.

Lemma score_logo_banner_hit (b : hit) :
  hit_title b = "ct100 logo banner" ->
  35 <= _score_image_relevance b "CT-100" (Some "Schneider") <= 60.
Proof.
  intros Hb. unfold _score_image_relevance. cbv zeta.
  rewrite Hb, source_trust_constant.
  change (lower "ct100 logo banner") with "ct100 logo banner".
  change (avoid_penalty "ct100 logo banner"
            (keyword_bonus "ct100 logo banner"
               (manufacturer_match "ct100 logo banner" (Some "Schneider")
                  (part_match "ct100 logo banner" "CT-100" 0))
             + 20))
    with 50.
  pose proof (dimension_adjust_bounds
                (default 0 (hit_original_width b))
                (default 0 (hit_original_height b)) 50).
  lia.
Qed.

Lemma source_count_single (s : string) (a : hit) : source_count s [a] <= 1.
Proof.
  change [a] with (([] ++ [a])%list). rewrite source_count_snoc.
  unfold source_count at 1. rewrite filter_nil. simpl.
  destruct (String.eqb _ _); lia.
Qed.

Lemma select_loop_two (x y : Z) (a b : hit) (max_images : Z) :
  10 < x -> 10 < y -> 2 <= max_images ->
  select_loop [(x, a); (y, b)] max_images [] = [a; b].
Proof.
  intros Hx Hy Hmax.
  pose proof (source_count_single (lower (hit_source b)) a) as H1.
  assert (H0 : source_count (lower (hit_source a)) [] = 0)
    by (unfold source_count; now rewrite filter_nil).
  cbn [select_loop length app]. rewrite H0.
  repeat match goal with
         | |- context [if ?c then _ else _] => destruct c eqn:?
         end; try reflexivity; exfalso;
    rewrite ?Z.geb_leb, ?Z.gtb_ltb in *; change (Z.of_nat 0) with 0 in *;
    change (Z.of_nat 1) with 1 in *; lia.
Qed.

(** C3, as the code has it.  With part number "CT-100" and manufacturer
    "Schneider", a hit titled "CT-100 Schneider industrial contactor" scores
    at least 78.  A hit titled "ct100 logo banner" does match the part
    number, because hyphens are stripped from both before the test, so it
    scores above the admission threshold of 10 and below the first hit; from
    the two hits alone, with room for two, the selector admits the first hit
    and then the second as well. *)
Theorem ct100_scenario (a b : hit) (max_images : Z) :
  hit_title a = "CT-100 Schneider industrial contactor" ->
  hit_title b = "ct100 logo banner" ->
  2 <= max_images ->
  78 <= _score_image_relevance a "CT-100" (Some "Schneider") /\
  10 < _score_image_relevance b "CT-100" (Some "Schneider") /\
  _score_image_relevance b "CT-100" (Some "Schneider")
    < _score_image_relevance a "CT-100" (Some "Schneider") /\
  _select_best_images [a; b] "CT-100" (Some "Schneider") max_images = [a; b] /\
  _select_best_images [b; a] "CT-100" (Some "Schneider") max_images = [a; b].
Proof.
  intros Ha Hb Hmax.
  pose proof (score_contactor_hit a Ha) as HA.
  pose proof (score_logo_banner_hit b Hb) as HB.
  repeat split; try lia.
  - unfold _select_best_images. simpl.
    replace (_ <? _) with false by lia.
    apply select_loop_two; lia.
  - unfold _select_best_images. simpl.
    replace (_ <? _) with true by lia.
    apply select_loop_two; lia.
Qed.

Lemma ct100_scenario_witness :
  let a := Hit "CT-100 Schneider industrial contactor" "Alliance Electric"
             (Some "https://a.example/ct100.jpg") None "" (Some 640) (Some 480) in
  let b := Hit "ct100 logo banner" "Pinterest"
             (Some "https://b.example/banner.png") None "" (Some 1200) (Some 90) in
  78 <= _score_image_relevance a "CT-100" (Some "Schneider") /\
  10 < _score_image_relevance b "CT-100" (Some "Schneider") /\
  _score_image_relevance b "CT-100" (Some "Schneider")
    < _score_image_relevance a "CT-100" (Some "Schneider") /\
  _select_best_images [a; b] "CT-100" (Some "Schneider") 4 = [a; b] /\
  _select_best_images [b; a] "CT-100" (Some "Schneider") 4 = [a; b].
Proof.
  intros a b. apply (ct100_scenario a b 4); [reflexivity | reflexivity | lia].
Defined.

(** C3 as stated fails: the hit titled "ct100 logo banner" scores 50, not at
    most 0, and the selector admits it. *)
Lemma logo_banner_hit_admitted :
  _score_image_relevance logo_banner_hit "CT-100" (Some "Schneider") = 50 /\
  _select_best_images [contactor_hit; logo_banner_hit] "CT-100" (Some "Schneider") 4
    = [contactor_hit; logo_banner_hit] /\
  ~ (_score_image_relevance logo_banner_hit "CT-100" (Some "Schneider") <= 0) /\
  In logo_banner_hit
     (_select_best_images [contactor_hit; logo_banner_hit] "CT-100"
        (Some "Schneider") 4).
Proof.
  assert (Hs : _score_image_relevance logo_banner_hit "CT-100" (Some "Schneider") = 50)
    by reflexivity.
  assert (Hsel : _select_best_images [contactor_hit; logo_banner_hit] "CT-100"
                   (Some "Schneider") 4 = [contactor_hit; logo_banner_hit])
    by (vm_compute; reflexivity).
  split; [exact Hs|]. split; [exact Hsel|]. split.
  - rewrite Hs. lia.
  - rewrite Hsel. right. left. reflexivity.
Qed.

End ScenarioFacts.

(** ** Fetcher *)

Section FetcherFacts.
Import PyStr Fetcher.
Variable image_opens : list byte -> bool.

(** A fetch only ever touches the file it was assigned. *)
Lemma download_image_other_files (reply : get_outcome) (url filename : string)
    (fs : storage) (other : string) :
  other <> filename ->
  snd (download_image image_opens reply url filename fs) !! other = fs !! other.
Proof.
  intros Hne. unfold download_image.
  destruct reply as [e|status [e|content]|content e]; simpl; trivial.
  - destruct (status =? 200); reflexivity.
  - destruct (status =? 200); simpl; trivial.
    repeat match goal with
           | |- context [if ?c then _ else _] => destruct c
           end; simpl;
      rewrite ?lookup_delete_ne, ?lookup_insert_ne by congruence; reflexivity.
Qed.

(** The three outcomes of a 200 response whose body was read. *)
Lemma download_image_200 (url filename : string) (fs : storage)
    (content : list byte) :
  download_image image_opens (GetResponse 200 (inr content)) url filename fs =
  if Z.of_nat (length content) >? 1000 then
    if image_opens content then
      (mkDownloadResult "" url filename true None
         (Some (Z.of_nat (length content))),
       <[filename := Blob content]> fs)
    else (failure url filename "Invalid image format",
          delete filename (<[filename := Blob content]> fs))
  else (failure url filename "File too small or empty",
        delete filename (<[filename := Blob content]> fs)).
Proof.
  unfold download_image. simpl. rewrite lookup_insert_eq.
  rewrite bool_decide_eq_true_2 by eauto. reflexivity.
Qed.

(** C4, as the code has it.  A 200 response whose body has at most 1000
    bytes (the code's threshold is [len(content) > 1000], not 1024) and is
    written to the local file yields a failure result with the message
    "File too small or empty" and leaves no file at the assigned filename; a
    512-byte body is such a body.  When the local file cannot be opened for
    writing, the result is a failure too, but its message is that of the
    exception ("Timeout", or "Error: " and the start of its text), and
    storage is left as it was: no file is created, but a file that existed
    under the assigned filename stays.  The first part does not depend on
    the fetch running alone: whatever other fetches have done to the file
    between the write and the checks, the checks of a body of at most 1000
    bytes end in the same failure and unlink the file. *)
Theorem undersized_body_rejected (url filename : string) (fs : storage)
    (content : list byte) :
  Z.of_nat (length content) <= 1000 ->
  (fst (download_image image_opens (GetResponse 200 (inr content)) url filename fs)
     = failure url filename "File too small or empty" /\
   dr_success
     (fst (download_image image_opens (GetResponse 200 (inr content)) url filename
             fs))
     = false /\
   snd (download_image image_opens (GetResponse 200 (inr content)) url filename fs)
     !! filename = None) /\
  (forall e : exn,
     fst (download_image image_opens (OpenRaises content e) url filename fs)
       = on_exception e url filename /\
     dr_success
       (fst (download_image image_opens (OpenRaises content e) url filename fs))
       = false /\
     snd (download_image image_opens (OpenRaises content e) url filename fs) = fs) /\
  (forall (part_number : string) (fs' : storage),
     Gather.task_step image_opens (GetResponse 200 (inr content))
       (part_number, url, filename) (Gather.Written content) fs'
     = Some (Gather.Returned
               (Gather.stamp part_number
                  (failure url filename "File too small or empty")),
             delete filename fs')).
Proof.
  intros Hlen. split; [|split].
  - rewrite download_image_200.
    replace (Z.of_nat (length content) >? 1000) with false by lia.
    simpl. repeat split. apply lookup_delete_eq.
  - intros e. simpl. repeat split. now destruct e.
  - intros part_number fs'. cbn [Gather.task_step].
    replace (Z.of_nat (length content) >? 1000) with false by lia.
    now rewrite andb_false_r.
Qed.



End FetcherFacts.

Section FetcherExamples.
Import PyStr Fetcher.

Lemma undersized_body_rejected_witness :
  (fst (download_image opens_pixel_gif (GetResponse 200 (inr (gif_of_size 512)))
          "https://img.example/ct100.gif" "CT-100_1.gif" ∅)
     = failure "https://img.example/ct100.gif" "CT-100_1.gif"
         "File too small or empty" /\
   dr_success
     (fst (download_image opens_pixel_gif (GetResponse 200 (inr (gif_of_size 512)))
             "https://img.example/ct100.gif" "CT-100_1.gif" ∅))
     = false /\
   snd (download_image opens_pixel_gif (GetResponse 200 (inr (gif_of_size 512)))
          "https://img.example/ct100.gif" "CT-100_1.gif" ∅)
     !! "CT-100_1.gif" = None) /\
  (forall e : exn,
     fst (download_image opens_pixel_gif (OpenRaises (gif_of_size 512) e)
            "https://img.example/ct100.gif" "CT-100_1.gif" ∅)
       = on_exception e "https://img.example/ct100.gif" "CT-100_1.gif" /\
     dr_success
       (fst (download_image opens_pixel_gif (OpenRaises (gif_of_size 512) e)
               "https://img.example/ct100.gif" "CT-100_1.gif" ∅))
       = false /\
     snd (download_image opens_pixel_gif (OpenRaises (gif_of_size 512) e)
            "https://img.example/ct100.gif" "CT-100_1.gif" ∅) = ∅) /\
  (forall (part_number : string) (fs' : storage),
     Gather.task_step opens_pixel_gif (GetResponse 200 (inr (gif_of_size 512)))
       (part_number, "https://img.example/ct100.gif", "CT-100_1.gif")
       (Gather.Written (gif_of_size 512)) fs'
     = Some (Gather.Returned
               (Gather.stamp part_number
                  (failure "https://img.example/ct100.gif" "CT-100_1.gif"
                     "File too small or empty")),
             delete "CT-100_1.gif" fs')).
Proof.
  apply (undersized_body_rejected opens_pixel_gif). vm_compute. discriminate.
Defined.

(** C4 as stated fails: a 200 response whose body is a GIF image of 1001
    bytes (the one-pixel image and 959 bytes after its trailer), fewer than
    1024 bytes, is accepted and its file is kept. *)
Lemma body_of_1001_bytes_accepted :
  Z.of_nat (length (gif_of_size 1001)) = 1001 /\
  dr_success
    (fst (download_image opens_pixel_gif (GetResponse 200 (inr (gif_of_size 1001)))
            "https://img.example/ct100.gif" "CT-100_1.gif" ∅)) = true /\
  snd (download_image opens_pixel_gif (GetResponse 200 (inr (gif_of_size 1001)))
         "https://img.example/ct100.gif" "CT-100_1.gif" ∅)
    !! "CT-100_1.gif" = Some (Blob (gif_of_size 1001)).
Proof.
  rewrite download_image_200.
  assert (H : Z.of_nat (length (gif_of_size 1001)) = 1001) by (vm_compute; reflexivity).
  rewrite H. change (1001 >? 1000) with true.
  assert (Ho : opens_pixel_gif (gif_of_size 1001) = true) by (vm_compute; reflexivity).
  rewrite Ho.
  cbv iota. simpl. rewrite lookup_insert_eq. auto.
Qed.


End FetcherExamples.

(** ** Re-processing with an exclusion list *)

Section ReprocessFacts.
Import PyStr Scorer Selector SearchService.

Lemma mem_false_not_In (x : string) (xs : list string) :
  mem x xs = false -> ~ In x xs.
Proof.
  unfold mem. intros Hmem Hin.
  assert (existsb (String.eqb x) xs = true) as Htrue.
  { apply existsb_exists. exists x. split; [exact Hin | apply String.eqb_refl]. }
  congruence.
Qed.

Lemma select_loop_from (P : hit -> Prop) (scored : list (Z * hit)) (max_images : Z) :
  Forall (fun p => P (snd p)) scored ->
  forall selected, Forall P selected ->
                   Forall P (select_loop scored max_images selected).
Proof.
  induction 1 as [|[score img] rest Hp Hrest IH]; intros selected Hsel; simpl.
  - exact Hsel.
  - destruct (Z.of_nat (length selected) >=? max_images); [exact Hsel|].
    destruct ((score >? 10) && _); apply IH; trivial.
    apply Forall_app. split; [exact Hsel|]. constructor; [exact Hp|constructor].
Qed.

(** The selector only returns hits it was given. *)
Lemma select_best_images_from (P : hit -> Prop) (images : list hit)
    (part_number : string) (manufacturer : option string) (max_images : Z) :
  Forall P images ->
  Forall P (_select_best_images images part_number manufacturer max_images).
Proof.
  intros HP. unfold _select_best_images. apply select_loop_from.
  - apply sort_desc_forall. apply Forall_map.
    eapply List.Forall_impl; [|exact HP]. auto.
  - apply List.Forall_nil.
Qed.

(** With a non-empty exclusion list the filter drops every hit whose
    original URL or link URL is in the list. *)
Lemma filter_previous_images_excludes (images : list hit) (exclude_urls : list string) :
  exclude_urls <> [] ->
  Forall (fun img => ~ In (get_or_empty (hit_original img)) exclude_urls /\
                     ~ In (get_or_empty (hit_link img)) exclude_urls)
         (_filter_previous_images images (Some exclude_urls)).
Proof.
  intros Hne. unfold _filter_previous_images.
  destruct exclude_urls as [|u us]; [congruence|].
  apply List.Forall_forall. intros img Hin.
  apply filter_In in Hin as [_ Hkeep].
  apply andb_true_iff in Hkeep as [H1 H2].
  apply negb_true_iff in H1, H2.
  split; now apply mem_false_not_In.
Qed.

Lemma to_image_result_url_excluded (img : hit) (exclude_urls : list string) :
  ~ In (get_or_empty (hit_original img)) exclude_urls ->
  ~ In (get_or_empty (hit_link img)) exclude_urls ->
  ~ In (ir_original_url (to_image_result img)) exclude_urls.
Proof.
  unfold to_image_result. simpl. destruct (hit_original img); simpl; auto.
Qed.

Lemma mem_In (x : string) (xs : list string) : mem x xs = true <-> In x xs.
Proof.
  unfold mem. rewrite existsb_exists. split.
  - intros (y & Hin & Heq). apply String.eqb_eq in Heq. now subst.
  - intros Hin. exists x. split; [exact Hin | apply String.eqb_refl].
Qed.

Lemma unlisted_not_listed (exclude_urls : list string) (img : hit) :
  unlisted exclude_urls img = true <-> ~ listed exclude_urls img.
Proof.
  unfold unlisted, listed. split.
  - intros Hun [(u & Hu & Hin)|(u & Hu & Hin)]; rewrite Hu in Hun;
      apply mem_In in Hin; rewrite Hin in Hun;
      rewrite ?orb_true_r in Hun; discriminate.
  - intros Hnot. apply negb_true_iff, orb_false_iff.
    split.
    + destruct (hit_original img) as [u|]; [|reflexivity].
      destruct (mem u exclude_urls) eqn:Hm; [|reflexivity].
      exfalso. apply Hnot. left. exists u. split; [reflexivity|].
      now apply mem_In.
    + destruct (hit_link img) as [u|]; [|reflexivity].
      destruct (mem u exclude_urls) eqn:Hm; [|reflexivity].
      exfalso. apply Hnot. right. exists u. split; [reflexivity|].
      now apply mem_In.
Qed.

(** The filter of the code keeps only hits that are not listed, so it does
    the same to the provider's hits and to those of them that are not
    listed. *)
Lemma filter_previous_images_unlisted (images : list hit)
    (exclude_urls : list string) :
  _filter_previous_images (List.filter (unlisted exclude_urls) images)
    (Some exclude_urls)
  = _filter_previous_images images (Some exclude_urls).
Proof.
  unfold _filter_previous_images. destruct exclude_urls as [|u us].
  - induction images as [|img images IH]; [reflexivity|].
    cbn [List.filter]. unfold unlisted at 1.
    destruct (hit_original img), (hit_link img); cbn; now f_equal.
  - set (excl := u :: us).
    induction images as [|img images IH]; [reflexivity|].
    cbn [List.filter].
    destruct (unlisted excl img) eqn:Hun.
    + cbn [List.filter]. now rewrite IH.
    + rewrite IH.
      replace (negb (mem (get_or_empty (hit_original img)) excl)
               && negb (mem (get_or_empty (hit_link img)) excl)) with false;
        [reflexivity|].
      symmetry. unfold unlisted in Hun. apply negb_false_iff in Hun.
      apply orb_true_iff in Hun as [Hun|Hun].
      * destruct (hit_original img) as [x|]; [|discriminate].
        cbn [get_or_empty default]. unfold id. now rewrite Hun.
      * destruct (hit_link img) as [x|]; [|discriminate].
        cbn [get_or_empty default]. unfold id. rewrite Hun.
        apply andb_false_r.
Qed.

(** Every selected hit is one of the hits given. *)
Lemma select_best_images_In (images : list hit) (part_number : string)
    (manufacturer : option string) (max_images : Z) (img : hit) :
  In img (_select_best_images images part_number manufacturer max_images) ->
  In img images.
Proof.
  intros Hin.
  assert (H : Forall (fun h => In h images)
                (_select_best_images images part_number manufacturer max_images)).
  { apply select_best_images_from. apply List.Forall_forall. auto. }
  rewrite List.Forall_forall in H. now apply H.
Qed.

(** C9. For every re-process call with a non-empty exclusion list, no
    [ImageResult] of the returned [PartSearchResult] has an [original_url]
    in the list; every returned image is made from a hit of the provider's
    answer of which neither the original URL nor the link URL is in the
    list; and the hits of which one is in the list are dropped before
    scoring and selection: the call returns what it returns when the
    provider does not report those hits at all. *)
Theorem reprocess_never_returns_excluded
    (provider : search_params -> provider_outcome) (part_number : string)
    (manufacturer : option string) (num_results : Z) (strategy : string)
    (exclude_urls : list string) :
  exclude_urls <> [] ->
  let result := reprocess_part_images provider part_number manufacturer
                  num_results strategy (Some exclude_urls) in
  Forall (fun image => ~ In (ir_original_url image) exclude_urls)
         (psr_images result) /\
  (forall image, In image (psr_images result) ->
     exists (err : option string) (hits : list hit) (img : hit),
       provider (_get_alternative_search_params part_number manufacturer strategy)
       = ProviderDict err (Some hits) /\
       In img hits /\ ~ listed exclude_urls img /\
       image = to_image_result img) /\
  result
  = reprocess_part_images (without_listed exclude_urls provider) part_number
      manufacturer num_results strategy (Some exclude_urls).
Proof.
  intros Hne. cbv zeta. split; [|split].
  - unfold reprocess_part_images.
    destruct (provider _) as [msg|[err|] images_results]; simpl;
      try apply List.Forall_nil.
    apply Forall_map.
    eapply List.Forall_impl;
      [|apply select_best_images_from, (filter_previous_images_excludes _ _ Hne)].
    intros img [H1 H2]. now apply to_image_result_url_excluded.
  - intros image. unfold reprocess_part_images.
    destruct (provider _) as [msg|[err|] images_results] eqn:Hanswer;
      cbn [psr_images failed_search]; try (intros []).
    intros Hin. apply in_map_iff in Hin as (img & <- & Hin).
    apply select_best_images_In in Hin.
    destruct images_results as [hits|]; cbn [default] in Hin.
    + exists None, hits, img. split; [reflexivity|].
      unfold _filter_previous_images in Hin.
      destruct exclude_urls as [|u us]; [congruence|].
      apply filter_In in Hin as [Hin Hkeep]. split; [exact Hin|].
      split; [|reflexivity]. apply unlisted_not_listed.
      apply andb_true_iff in Hkeep as [H1 H2].
      apply negb_true_iff in H1, H2. unfold unlisted.
      apply negb_true_iff, orb_false_iff.
      destruct (hit_original img), (hit_link img); cbn in *; auto.
    + unfold _filter_previous_images in Hin.
      destruct exclude_urls; destruct Hin.
  - unfold reprocess_part_images, without_listed.
    destruct (provider _) as [msg|[err|] [hits|]]; try reflexivity.
    cbn [default]. unfold id. now rewrite filter_previous_images_unlisted.
Qed.

Lemma reprocess_never_returns_excluded_witness :
  let result := reprocess_part_images three_hit_provider "CT-100" None 4
                  "alternative" (Some ["https://a.example/p/1"]) in
  Forall (fun image => ~ In (ir_original_url image) ["https://a.example/p/1"])
         (psr_images result) /\
  (forall image, In image (psr_images result) ->
     exists (err : option string) (hits : list hit) (img : hit),
       three_hit_provider (_get_alternative_search_params "CT-100" None "alternative")
       = ProviderDict err (Some hits) /\
       In img hits /\ ~ listed ["https://a.example/p/1"] img /\
       image = to_image_result img) /\
  result
  = reprocess_part_images (without_listed ["https://a.example/p/1"] three_hit_provider)
      "CT-100" None 4 "alternative" (Some ["https://a.example/p/1"]).
Proof.
  apply (reprocess_never_returns_excluded three_hit_provider "CT-100" None 4
           "alternative" ["https://a.example/p/1"]).
  discriminate.
Defined.

(** The hit dropped in the witness is listed by its link URL only: the call
    returns the two other hits. *)
Lemma reprocess_drops_by_link :
  map ir_original_url
    (psr_images (reprocess_part_images three_hit_provider "CT-100" None 4
                   "alternative" (Some ["https://a.example/p/1"])))
  = ["https://b.example/ct100.png"; "https://c.example/new.jpg"] /\
  map ir_original_url
    (psr_images (reprocess_part_images three_hit_provider "CT-100" None 4
                   "alternative" None))
  = ["https://a.example/ct100.jpg"; "https://b.example/ct100.png";
     "https://c.example/new.jpg"].
Proof. split; vm_compute; reflexivity. Qed.

End ReprocessFacts.

(** ** Job tracker *)

Section TrackerFacts.
Import PyStr Fetcher Archiver Endpoints.

(** The poll of an id right after a search stored its results under it. *)
Lemma search_id_polls_entry
    (provider : SearchService.search_params -> SearchService.provider_outcome)
    (request : PartSearchRequest) (search_id : string) (download_tasks : tracker) :
  get_download_status search_id
    (snd (search_part_images provider request search_id download_tasks))
  = Ok (mkDownloadResponse search_id "completed" 0 0 [] None).
Proof.
  unfold search_part_images, get_download_status. simpl.
  rewrite lookup_insert_eq. reflexivity.
Qed.

(** C10. The id under which a search-images call stored its results answers
    a download-status poll without a not-found error: search jobs live in
    the same tracker map as download jobs, and the poll reports the status
    "completed" with [total_images = 0], [downloaded_images = 0], an empty
    result list and no archive. *)
Theorem search_id_polls_as_completed
    (provider : SearchService.search_params -> SearchService.provider_outcome)
    (request : PartSearchRequest) (search_id : string) (download_tasks : tracker) :
  get_download_status search_id
    (snd (search_part_images provider request search_id download_tasks))
  = Ok (mkDownloadResponse search_id "completed" 0 0 [] None).
Proof. apply search_id_polls_entry. Qed.

(** A poll reads nothing but the entry of its own id. *)
Lemma get_download_status_local (download_id : string) (t1 t2 : tracker) :
  t1 !! download_id = t2 !! download_id ->
  get_download_status download_id t1 = get_download_status download_id t2.
Proof. unfold get_download_status. now intros ->. Qed.

Lemma observed_started (download_id : string) (total : Z) (t : tracker) :
  observed download_id "started"
    (<[download_id := mkTask None (Some "started") (Some total) (Some 0)
                        (Some []) None None]> t).
Proof.
  unfold observed, get_download_status. rewrite lookup_insert_eq.
  eexists. split; [reflexivity|]. simpl. auto.
Qed.

Lemma count_success_filter (results : list DownloadResult) :
  Z.of_nat (length (List.filter dr_success results)) = count_success results.
Proof. reflexivity. Qed.

Variable urlparse_path : string -> option string.
Variable image_opens : list byte -> bool.

(** The final update of the background task: the job is completed, with the
    count of the results it stores, or failed. *)
Lemma run_job_final (net : nat -> get_outcome) (flt : fault)
    (download_id : string) (todo : list (string * string * string))
    (processing : tracker) (fs : storage) :
  (exists results zip,
     fst (run_job image_opens net flt download_id todo processing fs)
     = alter (set_completed (count_success results) results zip) download_id
         processing) \/
  (exists msg,
     fst (run_job image_opens net flt download_id todo processing fs)
     = alter (set_failed msg) download_id processing).
Proof.
  unfold run_job. destruct flt as [|msg|msg].
  - destruct (download_images_batch _ _ _ _ _) as [results fs'].
    destruct (List.filter dr_success results) as [|r rs] eqn:Hsucc.
    + left. exists results, None. simpl. unfold count_success. now rewrite Hsucc.
    + left. exists results. eexists.
      unfold create_zip_file, count_success. rewrite Hsucc. reflexivity.
  - right. exists msg. reflexivity.
  - destruct (download_images_batch _ _ _ _ _) as [results fs'].
    destruct (List.filter dr_success results) as [|r rs] eqn:Hsucc.
    + left. exists results, None. simpl. unfold count_success. now rewrite Hsucc.
    + right. exists msg. reflexivity.
Qed.

(** Creating and running a download job under another id leaves the entry
    of a search job as it is, so the poll of C10 also holds after them. *)
Lemma download_images_keeps_entry (request : DownloadRequest)
    (download_id other : string) (download_tasks : tracker) :
  download_id <> other ->
  snd (download_images urlparse_path request download_id download_tasks) !! other
  = download_tasks !! other.
Proof.
  intros Hne. unfold download_images.
  destruct (download_tasks !! dreq_search_id request) as [search_data|]; [|reflexivity].
  destruct (td_search_results search_data); [|reflexivity].
  simpl. now apply lookup_insert_ne.
Qed.

Lemma background_keeps_entry (net : nat -> get_outcome) (flt : fault)
    (download_id other : string) (todo : list (string * string * string))
    (download_tasks : tracker) (fs : storage) :
  download_id <> other ->
  let run := download_images_background image_opens net flt download_id todo
               download_tasks fs in
  fst (fst run) !! other = download_tasks !! other /\
  snd (fst run) !! other = download_tasks !! other.
Proof.
  intros Hne. cbv zeta. unfold download_images_background.
  destruct (download_tasks !! download_id); [|auto].
  destruct (run_job_final net flt download_id todo
              (alter set_processing download_id download_tasks) fs)
    as [(results & zip & Hfinal)|(msg & Hfinal)];
    destruct (run_job _ _ _ _ _ _ _) as [final fs']; simpl in *; subst final;
    rewrite !lookup_alter_ne by exact Hne; auto.
Qed.

Lemma search_id_polls_after_download
    (provider : SearchService.search_params -> SearchService.provider_outcome)
    (request : PartSearchRequest) (search_id download_id : string)
    (download_tasks : tracker) (net : nat -> get_outcome) (flt : fault)
    (fs : storage) :
  download_id <> search_id ->
  let stored := snd (search_part_images provider request search_id download_tasks) in
  let created := download_images urlparse_path (mkDownloadRequest search_id None)
                   download_id stored in
  let todo := match fst created with Ok (_, todo) => todo | _ => [] end in
  let run := download_images_background image_opens net flt download_id todo
               (snd created) fs in
  get_download_status search_id (snd (fst run))
  = Ok (mkDownloadResponse search_id "completed" 0 0 [] None).
Proof.
  intros Hne stored created todo run.
  rewrite <- (search_id_polls_entry provider request search_id download_tasks).
  apply get_download_status_local. subst run.
  destruct (background_keeps_entry net flt download_id search_id todo (snd created) fs Hne)
    as [_ ->].
  subst created. now rewrite download_images_keeps_entry.
Qed.

(** C6. At every point at which a download job can be observed (after its
    creation by the download-images endpoint, in status "started"; once the
    background task has set "processing"; after the final update, in status
    "completed" or "failed") its [downloaded_images] count equals the number
    of entries of its result list with [success = true]. *)
Theorem downloaded_images_counts_successes
    (net : nat -> get_outcome) (flt : fault) (request : DownloadRequest)
    (download_id : string) (download_tasks : tracker) (fs : storage)
    (response : DownloadResponse) (todo : list (string * string * string))
    (created : tracker) :
  download_images urlparse_path request download_id download_tasks
    = (Ok (response, todo), created) ->
  let run := download_images_background image_opens net flt download_id todo
               created fs in
  (resp_status response = "started" /\
   resp_downloaded_images response = count_success (resp_results response)) /\
  observed download_id "started" created /\
  observed download_id "processing" (fst (fst run)) /\
  (observed download_id "completed" (snd (fst run)) \/
   observed download_id "failed" (snd (fst run))).
Proof.
  intros Hdl run. unfold download_images in Hdl.
  destruct (download_tasks !! dreq_search_id request) as [search_data|];
    [|discriminate].
  destruct (td_search_results search_data) as [search_results|]; [|discriminate].
  injection Hdl as <- <- <-.
  set (job := mkTask None (Some "started") _ (Some 0) (Some []) None None) in *.
  split; [split; reflexivity|].
  split; [apply observed_started|].
  assert (Hproc : forall f, alter f download_id
                    (alter set_processing download_id (<[download_id := job]> download_tasks))
                    !! download_id = Some (f (set_processing job))).
  { intros f. rewrite !lookup_alter_eq, lookup_insert_eq. reflexivity. }
  assert (Hfailed : forall msg, observed download_id "failed"
            (alter (set_failed msg) download_id
               (alter set_processing download_id (<[download_id := job]> download_tasks)))).
  { intros msg. unfold observed, get_download_status. rewrite Hproc.
    eexists. split; [reflexivity|]. simpl. auto. }
  assert (Hcompleted : forall n results zip, n = count_success results ->
            observed download_id "completed"
              (alter (set_completed n results zip) download_id
                 (alter set_processing download_id
                    (<[download_id := job]> download_tasks)))).
  { intros n results zip ->. unfold observed, get_download_status. rewrite Hproc.
    eexists. split; [reflexivity|]. simpl. auto. }
  assert (Hprocessing : observed download_id "processing"
            (alter set_processing download_id (<[download_id := job]> download_tasks))).
  { unfold observed, get_download_status.
    rewrite lookup_alter_eq, lookup_insert_eq. eexists. split; [reflexivity|].
    simpl. auto. }
  subst run. unfold download_images_background. rewrite lookup_insert_eq.
  destruct (run_job_final net flt download_id
              (images_to_download urlparse_path search_results
                 (dreq_part_numbers request))
              (alter set_processing download_id (<[download_id := job]> download_tasks))
              fs) as [(results & zip & Hfinal)|(msg & Hfinal)];
    destruct (run_job _ _ _ _ _ _ _) as [final fs']; simpl in *; subst final.
  - split; [exact Hprocessing|]. left. now apply Hcompleted.
  - split; [exact Hprocessing|]. right. apply Hfailed.
Qed.

End TrackerFacts.

Section TrackerExamples.
Import PyStr Fetcher Archiver Endpoints.

Lemma demo_download_images :
  download_images simple_url_path (mkDownloadRequest "search-1" None) "download-1"
    demo_tracker
  = (Ok (mkDownloadResponse "download-1" "started" 2 0 [] None, demo_todo),
     demo_created).
Proof. vm_compute. reflexivity. Qed.

Lemma downloaded_images_counts_successes_witness :
  let run := download_images_background opens_pixel_gif always_gif NoFault
               "download-1" demo_todo demo_created ∅ in
  (resp_status (mkDownloadResponse "download-1" "started" 2 0 [] None) = "started" /\
   resp_downloaded_images (mkDownloadResponse "download-1" "started" 2 0 [] None)
   = count_success (resp_results (mkDownloadResponse "download-1" "started" 2 0 [] None))) /\
  observed "download-1" "started" demo_created /\
  observed "download-1" "processing" (fst (fst run)) /\
  (observed "download-1" "completed" (snd (fst run)) \/
   observed "download-1" "failed" (snd (fst run))).
Proof.
  apply (downloaded_images_counts_successes simple_url_path opens_pixel_gif
           always_gif NoFault (mkDownloadRequest "search-1" None) "download-1"
           demo_tracker ∅ _ demo_todo demo_created).
  vm_compute. reflexivity.
Defined.

(** Both final states occur: the demo job completes with two downloaded
    images, and fails with none when the archive writer raises. *)
Lemma demo_job_completes :
  get_download_status "download-1"
    (snd (fst (download_images_background opens_pixel_gif always_gif NoFault
                 "download-1" demo_todo demo_created ∅)))
  = Ok (mkDownloadResponse "download-1" "completed" 2 2
          [mkDownloadResult "CT-100" "https://a.example/ct100.jpg" "CT-100_1.jpg"
             true None (Some 2048);
           mkDownloadResult "CT-100" "https://b.example/ct100.png" "CT-100_2.png"
             true None (Some 2048)]
          (Some "parts_images_download-1.zip")).
Proof. vm_compute. reflexivity. Qed.

Lemma demo_job_fails :
  get_download_status "download-1"
    (snd (fst (download_images_background opens_pixel_gif always_gif
                 (ZipRaises "disk full") "download-1" demo_todo demo_created ∅)))
  = Ok (mkDownloadResponse "download-1" "failed" 2 0 [] None).
Proof. vm_compute. reflexivity. Qed.

End TrackerExamples.

(** ** Generated file names *)

Section FilenameFacts.
Import PyStr Archiver Endpoints.

Lemma has_char_app (c : ascii) (s t : string) :
  has_char c (s +:+ t) = has_char c s || has_char c t.
Proof.
  induction s as [|d s IH]; simpl; [reflexivity|].
  rewrite IH. apply orb_assoc.
Qed.

(** A string is cut in one way only at the last occurrence of a character. *)
Lemma split_at_last (c : ascii) (s s' t t' : string) :
  has_char c t = false -> has_char c t' = false ->
  s +:+ String c t = s' +:+ String c t' -> s = s' /\ t = t'.
Proof.
  intros Ht Ht'. revert s'.
  induction s as [|a s IH]; intros [|a' s'] Heq; simpl in Heq.
  - injection Heq as ->. auto.
  - injection Heq as <- ->.
    rewrite has_char_app in Ht. simpl in Ht.
    rewrite Ascii.eqb_refl, orb_true_r in Ht. discriminate.
  - injection Heq as -> <-.
    rewrite has_char_app in Ht'. simpl in Ht'.
    rewrite Ascii.eqb_refl, orb_true_r in Ht'. discriminate.
  - injection Heq as -> Heq. destruct (IH _ Heq) as [-> ->]. auto.
Qed.

(** And in one way only at its first occurrence. *)
Lemma split_at_first (c : ascii) (s s' t t' : string) :
  has_char c s = false -> has_char c s' = false ->
  s +:+ String c t = s' +:+ String c t' -> s = s' /\ t = t'.
Proof.
  revert s'. induction s as [|a s IH]; intros [|a' s'] Hs Hs' Heq; simpl in *.
  - injection Heq as ->. auto.
  - injection Heq as <- _. rewrite Ascii.eqb_refl in Hs'. discriminate.
  - injection Heq as -> _. rewrite Ascii.eqb_refl in Hs. discriminate.
  - injection Heq as -> Heq.
    apply orb_false_iff in Hs as [_ Hs]. apply orb_false_iff in Hs' as [_ Hs'].
    destruct (IH _ Hs Hs' Heq) as [-> ->]. auto.
Qed.

(** The decimal digits of a number contain no other character. *)
Lemma has_char_pretty_N_char (c : ascii) (x : N) :
  is_digit c = false -> Ascii.eqb c (pretty_N_char x) = false.
Proof.
  intros Hc. apply Ascii.eqb_neq. intros ->.
  unfold pretty_N_char in Hc. repeat case_match; discriminate.
Qed.

Lemma has_char_pretty_N_go (c : ascii) (x : N) (s : string) :
  is_digit c = false -> has_char c (pretty_N_go x s) = has_char c s.
Proof.
  intros Hc. revert s. induction (N.lt_wf_0 x) as [x _ IH]; intros s.
  destruct (decide (x = 0)%N) as [->|Hx].
  - now rewrite pretty_N_go_0.
  - rewrite pretty_N_go_step by lia. rewrite IH by (apply N.div_lt; lia).
    simpl. now rewrite has_char_pretty_N_char.
Qed.

Lemma has_char_pretty_nat (c : ascii) (n : nat) :
  is_digit c = false -> has_char c (pretty n) = false.
Proof.
  intros Hc. unfold pretty, pretty_nat, pretty, pretty_N.
  case_decide.
  - simpl. rewrite orb_false_r. apply Ascii.eqb_neq. intros ->. discriminate.
  - now rewrite has_char_pretty_N_go.
Qed.

Variable urlparse_path : string -> option string.

Lemma url_extension_allowed (url : string) :
  In (url_extension urlparse_path url) allowed_extensions.
Proof.
  unfold url_extension. destruct (urlparse_path url) as [path|]; [|now left].
  destruct (mem _ allowed_extensions) eqn:Hmem; [|now left].
  unfold mem in Hmem. apply existsb_exists in Hmem as (e & Hin & Heq).
  apply String.eqb_eq in Heq. now subst.
Qed.

(** Every allowed extension is a dot followed by letters. *)
Lemma allowed_extension_shape (e : string) :
  In e allowed_extensions ->
  exists letters, e = String "." letters /\
                  has_char "." letters = false /\ has_char "_" letters = false.
Proof.
  intros Hin. repeat (destruct Hin as [<-|Hin]; [eexists; repeat split|]).
  destruct Hin.
Qed.

(** A generated file name determines the cleaned part number and the index
    it was built from. *)
Lemma generate_filename_inj (p p' : string) (i i' : nat) (u u' : string) :
  generate_filename urlparse_path p i u = generate_filename urlparse_path p' i' u' ->
  clean_part p = clean_part p' /\ i = i'.
Proof.
  unfold generate_filename.
  destruct (allowed_extension_shape _ (url_extension_allowed u))
    as (l & -> & Hdot & Hund).
  destruct (allowed_extension_shape _ (url_extension_allowed u'))
    as (l' & -> & Hdot' & Hund').
  intros Heq. simpl in Heq.
  apply split_at_last in Heq as [Hclean Hrest].
  - split; [exact Hclean|].
    apply split_at_first in Hrest as [Hnum _];
      try (apply has_char_pretty_nat; reflexivity).
    apply (inj pretty) in Hnum. lia.
  - rewrite has_char_app, has_char_pretty_nat by reflexivity. simpl. exact Hund.
  - rewrite has_char_app, has_char_pretty_nat by reflexivity. simpl. exact Hund'.
Qed.

Lemma generate_filename_nonempty (p : string) (i : nat) (u : string) :
  generate_filename urlparse_path p i u <> "".
Proof.
  unfold generate_filename. destruct (clean_part p); simpl; discriminate.
Qed.

End FilenameFacts.

Section WorkListFacts.
Import PyStr Archiver Endpoints.
Variable urlparse_path : string -> option string.

(** The work item of the image at index [i] of a result, if it has a URL. *)
Let cell (part_number : string) (i : nat) (image : ImageResult)
    : list (string * string * string) :=
  if truthy (ir_original_url image)
  then [(part_number, ir_original_url image,
         generate_filename urlparse_path part_number i (ir_original_url image))]
  else [].

Lemma indexed_cells_distinct (part_number : string) (images : list ImageResult) :
  forall k : nat,
    let items := concat (imap (fun i image => cell part_number (k + i) image) images) in
    NoDup (map item_filename items) /\
    Forall (fun item => exists i url,
              (k <= i)%nat /\
              item_filename item = generate_filename urlparse_path part_number i url)
           items.
Proof.
  induction images as [|image images IH]; intros k; cbv zeta.
  - simpl. split; constructor.
  - rewrite imap_cons.
    rewrite (imap_ext _ (fun i image => cell part_number (S k + i) image))
      by (intros i x _; simpl; f_equal; lia).
    destruct (IH (S k)) as [Hnd Hall]. simpl concat.
    rewrite map_app. split.
    + apply NoDup_app. split; [|split; [|exact Hnd]].
      * unfold cell. destruct (truthy _); simpl; repeat constructor.
        all: rewrite list_elem_of_In; simpl; tauto.
      * intros x Hx Hx'. unfold cell in Hx.
        destruct (truthy _); simpl in Hx; [|now apply not_elem_of_nil in Hx].
        apply list_elem_of_singleton in Hx. subst x.
        apply list_elem_of_In, in_map_iff in Hx' as (item & Heq & Hin).
        rewrite List.Forall_forall in Hall.
        destruct (Hall item Hin) as (i & url & Hle & Hname).
        rewrite Hname in Heq. apply generate_filename_inj in Heq as [_ Heq]. lia.
    + apply Forall_app. split.
      * unfold cell. destruct (truthy _); repeat constructor.
        exists (k + 0)%nat, (ir_original_url image). split; [lia|reflexivity].
      * eapply List.Forall_impl; [|exact Hall].
        intros item (i & url & Hle & Hname). exists i, url. split; [lia|exact Hname].
Qed.

Lemma images_of_result_distinct (result : PartSearchResult) :
  NoDup (map item_filename (images_of_result urlparse_path result)) /\
  Forall (fun item =>
            generated_for urlparse_path (clean_part (psr_part_number result))
              (item_filename item))
         (images_of_result urlparse_path result).
Proof.
  unfold images_of_result. destruct (psr_search_success result).
  - destruct (indexed_cells_distinct (psr_part_number result) (psr_images result) 0)
      as [Hnd Hall].
    split; [exact Hnd|].
    eapply List.Forall_impl; [|exact Hall].
    intros item (i & url & _ & Hname).
    exists (psr_part_number result), i, url. split; [exact Hname|reflexivity].
  - split; constructor.
Qed.

Lemma images_of_failed_result (result : PartSearchResult) :
  psr_search_success result = false -> images_of_result urlparse_path result = [].
Proof. unfold images_of_result. now intros ->. Qed.

Lemma flat_map_filter_nil {A B : Type} (f : A -> list B) (p : A -> bool)
    (l : list A) :
  (forall x, p x = false -> f x = []) ->
  flat_map f (List.filter p l) = flat_map f l.
Proof.
  intros Hnil. induction l as [|x l IH]; simpl; [reflexivity|].
  destruct (p x) eqn:Hp; simpl; rewrite IH; [reflexivity|].
  now rewrite (Hnil x Hp).
Qed.

Lemma images_to_download_contributing (search_results : list PartSearchResult)
    (part_numbers : option (list string)) :
  images_to_download urlparse_path search_results part_numbers =
  flat_map (images_of_result urlparse_path) (contributing search_results part_numbers).
Proof.
  unfold images_to_download, contributing. symmetry.
  apply flat_map_filter_nil, images_of_failed_result.
Qed.

Lemma generated_for_functional (key key' filename : string) :
  generated_for urlparse_path key filename ->
  generated_for urlparse_path key' filename -> key = key'.
Proof.
  intros (p & i & u & -> & <-) (p' & i' & u' & Heq & <-).
  now apply generate_filename_inj in Heq as [-> _].
Qed.

Lemma work_items_distinct (results : list PartSearchResult) :
  NoDup (map (fun r => clean_part (psr_part_number r)) results) ->
  NoDup (map item_filename (flat_map (images_of_result urlparse_path) results)).
Proof.
  induction results as [|r results IH]; simpl; intros Hnd; [constructor|].
  apply NoDup_cons in Hnd as [Hfresh Hnd].
  rewrite map_app. apply NoDup_app.
  destruct (images_of_result_distinct r) as [Hr Hown].
  split; [exact Hr|]. split; [|now apply IH].
  intros x Hx Hx'. apply Hfresh.
  apply list_elem_of_In, in_map_iff in Hx as (item & <- & Hitem).
  apply list_elem_of_In, in_map_iff in Hx' as (item' & Heq & Hitem').
  apply in_flat_map in Hitem' as (r' & Hr' & Hitem').
  rewrite List.Forall_forall in Hown. specialize (Hown item Hitem).
  destruct (images_of_result_distinct r') as [_ Hown'].
  rewrite List.Forall_forall in Hown'. specialize (Hown' item' Hitem').
  rewrite Heq in Hown'.
  rewrite (generated_for_functional _ _ _ Hown Hown').
  apply list_elem_of_In, in_map_iff. exists r'. auto.
Qed.

(** The work list of the endpoint has pairwise distinct filenames when the
    contributing part numbers are pairwise distinct after cleaning. *)
Lemma work_list_filenames_distinct (search_results : list PartSearchResult)
    (part_numbers : option (list string)) :
  NoDup (map (fun r => clean_part (psr_part_number r))
             (contributing search_results part_numbers)) ->
  NoDup (map item_filename
             (images_to_download urlparse_path search_results part_numbers)).
Proof.
  intros Hnd. rewrite images_to_download_contributing.
  now apply work_items_distinct.
Qed.

End WorkListFacts.

(** ** Batch orchestrator *)

Section BatchFacts.
Import PyStr Fetcher Archiver Endpoints.
Variable image_opens : list byte -> bool.

Lemma download_image_names (reply : get_outcome) (url filename : string)
    (fs : storage) :
  dr_image_url (fst (download_image image_opens reply url filename fs)) = url /\
  dr_filename (fst (download_image image_opens reply url filename fs)) = filename.
Proof.
  unfold download_image.
  destruct reply as [[|msg]|status [[|msg]|content]|content [|msg]]; simpl; auto;
    repeat match goal with
           | |- context [if ?c then _ else _] => destruct c
           end; simpl; auto.
Qed.

Lemma download_with_semaphore_fst (reply : get_outcome)
    (part_number url filename : string) (fs : storage) :
  let result := fst (download_with_semaphore image_opens reply part_number url
                       filename fs) in
  dr_part_number result = part_number /\ dr_image_url result = url /\
  dr_filename result = filename /\
  dr_success result
  = dr_success (fst (download_image image_opens reply url filename fs)).
Proof.
  unfold download_with_semaphore.
  pose proof (download_image_names reply url filename fs) as [H1 H2].
  destruct (download_image image_opens reply url filename fs) as [result fs'].
  simpl in *. auto.
Qed.

Lemma download_with_semaphore_snd (reply : get_outcome)
    (part_number url filename : string) (fs : storage) :
  snd (download_with_semaphore image_opens reply part_number url filename fs)
  = snd (download_image image_opens reply url filename fs).
Proof.
  unfold download_with_semaphore.
  destruct (download_image image_opens reply url filename fs); reflexivity.
Qed.

Lemma download_images_batch_cons (net : nat -> get_outcome) (i : nat)
    (part_num url filename : string) (rest : list (string * string * string))
    (fs : storage) :
  download_images_batch image_opens net i ((part_num, url, filename) :: rest) fs =
  let first := download_with_semaphore image_opens (net i) part_num url filename fs in
  let others := download_images_batch image_opens net (S i) rest (snd first) in
  (fst first :: fst others, snd others).
Proof.
  simpl. destruct (download_with_semaphore _ _ _ _ _ _) as [r fs1]. simpl.
  destruct (download_images_batch _ _ _ _ _) as [rs fs2]. reflexivity.
Qed.

(** One result per work item, in submission order, with the item's part
    number, URL and filename. *)
Lemma batch_results_shape (net : nat -> get_outcome)
    (todo : list (string * string * string)) :
  forall (i : nat) (fs : storage),
    map (fun r => (dr_part_number r, dr_image_url r, dr_filename r))
        (fst (download_images_batch image_opens net i todo fs)) = todo.
Proof.
  induction todo as [|[[p u] f] todo IH]; intros i fs; [reflexivity|].
  rewrite download_images_batch_cons. cbv zeta. simpl. rewrite IH.
  destruct (download_with_semaphore_fst (net i) p u f fs) as (-> & -> & -> & _).
  reflexivity.
Qed.

Lemma batch_filenames (net : nat -> get_outcome)
    (todo : list (string * string * string)) (i : nat) (fs : storage) :
  map dr_filename (fst (download_images_batch image_opens net i todo fs))
  = map item_filename todo.
Proof.
  rewrite <- (batch_results_shape net todo i fs) at 2.
  rewrite map_map. reflexivity.
Qed.

(** The batch touches no file but those of its work items. *)
Lemma batch_other_files (net : nat -> get_outcome)
    (todo : list (string * string * string)) (other : string) :
  ~ In other (map item_filename todo) ->
  forall (i : nat) (fs : storage),
    snd (download_images_batch image_opens net i todo fs) !! other = fs !! other.
Proof.
  induction todo as [|[[p u] f] todo IH]; intros Hnot i fs; [reflexivity|].
  rewrite download_images_batch_cons. cbv zeta. simpl in *.
  rewrite IH by tauto. rewrite download_with_semaphore_snd.
  apply download_image_other_files. unfold item_filename in Hnot. simpl in Hnot.
  intros ->. tauto.
Qed.


End BatchFacts.

(** ** The event loop on a chunk *)

Section GatherFacts.
Import PyStr Fetcher Gather.
Variable image_opens : list byte -> bool.
Variable max_concurrent : nat.
Variable net : nat -> get_outcome.

Lemma semaphore_stamps (reply : get_outcome) (p u f : string) (fs : storage) :
  download_with_semaphore image_opens reply p u f fs
  = (stamp p (fst (download_image image_opens reply u f fs)),
     snd (download_image image_opens reply u f fs)).
Proof.
  unfold download_with_semaphore.
  now destruct (download_image image_opens reply u f fs).
Qed.

(** The result of a fetch run alone does not depend on the storage. *)
Lemma download_image_result_indep (reply : get_outcome) (u f : string)
    (fs fs' : storage) :
  fst (download_image image_opens reply u f fs)
  = fst (download_image image_opens reply u f fs').
Proof.
  destruct reply as [e|status [e|content]|content e]; try reflexivity.
  - unfold download_image. destruct (status =? 200); reflexivity.
  - destruct (Z.eq_dec status 200) as [->|Hne].
    + rewrite !download_image_200.
      destruct (_ >? _); [destruct (image_opens content)|]; reflexivity.
    + unfold download_image. replace (status =? 200) with false by lia.
      reflexivity.
Qed.

(** What it leaves under its own file name depends on what was there. *)
Lemma download_image_own_file (reply : get_outcome) (u f : string)
    (fs fs' : storage) :
  fs !! f = fs' !! f ->
  snd (download_image image_opens reply u f fs) !! f
  = snd (download_image image_opens reply u f fs') !! f.
Proof.
  intros Hf.
  destruct reply as [e|status [e|content]|content e]; try exact Hf.
  - unfold download_image. destruct (status =? 200); exact Hf.
  - destruct (Z.eq_dec status 200) as [->|Hne].
    + rewrite !download_image_200.
      destruct (_ >? _); [destruct (image_opens content)|]; simpl;
        now rewrite ?lookup_delete_eq, ?lookup_insert_eq.
    + unfold download_image. replace (status =? 200) with false by lia.
      exact Hf.
Qed.

Lemma task_step_frame (reply : get_outcome) (p u f : string)
    (st st' : task_state) (fs fs' : storage) (k : string) :
  task_step image_opens reply (p, u, f) st fs = Some (st', fs') ->
  k <> f -> fs' !! k = fs !! k.
Proof.
  intros Hstep Hk. unfold task_step in Hstep.
  destruct st as [|c|c|r]; [| | |discriminate].
  - destruct reply as [e|status [e|content]|content e];
      try (injection Hstep as <- <-; reflexivity).
    + destruct (status =? 200); injection Hstep as <- <-; reflexivity.
    + destruct (status =? 200); injection Hstep as <- <-; [|reflexivity].
      now apply lookup_insert_ne.
  - injection Hstep as <- <-. now apply lookup_insert_ne.
  - repeat match type of Hstep with
           | (if ?c then _ else _) = _ => destruct c
           end;
      injection Hstep as <- <-; trivial; now apply lookup_delete_ne.
Qed.

Lemma task_step_ok (reply : get_outcome) (p u f : string)
    (st st' : task_state) (fs0 fs fs' : storage) :
  task_ok image_opens reply (p, u, f) fs0 fs st ->
  task_step image_opens reply (p, u, f) st fs = Some (st', fs') ->
  task_ok image_opens reply (p, u, f) fs0 fs' st'.
Proof.
  unfold task_ok, task_step. rewrite semaphore_stamps. cbn [fst snd].
  destruct st as [|c|c|r]; [| | |discriminate].
  - intros Hf.
    destruct reply as [e|status [e|content]|content e].
    + intros [= <- <-]. split; [reflexivity | exact Hf].
    + destruct (Z.eq_dec status 200) as [->|Hne].
      * intros [= <- <-]. split; [reflexivity | exact Hf].
      * replace (status =? 200) with false by lia.
        intros [= <- <-]. unfold download_image.
        replace (status =? 200) with false by lia. split; [reflexivity|exact Hf].
    + destruct (Z.eq_dec status 200) as [->|Hne].
      * intros [= <- <-]. split; [reflexivity | apply lookup_insert_eq].
      * replace (status =? 200) with false by lia.
        intros [= <- <-]. unfold download_image.
        replace (status =? 200) with false by lia. split; [reflexivity|exact Hf].
    + intros [= <- <-]. split; [reflexivity | exact Hf].
  - intros [-> _] [= <- <-]. split; [reflexivity | apply lookup_insert_eq].
  - intros [-> Hf]. rewrite Hf, download_image_200.
    rewrite bool_decide_eq_true_2 by eauto. cbn [andb opens_as_image].
    destruct (Z.of_nat (length c) >? 1000); [destruct (image_opens c)|];
      intros [= <- <-]; cbn [fst snd];
      rewrite ?lookup_delete_eq, ?lookup_insert_eq; split; trivial.
Qed.

Lemma task_ok_frame (reply : get_outcome) (p u f : string) (st : task_state)
    (fs0 fs fs' : storage) :
  fs' !! f = fs !! f ->
  task_ok image_opens reply (p, u, f) fs0 fs st ->
  task_ok image_opens reply (p, u, f) fs0 fs' st.
Proof. unfold task_ok. intros ->. trivial. Qed.

Lemma lookup_filename (chunk : list (string * string * string)) (i : nat)
    (item : string * string * string) :
  chunk !! i = Some item -> In (item_filename item) (map item_filename chunk).
Proof.
  intros H. apply in_map, list_elem_of_In. now apply list_elem_of_lookup_2 in H.
Qed.

Lemma distinct_filenames (chunk : list (string * string * string)) (i j : nat)
    (a b : string * string * string) :
  NoDup (map item_filename chunk) ->
  chunk !! i = Some a -> chunk !! j = Some b -> i <> j ->
  item_filename a <> item_filename b.
Proof.
  revert i j. induction chunk as [|x chunk IH]; intros i j Hnd Hi Hj Hij;
    [discriminate|].
  cbn [map] in Hnd. apply NoDup_cons in Hnd as [Hx Hnd].
  destruct i as [|i], j as [|j]; cbn in Hi, Hj.
  - contradiction.
  - injection Hi as <-. intros Heq. apply Hx. rewrite Heq.
    apply list_elem_of_In. now apply (lookup_filename chunk j).
  - injection Hj as <-. intros Heq. apply Hx. rewrite <- Heq.
    apply list_elem_of_In. now apply (lookup_filename chunk i).
  - apply (IH i j); trivial. congruence.
Qed.

(** A step of the event loop keeps every task in step with the fetch it
    runs, as long as no two tasks of the chunk share a file name. *)
Lemma step_ok (first : nat) (chunk : list (string * string * string))
    (fs0 : storage) (cfg cfg' : list task_state * storage) :
  NoDup (map item_filename chunk) ->
  chunk_ok image_opens net first chunk fs0 cfg ->
  step image_opens max_concurrent net first chunk cfg cfg' ->
  chunk_ok image_opens net first chunk fs0 cfg'.
Proof.
  intros Hnd (Hlen & Hframe & Htasks) Hstep.
  destruct Hstep as [i [[p u] f] st st' tasks fs fs' Hitem Hst _ Hstep].
  unfold chunk_ok. cbn [fst snd] in *. split; [|split].
  - now rewrite length_insert.
  - intros k Hk. rewrite <- (Hframe k Hk).
    apply (task_step_frame _ _ _ _ _ _ _ _ _ Hstep).
    intros ->. apply Hk. apply (lookup_filename chunk i (p, u, f) Hitem).
  - intros j [[pj uj] fj] stj Hj Hstj.
    destruct (decide (j = i)) as [->|Hne].
    + rewrite Hitem in Hj. injection Hj as <- <- <-.
      rewrite list_lookup_insert_eq in Hstj
        by (apply lookup_lt_Some in Hst; exact Hst).
      injection Hstj as <-.
      apply (task_step_ok _ _ _ _ st _ _ fs); [|exact Hstep].
      now apply (Htasks i (p, u, f)).
    + rewrite list_lookup_insert_ne in Hstj by congruence.
      apply (task_ok_frame _ _ _ _ _ _ fs); [|now apply (Htasks j)].
      apply (task_step_frame _ _ _ _ _ _ _ _ _ Hstep).
      apply (distinct_filenames chunk j i (pj, uj, fj) (p, u, f)); trivial.
Qed.

Lemma batch_results_lookup (chunk : list (string * string * string)) :
  forall (first i : nat) (p u f : string) (fs fs0 : storage),
    chunk !! i = Some (p, u, f) ->
    fst (download_images_batch image_opens net first chunk fs) !! i
    = Some (fst (download_with_semaphore image_opens (net (first + i)%nat)
                   p u f fs0)).
Proof.
  induction chunk as [|[[q v] g] chunk IH]; intros first i p u f fs fs0 Hi;
    [discriminate|].
  rewrite download_images_batch_cons. cbv zeta. cbn [fst].
  rewrite lookup_cons. rewrite lookup_cons in Hi.
  destruct i as [|i].
  - injection Hi as -> -> ->. rewrite Nat.add_0_r. f_equal.
    rewrite !semaphore_stamps. cbn [fst]. f_equal.
    apply download_image_result_indep.
  - replace (first + S i)%nat with (S first + i)%nat by lia.
    apply (IH (S first) i p u f _ fs0 Hi).
Qed.

Lemma batch_own_file (chunk : list (string * string * string)) :
  NoDup (map item_filename chunk) ->
  forall (first i : nat) (p u f : string) (fs : storage),
    chunk !! i = Some (p, u, f) ->
    snd (download_images_batch image_opens net first chunk fs) !! f
    = snd (download_with_semaphore image_opens (net (first + i)%nat) p u f fs)
        !! f.
Proof.
  induction chunk as [|[[q v] g] chunk IH]; intros Hnd first i p u f fs Hi;
    [discriminate|].
  cbn [map] in Hnd. apply NoDup_cons in Hnd as [Hg Hnd].
  rewrite download_images_batch_cons. cbv zeta. cbn [snd].
  rewrite lookup_cons in Hi.
  destruct i as [|i].
  - injection Hi as -> -> ->. rewrite Nat.add_0_r.
    apply batch_other_files. now rewrite <- list_elem_of_In.
  - rewrite (IH Hnd (S first) i p u f _ Hi).
    replace (S first + i)%nat with (first + S i)%nat by lia.
    rewrite !semaphore_stamps. cbn [snd].
    apply download_image_own_file.
    apply download_image_other_files.
    intros ->. apply Hg. apply list_elem_of_In.
    apply (lookup_filename chunk i (p, u, g) Hi).
Qed.

(** Whatever the order in which the event loop steps the tasks of a chunk
    whose file names are pairwise distinct, the chunk ends with the results
    and the download directory of the run in submission order. *)
Lemma gathered_sequential (first : nat) (chunk : list (string * string * string))
    (fs : storage) (results : list DownloadResult) (fs' : storage) :
  NoDup (map item_filename chunk) ->
  gathered image_opens max_concurrent net first chunk fs results fs' ->
  results = fst (download_images_batch image_opens net first chunk fs) /\
  fs' = snd (download_images_batch image_opens net first chunk fs).
Proof.
  intros Hnd Hrun. unfold gathered in Hrun.
  assert (Hok : chunk_ok image_opens net first chunk fs (map Returned results, fs')).
  { eapply (rtc_ind_r
              (fun cfg => chunk_ok image_opens net first chunk fs cfg)); [| |exact Hrun].
    - split; [apply length_replicate|]. split; [reflexivity|].
      intros i [[p u] f] st _ Hst. cbn [fst snd] in *.
      apply lookup_replicate in Hst as [-> _]. reflexivity.
    - intros cfg cfg' _ Hstep IH. now apply (step_ok first chunk fs cfg cfg'). }
  destruct Hok as (Hlen & Hframe & Htasks). cbn [fst snd] in *.
  rewrite length_map in Hlen. split.
  - apply list_eq. intros i.
    destruct (chunk !! i) as [[[p u] f]|] eqn:Hi.
    + rewrite (batch_results_lookup chunk first i p u f fs fs Hi).
      destruct (results !! i) as [r|] eqn:Hr.
      * specialize (Htasks i (p, u, f) (Returned r) Hi).
        rewrite list_lookup_fmap, Hr in Htasks.
        destruct (Htasks eq_refl) as [-> _]. reflexivity.
      * apply lookup_ge_None in Hr. apply lookup_lt_Some in Hi. lia.
    + apply lookup_ge_None in Hi.
      rewrite !(proj2 (lookup_ge_None _ _)); trivial; [|lia].
      pose proof (batch_results_shape image_opens net chunk first fs) as Hshape.
      apply (f_equal (@length _)) in Hshape. rewrite length_map in Hshape. lia.
  - apply map_eq. intros k.
    destruct (in_dec string_dec k (map item_filename chunk)) as [Hin|Hnot].
    + apply in_map_iff in Hin as ([[p u] f] & <- & Hin).
      apply list_elem_of_In, list_elem_of_lookup in Hin as [i Hi].
      unfold item_filename. cbn [snd].
      rewrite (batch_own_file chunk Hnd first i p u f fs Hi).
      assert (Hr : is_Some (results !! i)).
      { apply lookup_lt_is_Some. apply lookup_lt_Some in Hi. lia. }
      destruct Hr as [r Hr].
      specialize (Htasks i (p, u, f) (Returned r) Hi).
      rewrite list_lookup_fmap, Hr in Htasks.
      now destruct (Htasks eq_refl) as [_ ->].
    + rewrite (Hframe k Hnot). symmetry.
      now apply batch_other_files.
Qed.

(** A task that is stepped without another one in between does what
    [download_with_semaphore] does. *)
Lemma task_runs_alone (first : nat) (chunk : list (string * string * string))
    (i : nat) (p u f : string) (tasks : list task_state) (fs : storage) :
  (0 < max_concurrent)%nat ->
  chunk !! i = Some (p, u, f) ->
  tasks !! i = Some Waiting ->
  List.filter running tasks = [] ->
  rtc (step image_opens max_concurrent net first chunk) (tasks, fs)
      (<[i := Returned (fst (download_with_semaphore image_opens
                               (net (first + i)%nat) p u f fs))]> tasks,
       snd (download_with_semaphore image_opens (net (first + i)%nat) p u f fs)).
Proof.
  intros Hmax Hitem Hst Hidle. rewrite semaphore_stamps. cbn [fst snd].
  assert (Hfree : Waiting = Waiting ->
                  (length (List.filter running tasks) < max_concurrent)%nat)
    by (intros _; now rewrite Hidle).
  assert (Hi : (i < length tasks)%nat) by now apply lookup_lt_Some in Hst.
  assert (Hone : forall r,
            task_step image_opens (net (first + i)%nat) (p, u, f) Waiting fs
            = Some (Returned (stamp p r), fs) ->
            rtc (step image_opens max_concurrent net first chunk) (tasks, fs)
                (<[i := Returned (stamp p r)]> tasks, fs)).
  { intros r Hstep. apply rtc_once.
    exact (step_task image_opens max_concurrent net first chunk i (p, u, f)
             Waiting _ tasks fs fs Hitem Hst Hfree Hstep). }
  destruct (net (first + i)%nat) as [e|status [e|content]|content e] eqn:Hreply.
  - apply Hone. reflexivity.
  - destruct (Z.eq_dec status 200) as [->|Hne].
    + apply Hone. reflexivity.
    + unfold download_image. replace (status =? 200) with false by lia.
      cbn [fst snd]. apply Hone. cbn [task_step].
      now replace (status =? 200) with false by lia.
  - destruct (Z.eq_dec status 200) as [->|Hne].
    + eapply rtc_l.
      { apply (step_task image_opens max_concurrent net first chunk i (p, u, f)
                 Waiting (Opened content) tasks fs (<[f := Blob []]> fs)
                 Hitem Hst Hfree).
        rewrite Hreply. reflexivity. }
      eapply rtc_l.
      { apply (step_task image_opens max_concurrent net first chunk i (p, u, f)
                 (Opened content) (Written content) (<[i := Opened content]> tasks)
                 (<[f := Blob []]> fs)
                 (<[f := Blob content]> (<[f := Blob []]> fs)) Hitem).
        - now apply list_lookup_insert_eq.
        - discriminate.
        - reflexivity. }
      rewrite list_insert_insert_eq, insert_insert_eq.
      rewrite download_image_200.
      replace (<[i := Returned _]> tasks)
        with (<[i := Returned (stamp p (fst
                (if Z.of_nat (length content) >? 1000
                 then if image_opens content
                      then (mkDownloadResult "" u f true None
                              (Some (Z.of_nat (length content))),
                            <[f := Blob content]> fs)
                      else (failure u f "Invalid image format",
                            delete f (<[f := Blob content]> fs))
                 else (failure u f "File too small or empty",
                       delete f (<[f := Blob content]> fs)))))]>
                (<[i := Written content]> tasks))
        by now rewrite list_insert_insert_eq.
      apply rtc_once.
      apply (step_task image_opens max_concurrent net first chunk i (p, u, f)
               (Written content) _ (<[i := Written content]> tasks)
               (<[f := Blob content]> fs) _ Hitem).
      * now apply list_lookup_insert_eq.
      * discriminate.
      * cbn [task_step]. rewrite lookup_insert_eq.
        rewrite bool_decide_eq_true_2 by eauto. cbn [andb opens_as_image].
        destruct (Z.of_nat (length content) >? 1000);
          [destruct (image_opens content)|]; reflexivity.
    + unfold download_image. replace (status =? 200) with false by lia.
      cbn [fst snd]. apply Hone. cbn [task_step].
      now replace (status =? 200) with false by lia.
  - apply Hone. reflexivity.
Qed.

Lemma filter_running_idle (done : list DownloadResult) (n : nat) :
  List.filter running (map Returned done ++ replicate n Waiting)%list = [].
Proof.
  induction done as [|r done IH]; cbn; [|exact IH].
  induction n as [|n IHn]; [reflexivity | exact IHn].
Qed.

Lemma batch_snoc_tasks (done : list DownloadResult) (r : DownloadResult) (n : nat) :
  <[length done := Returned r]> (map Returned done ++ replicate (S n) Waiting)%list
  = (map Returned (done ++ [r]) ++ replicate n Waiting)%list.
Proof.
  induction done as [|d done IH]; [reflexivity|].
  cbn. f_equal. exact IH.
Qed.

Lemma sequential_from (first : nat) (chunk : list (string * string * string)) :
  (0 < max_concurrent)%nat ->
  forall (rest taken : list (string * string * string))
         (done : list DownloadResult) (fs : storage),
    chunk = (taken ++ rest)%list -> length done = length taken ->
    rtc (step image_opens max_concurrent net first chunk)
        ((map Returned done ++ replicate (length rest) Waiting)%list, fs)
        (map Returned
           (done ++ fst (download_images_batch image_opens net
                           (first + length taken) rest fs)),
         snd (download_images_batch image_opens net (first + length taken)
                rest fs)).
Proof.
  intros Hmax rest.
  induction rest as [|[[p u] f] rest IH]; intros taken done fs Hchunk Hlen.
  - cbn. rewrite !app_nil_r. apply rtc_refl.
  - rewrite download_images_batch_cons. cbv zeta. cbn [fst snd length].
    eapply rtc_trans.
    + apply (task_runs_alone first chunk (length taken) p u f _ fs Hmax).
      * rewrite Hchunk. rewrite lookup_app_r by lia.
        now rewrite Nat.sub_diag.
      * rewrite lookup_app_r by (rewrite length_map; lia).
        rewrite length_map, Hlen, Nat.sub_diag. reflexivity.
      * apply filter_running_idle.
    + rewrite <- Hlen, batch_snoc_tasks.
      specialize (IH (taken ++ [(p, u, f)])%list
                    (done ++ [fst (download_with_semaphore image_opens
                                     (net (first + length done)%nat) p u f fs)])%list
                    (snd (download_with_semaphore image_opens
                            (net (first + length done)%nat) p u f fs))).
      rewrite !length_app in IH. cbn [length] in IH.
      replace (first + (length taken + 1))%nat with (S (first + length done))
        in IH by lia.
      rewrite <- !app_assoc in IH. cbn [app] in IH.
      apply IH; [exact Hchunk | lia].
Qed.

(** The run in submission order is one of the runs of the event loop. *)
Lemma gathered_in_order (first : nat) (chunk : list (string * string * string))
    (fs : storage) :
  (0 < max_concurrent)%nat ->
  gathered image_opens max_concurrent net first chunk fs
    (fst (download_images_batch image_opens net first chunk fs))
    (snd (download_images_batch image_opens net first chunk fs)).
Proof.
  intros Hmax. unfold gathered.
  pose proof (sequential_from first chunk Hmax chunk [] [] fs eq_refl eq_refl)
    as H.
  cbn [length map app] in H. now rewrite Nat.add_0_r in H.
Qed.

Lemma download_images_batch_app (a b : list (string * string * string)) :
  forall (i : nat) (fs : storage),
    download_images_batch image_opens net i (a ++ b) fs
    = (fst (download_images_batch image_opens net i a fs)
         ++ fst (download_images_batch image_opens net (i + length a) b
                   (snd (download_images_batch image_opens net i a fs))),
       snd (download_images_batch image_opens net (i + length a) b
              (snd (download_images_batch image_opens net i a fs))))%list.
Proof.
  induction a as [|[[p u] f] a IH]; intros i fs.
  - cbn [app length]. rewrite Nat.add_0_r. cbn.
    now destruct (download_images_batch image_opens net i b fs).
  - cbn [app length]. rewrite !download_images_batch_cons. cbv zeta.
    cbn [fst snd]. rewrite IH. cbn [fst snd].
    now replace (S i + length a)%nat with (i + S (length a))%nat by lia.
Qed.

Lemma download_images_batch_chunks (l : list (string * string * string))
    (i : nat) (fs : storage) :
  download_images_batch image_opens net i l fs
  = (fst (download_images_batch image_opens net i (take 10 l) fs)
       ++ fst (download_images_batch image_opens net (i + 10) (drop 10 l)
                 (snd (download_images_batch image_opens net i (take 10 l) fs))),
     snd (download_images_batch image_opens net (i + 10) (drop 10 l)
            (snd (download_images_batch image_opens net i (take 10 l) fs))))%list.
Proof.
  rewrite <- (take_drop 10 l) at 1. rewrite download_images_batch_app.
  destruct (le_lt_dec (length l) 10) as [Hshort|Hlong].
  - rewrite (drop_ge l 10 Hshort). reflexivity.
  - rewrite length_take, Nat.min_l by lia. reflexivity.
Qed.

(** Whatever the order in which the event loop steps the tasks of each
    chunk, a batch whose chunks of ten each have pairwise distinct file
    names ends with the results and the download directory of the run in
    submission order. *)
Lemma batch_runs_sequential (todo : list (string * string * string)) (i : nat)
    (fs : storage) (results : list DownloadResult) (fs' : storage) :
  chunks_distinct todo ->
  batch_runs image_opens max_concurrent net i todo fs results fs' ->
  results = fst (download_images_batch image_opens net i todo fs) /\
  fs' = snd (download_images_batch image_opens net i todo fs).
Proof.
  intros Hdistinct Hrun.
  induction Hrun as [i fs|i item rest fs fs1 fs2 results results' Hchunk Hrest IH].
  - split; reflexivity.
  - inversion Hdistinct as [|item' rest' Hnd Hmore]; subst.
    destruct (gathered_sequential i _ fs results fs1 Hnd Hchunk) as [-> ->].
    destruct (IH Hmore) as [-> ->].
    rewrite (download_images_batch_chunks (item :: rest) i fs). split; reflexivity.
Qed.

(** And the run in submission order is one of its runs. *)
Lemma batch_runs_in_order (todo : list (string * string * string)) :
  (0 < max_concurrent)%nat ->
  forall (i : nat) (fs : storage),
    batch_runs image_opens max_concurrent net i todo fs
      (fst (download_images_batch image_opens net i todo fs))
      (snd (download_images_batch image_opens net i todo fs)).
Proof.
  intros Hmax.
  induction todo as [todo IH]
    using (induction_ltof1 _ (@length (string * string * string))).
  intros i fs. destruct todo as [|item rest]; [constructor|].
  rewrite (download_images_batch_chunks (item :: rest) i fs). cbn [fst snd].
  eapply batch_runs_chunk.
  - now apply gathered_in_order.
  - apply IH. unfold ltof. rewrite length_drop. cbn [length]. lia.
Qed.

End GatherFacts.

Section GatherTheorem.
Import PyStr Fetcher Gather.
Variable image_opens : list byte -> bool.

(** X29. The order in which the event loop runs the fetches of a batch
    does not matter when the chunks of ten of the work list each have
    pairwise distinct file names: every run of the batch, whatever the
    interleaving of its fetches and the width of the semaphore, ends with
    the results and the download directory of the run in submission order;
    and that run is one of the runs, for a semaphore of width one or
    more. *)
Theorem every_schedule_ends_alike (max_concurrent : nat)
    (net : nat -> get_outcome) (todo : list (string * string * string))
    (fs : storage) :
  chunks_distinct todo ->
  (forall (results : list DownloadResult) (fs' : storage),
     batch_runs image_opens max_concurrent net 0 todo fs results fs' ->
     results = fst (download_images_batch image_opens net 0 todo fs) /\
     fs' = snd (download_images_batch image_opens net 0 todo fs)) /\
  ((0 < max_concurrent)%nat ->
   batch_runs image_opens max_concurrent net 0 todo fs
     (fst (download_images_batch image_opens net 0 todo fs))
     (snd (download_images_batch image_opens net 0 todo fs))).
Proof.
  intros Hdistinct. split.
  - intros results fs'. now apply batch_runs_sequential.
  - intros Hmax. now apply batch_runs_in_order.
Qed.

End GatherTheorem.

(** ** Archiver *)

Section GroupingFacts.
Import PyStr Archiver.

Lemma mem_true_iff (x : string) (xs : list string) : mem x xs = true <-> In x xs.
Proof.
  unfold mem. rewrite existsb_exists. split.
  - intros (y & Hin & Heq). apply String.eqb_eq in Heq. now subst.
  - intros Hin. exists x. split; [exact Hin | apply String.eqb_refl].
Qed.

Lemma owners_snoc (l : list DownloadResult) (r : DownloadResult) :
  owners (l ++ [r]) =
  if mem (dr_part_number r) (owners l) then owners l
  else (owners l ++ [dr_part_number r])%list.
Proof. unfold owners. now rewrite fold_left_app. Qed.

Lemma owners_NoDup (l : list DownloadResult) : NoDup (owners l).
Proof.
  induction l as [|r l IH] using rev_ind; [constructor|].
  rewrite owners_snoc. destruct (mem _ _) eqn:Hmem; [exact IH|].
  apply NoDup_app. split; [exact IH|]. split; [|repeat constructor].
  - intros x Hx Hx'. apply list_elem_of_singleton in Hx'. subst x.
    apply list_elem_of_In, mem_true_iff in Hx. congruence.
  - apply not_elem_of_nil.
Qed.

Lemma owners_complete (l : list DownloadResult) (r : DownloadResult) :
  In r l -> In (dr_part_number r) (owners l).
Proof.
  induction l as [|r' l IH] using rev_ind; [intros []|].
  intros Hin. rewrite owners_snoc. apply in_app_or in Hin as [Hin|[->|[]]].
  - specialize (IH Hin). destruct (mem _ _); [exact IH|].
    apply in_or_app. now left.
  - destruct (mem _ _) eqn:Hmem; [now apply mem_true_iff|].
    apply in_or_app. right. now left.
Qed.

Lemma owned_by_snoc (owner : string) (l : list DownloadResult) (r : DownloadResult) :
  owned_by owner (l ++ [r]) =
  if String.eqb (dr_part_number r) owner then (owned_by owner l ++ [r])%list
  else owned_by owner l.
Proof.
  unfold owned_by. rewrite List.filter_app. simpl.
  destruct (String.eqb _ _); [reflexivity | apply app_nil_r].
Qed.

Lemma owned_by_stranger (owner : string) (l : list DownloadResult) :
  ~ In owner (owners l) -> owned_by owner l = [].
Proof.
  intros Hnot. unfold owned_by.
  destruct (List.filter _ l) as [|r rs] eqn:Hf; [reflexivity|]. exfalso.
  assert (Hin : In r (List.filter (fun r => String.eqb (dr_part_number r) owner) l))
    by (rewrite Hf; now left).
  apply filter_In in Hin as [Hin Heq]. apply String.eqb_eq in Heq. subst owner.
  apply Hnot. now apply owners_complete.
Qed.

(** Adding a result to groups keyed by distinct owners. *)
Lemma group_add_keyed (F : string -> list DownloadResult) (r : DownloadResult)
    (os : list string) :
  NoDup os ->
  group_add (map (fun p => (p, F p)) os) r =
  (map (fun p => (p, if String.eqb (dr_part_number r) p
                     then (F p ++ [r])%list else F p)) os
   ++ (if mem (dr_part_number r) os then [] else [(dr_part_number r, [r])]))%list.
Proof.
  induction os as [|p os IH]; intros Hnd; [reflexivity|].
  apply NoDup_cons in Hnd as [Hfresh Hnd]. simpl.
  rewrite (String.eqb_sym p). unfold mem. simpl.
  destruct (String.eqb (dr_part_number r) p) eqn:Heq; simpl.
  - apply String.eqb_eq in Heq. subst p. rewrite app_nil_r. f_equal.
    apply map_ext_in. intros q Hq.
    destruct (String.eqb (dr_part_number r) q) eqn:Heq; [|reflexivity].
    apply String.eqb_eq in Heq. subst q. exfalso. apply Hfresh.
    now apply list_elem_of_In.
  - f_equal. apply IH, Hnd.
Qed.

(** The groups the code builds are the results of each owner, owners in
    order of first appearance. *)
Lemma fold_group_add_spec (l : list DownloadResult) :
  fold_left group_add l [] = map (fun p => (p, owned_by p l)) (owners l).
Proof.
  induction l as [|r l IH] using rev_ind; [reflexivity|].
  rewrite fold_left_app. simpl. rewrite IH.
  rewrite group_add_keyed by apply owners_NoDup.
  rewrite owners_snoc.
  destruct (mem (dr_part_number r) (owners l)) eqn:Hmem.
  - rewrite app_nil_r. apply map_ext. intros p. now rewrite owned_by_snoc.
  - rewrite map_app. simpl. f_equal.
    + apply map_ext. intros p. now rewrite owned_by_snoc.
    + rewrite owned_by_snoc, String.eqb_refl.
      rewrite owned_by_stranger; [reflexivity|].
      intros Hin. apply mem_true_iff in Hin. congruence.
Qed.


Lemma groups_size_group_add (groups : list (string * list DownloadResult))
    (r : DownloadResult) :
  groups_size (group_add groups r) = S (groups_size groups).
Proof.
  unfold groups_size. induction groups as [|[k rs] groups IH]; [reflexivity|].
  simpl. destruct (String.eqb k (dr_part_number r)); simpl.
  - rewrite length_app. simpl. lia.
  - rewrite IH. lia.
Qed.

Lemma groups_size_fold (l : list DownloadResult) :
  groups_size (fold_left group_add l []) = length l.
Proof.
  induction l as [|r l IH] using rev_ind; [reflexivity|].
  rewrite fold_left_app. simpl. rewrite groups_size_group_add, IH, length_app.
  simpl. lia.
Qed.

End GroupingFacts.

Section ArchiveNameFacts.
Import PyStr Archiver.

Lemma split_path_nonempty (p : string) : split_path p <> [].
Proof.
  induction p as [|c p IH]; cbn [split_path]; [discriminate|].
  destruct (Ascii.eqb c "/"); [discriminate|].
  destruct (split_path p); [contradiction|discriminate].
Qed.

Lemma split_path_plain (s : string) :
  has_char "/" s = false -> split_path s = [s].
Proof.
  induction s as [|c s IH]; cbn [split_path has_char]; [reflexivity|].
  intros H. apply orb_false_iff in H as [Hc Hs].
  rewrite (Ascii.eqb_sym c "/"), Hc, (IH Hs). reflexivity.
Qed.

Lemma split_path_app (a b : string) :
  has_char "/" a = false ->
  split_path (a +:+ String "/" b) = a :: split_path b.
Proof.
  induction a as [|c a IH]; cbn [has_char]; intros H.
  - reflexivity.
  - apply orb_false_iff in H as [Hc Ha].
    change (String c a +:+ String "/" b) with (String c (a +:+ String "/" b)).
    cbn [split_path]. rewrite (Ascii.eqb_sym c "/"), Hc, (IH Ha). reflexivity.
Qed.

Lemma split_path_no_slash (p : string) :
  Forall (fun x => has_char "/" x = false) (split_path p).
Proof.
  induction p as [|c p IH]; cbn [split_path].
  - repeat constructor.
  - destruct (Ascii.eqb c "/") eqn:Hc.
    + constructor; [reflexivity | exact IH].
    + destruct (split_path p) as [|first rest]; [repeat constructor; cbn [has_char];
        now rewrite (Ascii.eqb_sym "/" c), Hc|].
      apply Forall_cons in IH as [Hfirst Hrest].
      constructor; [|exact Hrest].
      cbn [has_char]. now rewrite (Ascii.eqb_sym "/" c), Hc, Hfirst.
Qed.

Lemma last_no_slash (l : list string) :
  Forall (fun x => has_char "/" x = false) l ->
  has_char "/" (List.last l "") = false.
Proof.
  induction 1 as [|x l Hx Hl IH]; [reflexivity|].
  destruct l as [|y l]; [exact Hx | exact IH].
Qed.

Lemma path_name_no_slash (p : string) : has_char "/" (path_name p) = false.
Proof.
  unfold path_name, path_parts. apply last_no_slash.
  pose proof (split_path_no_slash p) as H.
  induction H as [|x l Hx Hl IH]; cbn [List.filter]; [constructor|].
  destruct (truthy x && negb (String.eqb x ".")); [constructor|]; assumption.
Qed.

Lemma last_dot_suffix_has_char (c : ascii) (s t : string) :
  last_dot_suffix s = Some t -> has_char c t = true -> has_char c s = true.
Proof.
  revert t. induction s as [|d s IH]; cbn [last_dot_suffix]; intros t; [discriminate|].
  destruct (last_dot_suffix s) as [u|] eqn:Hs.
  - intros [= <-] Hc. cbn [has_char]. rewrite (IH u eq_refl Hc). apply orb_true_r.
  - destruct (Ascii.eqb d "."); [|discriminate]. now intros [= <-].
Qed.

Lemma path_suffix_no_slash (p : string) : has_char "/" (path_suffix p) = false.
Proof.
  unfold path_suffix. pose proof (path_name_no_slash p) as Hname.
  destruct (path_name p) as [|c rest]; [reflexivity|].
  destruct (last_dot_suffix rest) as [t|] eqn:Ht; [|reflexivity].
  destruct (1 <? String.length t)%nat; [|reflexivity].
  destruct (has_char "/" t) eqn:Hc; [|reflexivity].
  cbn [has_char] in Hname. apply orb_false_iff in Hname as [_ Hrest].
  now rewrite (last_dot_suffix_has_char "/" rest t Ht Hc) in Hrest.
Qed.

(** A path whose name is the whole path: one without a separator that is
    neither empty nor a single dot. *)
Lemma path_name_plain (s : string) :
  has_char "/" s = false -> s <> "" -> s <> "." -> path_name s = s.
Proof.
  intros Hs Hne Hdot. unfold path_name, path_parts.
  rewrite (split_path_plain s Hs). cbn [List.filter].
  destruct s as [|c s]; [contradiction|]. cbn [truthy andb].
  destruct (String.eqb_spec (String c s) ".") as [Heq|_]; [contradiction|].
  reflexivity.
Qed.

Lemma clean_part_no_slash (p : string) : has_char "/" (clean_part p) = false.
Proof.
  unfold clean_part. induction p as [|c p IH]; [reflexivity|].
  cbn [map_chars has_char]. rewrite IH, orb_false_r.
  unfold clean_char.
  destruct (isalnum c || Ascii.eqb c "." || Ascii.eqb c "_" || Ascii.eqb c "-")
    eqn:Hc; [|reflexivity].
  destruct (Ascii.eqb_spec "/" c) as [<-|]; [discriminate Hc | reflexivity].
Qed.

Lemma lstrip_slashes_plain (s : string) :
  has_char "/" s = false -> lstrip_slashes s = s.
Proof.
  destruct s as [|c s]; [reflexivity|]. cbn [has_char lstrip_slashes].
  intros H. apply orb_false_iff in H as [Hc _].
  now rewrite (Ascii.eqb_sym c "/"), Hc.
Qed.

(** What the archive library makes of [folder/file]. *)
Lemma zip_arcname_two (folder file : string) :
  has_char "/" folder = false -> has_char "/" file = false ->
  has_char "_" file = true ->
  zip_arcname (folder +:+ "/" +:+ file)
  = if String.eqb folder "" || String.eqb folder "." then file
    else folder +:+ "/" +:+ file.
Proof.
  intros Hfolder Hfile Hunder.
  assert (Hf1 : String.eqb file "" = false)
    by (apply String.eqb_neq; intros ->; discriminate).
  assert (Hf2 : String.eqb file "." = false)
    by (apply String.eqb_neq; intros ->; discriminate).
  assert (Hf3 : String.eqb file ".." = false)
    by (apply String.eqb_neq; intros ->; discriminate).
  assert (Htruthy : truthy file = true) by (destruct file; [discriminate|reflexivity]).
  unfold zip_arcname, normpath.
  change (folder +:+ "/" +:+ file) with (folder +:+ String "/" file).
  rewrite (split_path_app folder file Hfolder), (split_path_plain file Hfile).
  destruct (String.eqb_spec folder "") as [->|Hne].
  - change ("" +:+ String "/" file) with (String "/" file).
    cbn [starts_with Ascii.eqb Bool.eqb andb normpath_comps String.eqb orb].
    rewrite Hf1, Hf2, Hf3. cbn [orb negb normpath_comps rev app join_slash].
    change ("/" +:+ file) with (String "/" file).
    cbn [truthy lstrip_slashes Ascii.eqb Bool.eqb].
    apply (lstrip_slashes_plain file Hfile).
  - assert (Hstart : starts_with "/" (folder +:+ String "/" file) = false).
    { destruct folder as [|c folder]; [contradiction|].
      cbn [has_char] in Hfolder. apply orb_false_iff in Hfolder as [Hc _].
      change (String c folder +:+ String "/" file)
        with (String c (folder +:+ String "/" file)).
      cbn [starts_with]. now rewrite Hc. }
    assert (Hplain : lstrip_slashes (folder +:+ String "/" file)
                     = folder +:+ String "/" file).
    { destruct folder as [|c folder]; [contradiction|].
      cbn [has_char] in Hfolder. apply orb_false_iff in Hfolder as [Hc _].
      change (String c folder +:+ String "/" file)
        with (String c (folder +:+ String "/" file)).
      cbn [lstrip_slashes]. now rewrite (Ascii.eqb_sym c "/"), Hc. }
    rewrite Hstart. cbn [normpath_comps].
    assert (Hempty : String.eqb folder "" = false) by now apply String.eqb_neq.
    rewrite Hempty. cbn [orb].
    destruct (String.eqb_spec folder ".") as [->|Hdot].
    + cbn [normpath_comps]. rewrite Hf1, Hf2, Hf3. cbn. rewrite Htruthy.
      apply (lstrip_slashes_plain file Hfile).
    + cbn [negb andb orb]. rewrite orb_true_r.
      cbn [normpath_comps]. rewrite Hf1, Hf2, Hf3. cbn [orb negb rev app].
      cbn [join_slash].
      assert (Ht : truthy (folder +:+ "/" +:+ file) = true)
        by (destruct folder; [contradiction|reflexivity]).
      rewrite Ht. exact Hplain.
Qed.

(** The name an entry is stored under. *)
Lemma entry_name_stored (owner : string) (i : nat) (r : DownloadResult) :
  entry_name owner i r = stored_entry_name owner (i + 1) (entry_extension r).
Proof.
  unfold entry_name, stored_entry_name, spec_entry_name. cbv zeta.
  fold (entry_extension r).
  rewrite zip_arcname_two.
  - reflexivity.
  - apply clean_part_no_slash.
  - rewrite !has_char_app, clean_part_no_slash.
    rewrite has_char_pretty_nat by reflexivity.
    unfold entry_extension.
    destruct (truthy (path_suffix (dr_filename r)));
      [now rewrite path_suffix_no_slash | reflexivity].
  - rewrite !has_char_app. cbn [has_char Ascii.eqb]. cbn.
    now rewrite orb_true_r.
Qed.

End ArchiveNameFacts.

Section ArchiveFacts.
Import PyStr Fetcher Archiver Endpoints.




Variable image_opens : list byte -> bool.

Lemma run_job_finish (net : nat -> get_outcome) (flt : fault)
    (download_id : string) (todo : list (string * string * string))
    (processing : tracker) (fs : storage) :
  (forall msg, flt <> BatchRaises msg) ->
  run_job image_opens net flt download_id todo processing fs
  = finish_job flt download_id
      (fst (download_images_batch image_opens net 0 todo fs)) processing
      (snd (download_images_batch image_opens net 0 todo fs)).
Proof.
  intros Hflt. unfold run_job, finish_job.
  destruct flt as [|msg|msg]; [|now destruct (Hflt msg)|];
    now destruct (download_images_batch image_opens net 0 todo fs).
Qed.




End ArchiveFacts.

Section JobFacts.
Import PyStr Fetcher Archiver Endpoints.
Variable urlparse_path : string -> option string.
Variable image_opens : list byte -> bool.

(** C8, as the code has it.  For every download job created by the
    download-images endpoint over search results whose contributing part
    numbers (requested, search succeeded) are pairwise distinct after
    cleaning, the assigned filenames of the work items, and so of the job's
    [DownloadResult] entries, are pairwise distinct. *)
Theorem filenames_distinct (search_results : list PartSearchResult)
    (part_numbers : option (list string)) (net : nat -> get_outcome)
    (fs : storage) :
  NoDup (map (fun r => clean_part (psr_part_number r))
             (contributing search_results part_numbers)) ->
  let todo := images_to_download urlparse_path search_results part_numbers in
  NoDup (map item_filename todo) /\
  NoDup (map dr_filename (fst (download_images_batch image_opens net 0 todo fs))).
Proof.
  intros Hnd todo.
  assert (H : NoDup (map item_filename todo))
    by now apply work_list_filenames_distinct.
  split; [exact H|]. now rewrite batch_filenames.
Qed.

End JobFacts.

Section JobExamples.
Import PyStr Fetcher Archiver Endpoints.

Lemma filenames_distinct_witness :
  let todo := images_to_download simple_url_path pair_results None in
  NoDup (map item_filename todo) /\
  NoDup (map dr_filename
           (fst (download_images_batch opens_pixel_gif always_gif 0 todo ∅))).
Proof.
  apply (filenames_distinct simple_url_path opens_pixel_gif pair_results None
           always_gif ∅).
  apply (bool_decide_unpack _). vm_compute. exact I.
Defined.

(** The job of the witness: two part numbers with two images each. *)
Lemma pair_work_list :
  images_to_download simple_url_path pair_results None
  = [("CT-100", "https://a.example/ct100.jpg", "CT-100_1.jpg");
     ("CT-100", "https://b.example/ct100.png", "CT-100_2.png");
     ("LC1D09", "https://a.example/ct100.jpg", "LC1D09_1.jpg");
     ("LC1D09", "https://b.example/ct100.png", "LC1D09_2.png")] /\
  map (fun r => clean_part (psr_part_number r)) (contributing pair_results None)
  = ["CT-100"; "LC1D09"].
Proof. split; vm_compute; reflexivity. Qed.

Lemma clash_download_images :
  download_images simple_url_path (mkDownloadRequest "search-2" None) "download-2"
    clash_tracker
  = (Ok (mkDownloadResponse "download-2" "started" 3 0 [] None, clash_todo),
     clash_created).
Proof. vm_compute. reflexivity. Qed.

(** C8 as stated fails: the part numbers "CT 100" and "CT_100" are cleaned to
    the same text, and the job the endpoint creates for them assigns the
    filename "CT_100_1.jpg" twice. *)
Lemma cleaned_part_numbers_clash :
  fst (download_images simple_url_path (mkDownloadRequest "search-2" None)
         "download-2" clash_tracker)
  = Ok (mkDownloadResponse "download-2" "started" 3 0 [] None, clash_todo) /\
  map item_filename clash_todo = ["CT_100_1.jpg"; "CT_100_2.png"; "CT_100_1.jpg"] /\
  ~ NoDup (map item_filename clash_todo) /\
  ~ NoDup (map dr_filename
             (fst (download_images_batch opens_pixel_gif always_gif 0
                     clash_todo ∅))).
Proof.
  split; [now rewrite clash_download_images|]. split; [reflexivity|].
  assert (H : ~ NoDup (map item_filename clash_todo))
    by (apply (bool_decide_unpack _); vm_compute; exact I).
  split; [exact H|]. now rewrite batch_filenames.
Qed.


(** The entries of the demo archive. *)
Lemma demo_archive_entries :
  snd (download_images_background opens_pixel_gif always_gif NoFault
         "download-1" demo_todo demo_created ∅)
    !! "parts_images_download-1.zip"
  = Some (ZipArchive [("CT-100/CT-100_1.jpg", Blob (gif_of_size 2048));
                      ("CT-100/CT-100_2.png", Blob (gif_of_size 2048))]).
Proof. vm_compute. reflexivity. Qed.


Lemma every_schedule_ends_alike_witness :
  (forall (results : list DownloadResult) (fs' : storage),
     Gather.batch_runs opens_pixel_gif 3 eleventh_is_small 0 chunked_todo ∅
       results fs' ->
     results
     = fst (download_images_batch opens_pixel_gif eleventh_is_small 0
              chunked_todo ∅) /\
     fs' = snd (download_images_batch opens_pixel_gif eleventh_is_small 0
                  chunked_todo ∅)) /\
  ((0 < 3)%nat ->
   Gather.batch_runs opens_pixel_gif 3 eleventh_is_small 0 chunked_todo ∅
     (fst (download_images_batch opens_pixel_gif eleventh_is_small 0
             chunked_todo ∅))
     (snd (download_images_batch opens_pixel_gif eleventh_is_small 0
             chunked_todo ∅))).
Proof.
  apply (every_schedule_ends_alike opens_pixel_gif 3 eleventh_is_small
           chunked_todo ∅).
  constructor; [apply (bool_decide_unpack _); vm_compute; exact I|].
  constructor; [apply (bool_decide_unpack _); vm_compute; exact I|].
  constructor.
Defined.

(** Two fetches of one chunk that share a file name can disturb each
    other.  Here the first has a GIF image of 2048 bytes to write and the
    second one of 512 bytes; the event loop runs the second between the
    write of the first and its checks.  The second finds its body too
    small and deletes the file, and the first then finds no file: both
    return "File too small or empty".  Run one after the other, the first
    succeeds. *)
Lemma fetches_sharing_a_file :
  let chunk := [("CT 100", "https://a.example/ct100.jpg", "CT_100_1.jpg");
                ("CT_100", "https://c.example/ct_100.jpg", "CT_100_1.jpg")] in
  let net := fun i : nat =>
               match i with
               | 0%nat => GetResponse 200 (inr (gif_of_size 2048))
               | _ => GetResponse 200 (inr (gif_of_size 512))
               end in
  Gather.gathered opens_pixel_gif 3 net 0 chunk ∅
    [mkDownloadResult "CT 100" "https://a.example/ct100.jpg" "CT_100_1.jpg"
       false (Some "File too small or empty") None;
     mkDownloadResult "CT_100" "https://c.example/ct_100.jpg" "CT_100_1.jpg"
       false (Some "File too small or empty") None]
    ∅ /\
  map dr_success (fst (download_images_batch opens_pixel_gif net 0 chunk ∅))
  = [true; false].
Proof.
  intros chunk net. split; [|vm_compute; reflexivity].
  unfold Gather.gathered.
  assert (Hstep : forall (i : nat) item st st' tasks fs fs' tasks' cfg,
            chunk !! i = Some item -> tasks !! i = Some st ->
            (length (List.filter Gather.running tasks) < 3)%nat ->
            Gather.task_step opens_pixel_gif (net (0 + i)%nat) item st fs
            = Some (st', fs') ->
            tasks' = <[i := st']> tasks ->
            rtc (Gather.step opens_pixel_gif 3 net 0 chunk) (tasks', fs') cfg ->
            rtc (Gather.step opens_pixel_gif 3 net 0 chunk) (tasks, fs) cfg).
  { intros i item st st' tasks fs fs' tasks' cfg Hi Hst Hsem Hs -> Hrest.
    eapply rtc_l; [|exact Hrest].
    now apply (Gather.step_task opens_pixel_gif 3 net 0 chunk i item st st'). }
  (* the first task opens its file and writes its body *)
  eapply (Hstep 0%nat); [reflexivity|reflexivity|cbn; lia|reflexivity|reflexivity|].
  eapply (Hstep 0%nat); [reflexivity|reflexivity|cbn; lia|reflexivity|reflexivity|].
  (* the second task runs to its end *)
  eapply (Hstep 1%nat); [reflexivity|reflexivity|cbn; lia|reflexivity|reflexivity|].
  eapply (Hstep 1%nat); [reflexivity|reflexivity|cbn; lia|reflexivity|reflexivity|].
  eapply (Hstep 1%nat);
    [reflexivity|reflexivity|cbn; lia|vm_compute; reflexivity|reflexivity|].
  (* the first task checks a file that is gone *)
  eapply (Hstep 0%nat);
    [reflexivity|reflexivity|cbn; lia|vm_compute; reflexivity|reflexivity|].
  apply rtc_refl.
Qed.



End JobExamples.

(** * Further properties of the code *)

(** ** Scorer: bounds and case *)

Section ScoreBounds.
Import PyStr Scorer.

Lemma part_match_bounds (title part_number : string) (score : Z) :
  score <= part_match title part_number score <= score + 50.
Proof. unfold part_match. repeat case_match; lia. Qed.

Lemma manufacturer_match_bounds (title : string) (m : option string) (score : Z) :
  score <= manufacturer_match title m score <= score + 20.
Proof. unfold manufacturer_match. repeat case_match; lia. Qed.

Lemma fold_bonus_bounds (title : string) (keywords : list string) :
  forall score,
    score <= fold_left (fun sc kw => if contains kw title then sc + 8 else sc)
                       keywords score
          <= score + 8 * Z.of_nat (length keywords).
Proof.
  induction keywords as [|kw keywords IH]; intros score; simpl fold_left.
  - simpl. lia.
  - specialize (IH (if contains kw title then score + 8 else score)).
    rewrite length_cons. destruct (contains kw title); lia.
Qed.

Lemma fold_penalty_bounds (title : string) (keywords : list string) :
  forall score,
    score - 10 * Z.of_nat (length keywords)
    <= fold_left (fun sc kw => if contains kw title then sc - 10 else sc)
                 keywords score
    <= score.
Proof.
  induction keywords as [|kw keywords IH]; intros score; simpl fold_left.
  - simpl. lia.
  - specialize (IH (if contains kw title then score - 10 else score)).
    rewrite length_cons. destruct (contains kw title); lia.
Qed.

(** X1. The relevance score of every hit lies between 0 and 220: each of the
    fifteen domain keywords counts once, so the keyword bonus is capped at
    120, and with +50, +20, +20 and +10 the sum cannot exceed 220. *)
Theorem score_between_0_and_220 (image_data : hit) (part_number : string)
    (manufacturer : option string) :
  0 <= _score_image_relevance image_data part_number manufacturer <= 220.
Proof.
  unfold _score_image_relevance. cbv zeta.
  set (title := lower (hit_title image_data)).
  rewrite source_trust_constant.
  pose proof (part_match_bounds title part_number 0) as H1.
  pose proof (manufacturer_match_bounds title manufacturer
                (part_match title part_number 0)) as H2.
  pose proof (fold_bonus_bounds title part_keywords
                (manufacturer_match title manufacturer
                   (part_match title part_number 0))) as H3.
  fold (keyword_bonus title
          (manufacturer_match title manufacturer (part_match title part_number 0)))
    in H3.
  change (Z.of_nat (length part_keywords)) with 15 in H3.
  set (kw := keyword_bonus title _) in *.
  pose proof (fold_penalty_bounds title avoid_keywords (kw + 20)) as H4.
  fold (avoid_penalty title (kw + 20)) in H4.
  set (av := avoid_penalty title (kw + 20)) in *.
  pose proof (dimension_adjust_bounds
                (default 0 (hit_original_width image_data))
                (default 0 (hit_original_height image_data)) av) as H5.
  lia.
Qed.

(** The bound of X1 is reached. *)
Lemma score_220_reached :
  _score_image_relevance keyword_rich_hit "CT-100" (Some "Schneider") = 220.
Proof. vm_compute. reflexivity. Qed.

End ScoreBounds.

(** ** Selector: order of the selection *)

Section SelectionOrder.
Import PyStr Scorer Selector.

Lemma select_loop_picks (scored : list (Z * hit)) (max_images : Z) :
  forall selected,
  exists picked,
    select_loop scored max_images selected = (selected ++ picked)%list /\
    picked `sublist_of` map snd scored.
Proof.
  induction scored as [|[score img] rest IH]; intros selected; simpl.
  - exists []. split; [now rewrite app_nil_r | constructor].
  - destruct (Z.of_nat (length selected) >=? max_images).
    { exists []. split; [now rewrite app_nil_r | apply sublist_nil_l]. }
    destruct ((score >? 10) && _).
    + destruct (IH (selected ++ [img])%list) as (picked & -> & Hsub).
      exists (img :: picked). split; [now rewrite <- app_assoc|].
      now apply sublist_skip.
    + destruct (IH selected) as (picked & -> & Hsub).
      exists picked. split; [reflexivity | now apply sublist_cons].
Qed.

Lemma Forall_of_sublist {A : Type} (P : A -> Prop) (l1 l2 : list A) :
  l1 `sublist_of` l2 -> Forall P l2 -> Forall P l1.
Proof.
  induction 1 as [|x l1 l2 Hsub IH|x l1 l2 Hsub IH]; intros Hall.
  - constructor.
  - apply Forall_cons in Hall as [Hx Hall]. constructor; auto.
  - apply Forall_cons in Hall as [_ Hall]. auto.
Qed.

Lemma StronglySorted_sublist {A : Type} (R : A -> A -> Prop) (l1 l2 : list A) :
  l1 `sublist_of` l2 -> StronglySorted R l2 -> StronglySorted R l1.
Proof.
  induction 1 as [|x l1 l2 Hsub IH|x l1 l2 Hsub IH]; intros Hs.
  - constructor.
  - apply StronglySorted_inv in Hs as [Hs Hall]. constructor; [now apply IH|].
    eapply Forall_of_sublist; eauto.
  - apply StronglySorted_inv in Hs as [Hs _]. now apply IH.
Qed.

Lemma scored_hits_sorted (part_number : string) (manufacturer : option string)
    (scored : list (Z * hit)) :
  well_scored part_number manufacturer scored ->
  StronglySorted (fun p q => fst q <= fst p) scored ->
  StronglySorted (scores_no_less part_number manufacturer) (map snd scored).
Proof.
  intros Hw Hs. induction Hs as [|p l Hs IH Hall]; simpl; [constructor|].
  apply Forall_cons in Hw as [Hp Hw]. constructor; [now apply IH|].
  apply Forall_map. rewrite List.Forall_forall in *.
  intros q Hq. unfold scores_no_less. rewrite <- Hp, <- (Hw q Hq).
  now apply Hall.
Qed.

Lemma sorted_scored_hits (images : list hit) (part_number : string)
    (manufacturer : option string) :
  let scored := sort_desc (map (fun img =>
                  (_score_image_relevance img part_number manufacturer, img)) images) in
  well_scored part_number manufacturer scored /\
  StronglySorted (scores_no_less part_number manufacturer) (map snd scored) /\
  map snd scored ≡ₚ images.
Proof.
  cbv zeta.
  assert (Hw : well_scored part_number manufacturer
                 (sort_desc (map (fun img =>
                    (_score_image_relevance img part_number manufacturer, img)) images))).
  { apply sort_desc_forall, Forall_map, List.Forall_forall. intros img _. reflexivity. }
  split; [exact Hw|]. split.
  - apply scored_hits_sorted; [exact Hw | apply sort_desc_sorted].
  - rewrite sort_desc_perm, map_map. simpl. now rewrite map_id.
Qed.

(** X3. The selection lists the chosen hits in order of non-increasing score,
    and it is taken from the given hits: no hit occurs in it more often than
    among the hits given. *)
Theorem selection_sorted_and_from_input (images : list hit) (part_number : string)
    (manufacturer : option string) (max_images : Z) :
  StronglySorted (scores_no_less part_number manufacturer)
    (_select_best_images images part_number manufacturer max_images) /\
  _select_best_images images part_number manufacturer max_images ⊆+ images.
Proof.
  destruct (sorted_scored_hits images part_number manufacturer) as (_ & Hs & Hp).
  unfold _select_best_images.
  destruct (select_loop_picks
              (sort_desc (map (fun img =>
                 (_score_image_relevance img part_number manufacturer, img)) images))
              max_images []) as (picked & -> & Hsub).
  simpl. split.
  - eapply StronglySorted_sublist; eauto.
  - rewrite <- Hp. now apply sublist_submseteq.
Qed.

Lemma select_loop_none_admitted (scored : list (Z * hit)) (max_images : Z) :
  Forall (fun p => fst p <= 10) scored ->
  forall selected, select_loop scored max_images selected = selected.
Proof.
  induction 1 as [|[score img] rest Hp Hrest IH]; intros selected; simpl;
    [reflexivity|].
  destruct (Z.of_nat (length selected) >=? max_images); [reflexivity|].
  simpl in Hp. replace (score >? 10) with false by lia. simpl. apply IH.
Qed.

(** X4. When there is room for at least one image, the selection is empty
    exactly when no hit scores more than 10; otherwise its first element is
    a hit of the highest score among all hits given. *)
Theorem best_hit_is_selected_first (images : list hit) (part_number : string)
    (manufacturer : option string) (max_images : Z) :
  1 <= max_images ->
  match _select_best_images images part_number manufacturer max_images with
  | [] =>
      Forall (fun img => _score_image_relevance img part_number manufacturer <= 10)
             images
  | best :: _ =>
      In best images /\
      10 < _score_image_relevance best part_number manufacturer /\
      Forall (fun img => _score_image_relevance img part_number manufacturer
                         <= _score_image_relevance best part_number manufacturer)
             images
  end.
Proof.
  intros Hmax.
  destruct (sorted_scored_hits images part_number manufacturer) as (Hw & Hs & Hp).
  unfold _select_best_images.
  destruct (sort_desc _) as [|[score best] rest] eqn:Hsorted.
  - simpl in *. apply Permutation_nil in Hp. subst images. constructor.
  - simpl in Hw, Hs, Hp. apply Forall_cons in Hw as [Hbest Hw]. simpl in Hbest.
    apply StronglySorted_inv in Hs as [_ Htop].
    assert (Hall : Forall (fun img =>
                     _score_image_relevance img part_number manufacturer <= score)
                     images).
    { rewrite <- Hp. constructor; [lia|]. subst score. exact Htop. }
    cbn [select_loop length]. change (Z.of_nat 0) with 0.
    replace (0 >=? max_images) with false by lia.
    assert (H0 : source_count (lower (hit_source best)) [] = 0)
      by (unfold source_count; now rewrite filter_nil).
    rewrite H0. change (0 <? 2) with true. rewrite andb_true_r.
    destruct (score >? 10) eqn:Hscore.
    + destruct (select_loop_picks rest max_images ([] ++ [best])%list)
        as (picked & -> & _).
      simpl. split; [|split; [lia | now subst score]].
      apply (Permutation_in best Hp). now left.
    + rewrite select_loop_none_admitted.
      * eapply List.Forall_impl; [|exact Hall]. simpl. intros img Himg. lia.
      * rewrite List.Forall_forall in *. intros [v h] Hin.
        assert (Hv : v = _score_image_relevance h part_number manufacturer)
          by (apply (Hw (v, h) Hin)).
        assert (Hh : In h images).
        { apply (Permutation_in h Hp). right. apply in_map_iff. now exists (v, h). }
        specialize (Hall h Hh). simpl in *. lia.
Qed.

Lemma best_hit_is_selected_first_witness :
  match _select_best_images [logo_banner_hit; contactor_hit] "CT-100"
          (Some "Schneider") 1 with
  | [] =>
      Forall (fun img => _score_image_relevance img "CT-100" (Some "Schneider") <= 10)
             [logo_banner_hit; contactor_hit]
  | best :: _ =>
      In best [logo_banner_hit; contactor_hit] /\
      10 < _score_image_relevance best "CT-100" (Some "Schneider") /\
      Forall (fun img => _score_image_relevance img "CT-100" (Some "Schneider")
                         <= _score_image_relevance best "CT-100" (Some "Schneider"))
             [logo_banner_hit; contactor_hit]
  end.
Proof.
  apply (best_hit_is_selected_first [logo_banner_hit; contactor_hit] "CT-100"
           (Some "Schneider") 1).
  lia.
Defined.

End SelectionOrder.

(** ** Search endpoint *)

Section SearchEndpointFacts.
Import PyStr Scorer Selector SearchService.

Lemma select_best_images_length (images : list hit) (part_number : string)
    (manufacturer : option string) (max_images : Z) :
  0 <= max_images ->
  Z.of_nat (length (_select_best_images images part_number manufacturer max_images))
  <= max_images.
Proof.
  intros Hmax.
  assert (H : selection_ok part_number manufacturer max_images
                (_select_best_images images part_number manufacturer max_images)).
  { apply select_loop_ok.
    - apply sort_desc_forall, Forall_map, List.Forall_forall. intros img _. reflexivity.
    - split; [simpl; lia | apply List.Forall_nil
             | intros s; unfold source_count; rewrite filter_nil; simpl; lia]. }
  now destruct H.
Qed.

Lemma search_service_result_ok (provider : search_params -> provider_outcome)
    (part_number : string) (manufacturer : option string) (num_results : Z) :
  0 <= num_results ->
  service_result_ok part_number num_results
    (search_part_images provider part_number manufacturer num_results).
Proof.
  intros Hnum. unfold search_part_images, service_result_ok.
  destruct (provider _) as [msg|[err|] images_results]; simpl;
    repeat split; try lia; try discriminate; trivial.
  rewrite length_map. now apply select_best_images_length.
Qed.

Lemma reprocess_service_result_ok (provider : search_params -> provider_outcome)
    (part_number : string) (manufacturer : option string) (num_results : Z)
    (strategy : string) (exclude_urls : option (list string)) :
  0 <= num_results ->
  service_result_ok part_number num_results
    (reprocess_part_images provider part_number manufacturer num_results
       strategy exclude_urls).
Proof.
  intros Hnum. unfold reprocess_part_images, service_result_ok.
  destruct (provider _) as [msg|[err|] images_results]; simpl;
    repeat split; try lia; try discriminate; trivial.
  rewrite length_map. now apply select_best_images_length.
Qed.

Lemma total_images_found_acc (results : list PartSearchResult) :
  Forall (fun r => psr_search_success r = false -> psr_images r = []) results ->
  forall total,
    fold_left (fun total result =>
                 if psr_search_success result
                 then total + Z.of_nat (length (psr_images result)) else total)
              results total
    = total + Z.of_nat (length (all_images results)).
Proof.
  induction 1 as [|r results Hr Hrs IH]; intros total; simpl; [lia|].
  rewrite IH. unfold all_images. simpl. rewrite length_app.
  destruct (psr_search_success r); [lia|]. rewrite Hr by reflexivity. simpl. lia.
Qed.

Lemma all_images_bound (num_results : Z) (results : list PartSearchResult) :
  Forall (fun r => Z.of_nat (length (psr_images r)) <= num_results) results ->
  Z.of_nat (length (all_images results))
  <= Z.of_nat (length results) * num_results.
Proof.
  induction 1 as [|r results Hr Hrs IH]; simpl; [lia|].
  unfold all_images in *. simpl. rewrite length_app. lia.
Qed.

(** The results of either endpoint, read off the service results. *)
Lemma endpoint_results_ok (num_results : Z) (part_numbers : list string)
    (service : string -> PartSearchResult) :
  (forall p, service_result_ok p num_results (service p)) ->
  let results := map service part_numbers in
  map psr_part_number results = part_numbers /\
  Forall (fun r => Z.of_nat (length (psr_images r)) <= num_results) results /\
  Endpoints.total_images_found results = Z.of_nat (length (all_images results)) /\
  Endpoints.total_images_found results
  <= Z.of_nat (length part_numbers) * num_results.
Proof.
  intros Hok results.
  assert (H1 : map psr_part_number results = part_numbers).
  { subst results. rewrite map_map. rewrite <- (map_id part_numbers) at 2.
    apply map_ext. intros p. apply Hok. }
  assert (H2 : Forall (fun r => Z.of_nat (length (psr_images r)) <= num_results)
                      results).
  { subst results. apply Forall_map, List.Forall_forall. intros p _. apply Hok. }
  assert (H3 : Endpoints.total_images_found results
               = Z.of_nat (length (all_images results))).
  { unfold Endpoints.total_images_found. rewrite total_images_found_acc; [lia|].
    subst results. apply Forall_map, List.Forall_forall. intros p _. apply Hok. }
  repeat split; trivial.
  rewrite H3. pose proof (all_images_bound num_results results H2) as H4.
  subst results. now rewrite length_map in H4.
Qed.

(** X5. A search-images call for a non-negative image count returns one
    result per requested part number, in request order and under that part
    number, each with at most [num_images_per_part] images;
    [total_images_found] is the number of images in all results together and
    is at most the number of parts times [num_images_per_part]; and the
    results are stored under the search id. *)
Theorem search_endpoint_results (provider : search_params -> provider_outcome)
    (request : PartSearchRequest) (search_id : string) (download_tasks : tracker) :
  0 <= req_num_images_per_part request ->
  let response := fst (Endpoints.search_part_images provider request search_id
                         download_tasks) in
  let stored := snd (Endpoints.search_part_images provider request search_id
                       download_tasks) in
  sr_search_id response = search_id /\
  map psr_part_number (sr_results response) = req_part_numbers request /\
  Forall (fun r => Z.of_nat (length (psr_images r)) <= req_num_images_per_part request)
         (sr_results response) /\
  sr_total_parts response = Z.of_nat (length (req_part_numbers request)) /\
  sr_total_images_found response
  = Z.of_nat (length (all_images (sr_results response))) /\
  sr_total_images_found response
  <= sr_total_parts response * req_num_images_per_part request /\
  (td_search_results <$> stored !! search_id) = Some (Some (sr_results response)).
Proof.
  intros Hnum. cbv zeta. unfold Endpoints.search_part_images. simpl.
  destruct (endpoint_results_ok (req_num_images_per_part request)
              (req_part_numbers request)
              (fun p => search_part_images provider p (req_manufacturer request)
                          (req_num_images_per_part request)))
    as (H1 & H2 & H3 & H4).
  { intros p. now apply search_service_result_ok. }
  rewrite lookup_insert_eq. simpl. repeat split; trivial.
Qed.

Lemma search_endpoint_results_witness :
  let request := mkPartSearchRequest ["CT-100"; "LC1D09"] None 4 in
  let response := fst (Endpoints.search_part_images two_hit_provider request
                         "search-1" ∅) in
  let stored := snd (Endpoints.search_part_images two_hit_provider request
                       "search-1" ∅) in
  sr_search_id response = "search-1" /\
  map psr_part_number (sr_results response) = req_part_numbers request /\
  Forall (fun r => Z.of_nat (length (psr_images r)) <= req_num_images_per_part request)
         (sr_results response) /\
  sr_total_parts response = Z.of_nat (length (req_part_numbers request)) /\
  sr_total_images_found response
  = Z.of_nat (length (all_images (sr_results response))) /\
  sr_total_images_found response
  <= sr_total_parts response * req_num_images_per_part request /\
  (td_search_results <$> stored !! "search-1") = Some (Some (sr_results response)).
Proof.
  apply (search_endpoint_results two_hit_provider
           (mkPartSearchRequest ["CT-100"; "LC1D09"] None 4) "search-1" ∅).
  simpl. lia.
Defined.

End SearchEndpointFacts.

(** ** Re-process endpoint *)

Section ReprocessEndpointFacts.
Import PyStr Scorer Selector SearchService.

Lemma truthy_nonempty (s : string) : truthy s = true <-> s <> "".
Proof. destruct s; simpl; split; intros; congruence. Qed.

(** The exclusion list holds exactly the non-empty original URLs of the
    images of the requested parts. *)
Lemma previous_urls_spec (original_search : list PartSearchResult)
    (part_numbers : list string) (u : string) :
  In u (Reprocess.previous_urls original_search part_numbers) <->
  u <> "" /\
  exists prev old,
    In prev original_search /\ In (psr_part_number prev) part_numbers /\
    In old (psr_images prev) /\ ir_original_url old = u.
Proof.
  unfold Reprocess.previous_urls. rewrite in_flat_map. split.
  - intros (prev & Hprev & Hu).
    destruct (mem (psr_part_number prev) part_numbers) eqn:Hmem; [|destruct Hu].
    apply filter_In in Hu as [Hu Ht]. apply in_map_iff in Hu as (old & <- & Hold).
    split; [now apply truthy_nonempty|].
    exists prev, old. repeat split; trivial. now apply mem_true_iff.
  - intros (Hne & prev & old & Hprev & Hpn & Hold & <-).
    exists prev. split; [exact Hprev|].
    apply mem_true_iff in Hpn. rewrite Hpn.
    apply filter_In. split; [now apply in_map | now apply truthy_nonempty].
Qed.

(** The service method returns no image whose URL is in the list it was
    given, whether the list is empty or not. *)
Lemma reprocess_service_excludes (provider : search_params -> provider_outcome)
    (part_number : string) (manufacturer : option string) (num_results : Z)
    (strategy : string) (exclude_urls : list string) :
  Forall (fun image => ~ In (ir_original_url image) exclude_urls)
         (psr_images (reprocess_part_images provider part_number manufacturer
                        num_results strategy (Some exclude_urls))).
Proof.
  assert (Hcases : exclude_urls = [] \/ exclude_urls <> [])
    by (destruct exclude_urls; [left | right]; congruence).
  destruct Hcases as [->|Hne].
  { apply List.Forall_forall. intros image _ []. }
  unfold reprocess_part_images.
  destruct (provider _) as [msg|[err|] images_results]; simpl;
    try apply List.Forall_nil.
  apply Forall_map.
  eapply List.Forall_impl;
    [|apply select_best_images_from, (filter_previous_images_excludes _ _ Hne)].
  intros img [H1 H2]. now apply to_image_result_url_excluded.
Qed.

(** X6. A re-process call whose original search id holds search results
    succeeds, and none of the images it returns has the original URL of an
    image (with a non-empty URL) that the original search returned for one of
    the requested part numbers. *)
Theorem reprocess_endpoint_never_repeats
    (provider : search_params -> provider_outcome) (request : ReprocessRequest)
    (new_search_id : string) (download_tasks : tracker) (original : task_data)
    (original_search : list PartSearchResult) :
  download_tasks !! rreq_search_id request = Some original ->
  td_search_results original = Some original_search ->
  exists response,
    fst (Reprocess.reprocess_part_images provider request new_search_id
           download_tasks) = Ok response /\
    forall result image prev old,
      In result (sr_results response) -> In image (psr_images result) ->
      In prev original_search ->
      In (psr_part_number prev) (rreq_part_numbers request) ->
      In old (psr_images prev) -> ir_original_url old <> "" ->
      ir_original_url image <> ir_original_url old.
Proof.
  intros Hlookup Hresults. unfold Reprocess.reprocess_part_images.
  rewrite Hlookup, Hresults. simpl. eexists. split; [reflexivity|]. simpl.
  intros result image prev old Hresult Himage Hprev Hpn Hold Hne Heq.
  apply in_map_iff in Hresult as (p & <- & _).
  pose proof (reprocess_service_excludes provider p
                (Reprocess.original_manufacturer original_search p) 4
                (Reprocess.strategy_of request)
                (Reprocess.previous_urls original_search (rreq_part_numbers request)))
    as Hex.
  rewrite List.Forall_forall in Hex. apply (Hex image Himage).
  apply previous_urls_spec. split; [now rewrite Heq|].
  exists prev, old. auto.
Qed.

(** X7. A re-process call whose original search id holds search results
    returns, under the new id, one result per requested part number, in
    request order and under that part number (also for a part number the
    original search did not cover), each with at most 4 images;
    [total_images_found] counts the images of all results; and the results
    are stored under the new id, where download-images finds them. *)
Theorem reprocess_endpoint_results
    (provider : search_params -> provider_outcome) (request : ReprocessRequest)
    (new_search_id : string) (download_tasks : tracker) (original : task_data)
    (original_search : list PartSearchResult)
    (urlparse_path : string -> option string) (wanted : option (list string))
    (download_id : string) :
  download_tasks !! rreq_search_id request = Some original ->
  td_search_results original = Some original_search ->
  exists response,
    Reprocess.reprocess_part_images provider request new_search_id download_tasks
    = (Ok response,
       <[new_search_id := mkTask (Some (sr_results response)) (Some "completed")
                            None None None None None]> download_tasks) /\
    sr_search_id response = new_search_id /\
    map psr_part_number (sr_results response) = rreq_part_numbers request /\
    Forall (fun r => Z.of_nat (length (psr_images r)) <= 4) (sr_results response) /\
    sr_total_parts response = Z.of_nat (length (rreq_part_numbers request)) /\
    sr_total_images_found response
    = Z.of_nat (length (all_images (sr_results response))) /\
    fst (Endpoints.download_images urlparse_path
           (mkDownloadRequest new_search_id wanted) download_id
           (snd (Reprocess.reprocess_part_images provider request new_search_id
                   download_tasks)))
    = Ok (mkDownloadResponse download_id "started"
            (Z.of_nat (length (Endpoints.images_to_download urlparse_path
                                 (sr_results response) wanted)))
            0 [] None,
          Endpoints.images_to_download urlparse_path (sr_results response) wanted).
Proof.
  intros Hlookup Hresults. unfold Reprocess.reprocess_part_images.
  rewrite Hlookup, Hresults. cbv zeta.
  destruct (endpoint_results_ok 4 (rreq_part_numbers request)
              (fun p => reprocess_part_images provider p
                          (Reprocess.original_manufacturer original_search p) 4
                          (Reprocess.strategy_of request)
                          (Some (Reprocess.previous_urls original_search
                                   (rreq_part_numbers request)))))
    as (H1 & H2 & H3 & H4).
  { intros p. apply reprocess_service_result_ok. lia. }
  set (results := map _ (rreq_part_numbers request)) in *.
  exists (mkSearchResponse new_search_id results
            (Z.of_nat (length (rreq_part_numbers request)))
            (Endpoints.total_images_found results)).
  simpl. repeat split; trivial.
  unfold Endpoints.download_images. simpl. rewrite lookup_insert_eq. reflexivity.
Qed.

End ReprocessEndpointFacts.

Section ReprocessEndpointExamples.
Import PyStr SearchService.

Lemma demo_tracker_entry :
  demo_tracker !! "search-1"
  = Some (mkTask (Some demo_results) (Some "completed") None None None None None).
Proof. vm_compute. reflexivity. Qed.

Lemma reprocess_endpoint_never_repeats_witness :
  exists response,
    fst (Reprocess.reprocess_part_images three_hit_provider
           (mkReprocessRequest "search-1" ["CT-100"] (Some "broader") None)
           "search-1b" demo_tracker) = Ok response /\
    forall result image prev old,
      In result (sr_results response) -> In image (psr_images result) ->
      In prev demo_results ->
      In (psr_part_number prev) ["CT-100"] ->
      In old (psr_images prev) -> ir_original_url old <> "" ->
      ir_original_url image <> ir_original_url old.
Proof.
  apply (reprocess_endpoint_never_repeats three_hit_provider
           (mkReprocessRequest "search-1" ["CT-100"] (Some "broader") None)
           "search-1b" demo_tracker
           (mkTask (Some demo_results) (Some "completed") None None None None None)
           demo_results).
  - exact demo_tracker_entry.
  - reflexivity.
Defined.

Lemma reprocess_endpoint_results_witness :
  exists response,
    Reprocess.reprocess_part_images three_hit_provider
      (mkReprocessRequest "search-1" ["CT-100"; "LC1D09"] None None)
      "search-1b" demo_tracker
    = (Ok response,
       <["search-1b" := mkTask (Some (sr_results response)) (Some "completed")
                          None None None None None]> demo_tracker) /\
    sr_search_id response = "search-1b" /\
    map psr_part_number (sr_results response) = ["CT-100"; "LC1D09"] /\
    Forall (fun r => Z.of_nat (length (psr_images r)) <= 4) (sr_results response) /\
    sr_total_parts response = Z.of_nat (length ["CT-100"; "LC1D09"]) /\
    sr_total_images_found response
    = Z.of_nat (length (all_images (sr_results response))) /\
    fst (Endpoints.download_images simple_url_path
           (mkDownloadRequest "search-1b" None) "download-1b"
           (snd (Reprocess.reprocess_part_images three_hit_provider
                   (mkReprocessRequest "search-1" ["CT-100"; "LC1D09"] None None)
                   "search-1b" demo_tracker)))
    = Ok (mkDownloadResponse "download-1b" "started"
            (Z.of_nat (length (Endpoints.images_to_download simple_url_path
                                 (sr_results response) None)))
            0 [] None,
          Endpoints.images_to_download simple_url_path (sr_results response) None).
Proof.
  apply (reprocess_endpoint_results three_hit_provider
           (mkReprocessRequest "search-1" ["CT-100"; "LC1D09"] None None)
           "search-1b" demo_tracker
           (mkTask (Some demo_results) (Some "completed") None None None None None)
           demo_results simple_url_path None "download-1b").
  - exact demo_tracker_entry.
  - reflexivity.
Defined.

(** In the witnesses the two hits the original search had returned for
    "CT-100" are excluded for every requested part, and the third hit is
    returned. *)
Lemma reprocess_demo_images :
  match fst (Reprocess.reprocess_part_images three_hit_provider
               (mkReprocessRequest "search-1" ["CT-100"; "LC1D09"] None None)
               "search-1b" demo_tracker) with
  | Ok response =>
      map (fun r => map ir_original_url (psr_images r)) (sr_results response)
      = [["https://c.example/new.jpg"]; ["https://c.example/new.jpg"]]
  | HTTPException _ _ => False
  end.
Proof. vm_compute. reflexivity. Qed.

End ReprocessEndpointExamples.

(** ** The manufacturer a re-process recovers *)

Section ManufacturerGuess.
Import PyStr SearchService Reprocess.

Lemma append_snoc (d : string) (c : ascii) (w : string) :
  (d +:+ String c "") +:+ w = d +:+ String c w.
Proof.
  induction d as [|a d IH]; [reflexivity|].
  change (String a ((d +:+ String c "") +:+ w) = String a (d +:+ String c w)).
  now f_equal.
Qed.

Lemma has_space_app (s t : string) :
  has_space (s +:+ t) = has_space s || has_space t.
Proof.
  induction s as [|c s IH]; simpl; [reflexivity|]. rewrite IH. apply orb_assoc.
Qed.

(** A run without whitespace is read into the current word. *)
Lemma split_go_word (w s : string) :
  has_space w = false ->
  forall cur,
    split_go cur (w +:+ s)
    = split_go (match w with
                | EmptyString => cur
                | String _ _ => Some (default "" cur +:+ w)
                end) s.
Proof.
  induction w as [|c w IH]; intros Hw cur; [reflexivity|].
  simpl in Hw. apply orb_false_iff in Hw as [Hc Hw].
  simpl. rewrite Hc, (IH Hw). destruct w as [|c' w']; [reflexivity|].
  cbn [default]. unfold id. now rewrite append_snoc.
Qed.

(** A first word followed by a space is the first element of the split. *)
Lemma split_go_first_word (w rest : string) :
  w <> "" -> has_space w = false ->
  split_go None (w +:+ String " " rest) = w :: split_go None rest.
Proof.
  intros Hne Hw. rewrite (split_go_word w _ Hw).
  destruct w; [congruence|]. reflexivity.
Qed.

Lemma has_space_quoted (s : string) : has_space s = false -> has_space (quoted s) = false.
Proof.
  intros Hs. unfold quoted. rewrite !has_space_app, Hs. reflexivity.
Qed.

Lemma quoted_nonempty (s : string) : quoted s <> "".
Proof. unfold quoted, dquote. simpl. discriminate. Qed.

(** The second word of a query that begins with the quoted part number and
    one more word. *)
Lemma split_quoted_query (part_number word tail : string) :
  has_space part_number = false -> word <> "" -> has_space word = false ->
  exists more,
    split (quoted part_number +:+ " " +:+ word +:+ String " " tail)
    = quoted part_number :: word :: more.
Proof.
  intros Hp Hne Hw. unfold split.
  change (" " +:+ word +:+ String " " tail)
    with (String " " (word +:+ String " " tail)).
  rewrite split_go_first_word
    by (auto using quoted_nonempty, has_space_quoted).
  rewrite split_go_first_word by assumption. eauto.
Qed.

Lemma guess_manufacturer_other (part_number : string) (m : option string)
    (r : PartSearchResult) :
  psr_part_number r <> part_number -> guess_manufacturer part_number m r = m.
Proof.
  intros Hne. unfold guess_manufacturer.
  destruct (String.eqb_spec (psr_part_number r) part_number); [congruence|].
  reflexivity.
Qed.

Lemma original_manufacturer_last (part_number : string)
    (before after : list PartSearchResult) (r : PartSearchResult)
    (guess : option string) :
  (forall m, guess_manufacturer part_number m r = guess) ->
  Forall (fun r' => psr_part_number r' <> part_number) after ->
  original_manufacturer (before ++ r :: after) part_number = guess.
Proof.
  intros Hr Hafter. unfold original_manufacturer.
  rewrite fold_left_app. simpl. rewrite Hr.
  induction Hafter as [|r' after Hr' Hafter IH]; simpl; [reflexivity|].
  now rewrite guess_manufacturer_other.
Qed.

Lemma guess_from_query (part_number second : string) (more : list string)
    (r : PartSearchResult) (m : option string) :
  psr_part_number r = part_number ->
  split (psr_search_query r) = quoted part_number :: second :: more ->
  guess_manufacturer part_number m r
  = if mem second ["OEM"; "part"; "component"] then None else Some second.
Proof.
  intros Hp Hsplit. unfold guess_manufacturer.
  rewrite Hp, String.eqb_refl, Hsplit.
  destruct (psr_search_query r); [discriminate Hsplit|]. reflexivity.
Qed.

(** [build_search_query] by kind of part. *)
Lemma build_search_query_by_kind (part_number : string)
    (manufacturer : option string) :
  build_search_query part_number manufacturer =
  let m := default "" manufacturer in
  if industrial_part part_number then
    if is_truthy_opt manufacturer
    then quoted part_number +:+ " " +:+ m +:+ " electrical component industrial"
    else quoted part_number +:+ " electrical component transformer relay"
  else if automotive_part part_number then
    if is_truthy_opt manufacturer
    then quoted part_number +:+ " " +:+ quoted m +:+ " genuine part"
    else quoted part_number +:+ " genuine OEM part"
  else
    if is_truthy_opt manufacturer
    then quoted part_number +:+ " " +:+ m +:+ " part component"
    else quoted part_number +:+ " industrial part component".
Proof. reflexivity. Qed.

(** X8. Re-process takes the manufacturer from the second word of the
    original query.  When the part number has no whitespace and the last
    original result of the part carries the first-pass query built with a
    non-empty manufacturer that has no whitespace and is not one of the
    words "OEM", "part", "component", the value recovered is that
    manufacturer, except for a part of the automotive kind, whose template
    quotes the manufacturer: there the value recovered is the manufacturer
    in double quotes. *)
Theorem reprocess_recovers_manufacturer (part_number manufacturer : string)
    (before after : list PartSearchResult) (r : PartSearchResult) :
  has_space part_number = false ->
  manufacturer <> "" -> has_space manufacturer = false ->
  mem manufacturer ["OEM"; "part"; "component"] = false ->
  first_pass_result part_number (Some manufacturer) r ->
  Forall (fun r' => psr_part_number r' <> part_number) after ->
  original_manufacturer (before ++ r :: after) part_number
  = Some (if negb (industrial_part part_number) && automotive_part part_number
          then quoted manufacturer else manufacturer).
Proof.
  intros Hp Hne Hm Hstop [Hpn Hq] Hafter.
  apply original_manufacturer_last; [|exact Hafter]. intros m.
  assert (Htruthy : truthy manufacturer = true) by now apply truthy_nonempty.
  rewrite build_search_query_by_kind in Hq. cbv zeta in Hq.
  cbn [is_truthy_opt default] in Hq. unfold id in Hq. rewrite Htruthy in Hq.
  destruct (industrial_part part_number); simpl.
  - destruct (split_quoted_query part_number manufacturer
                "electrical component industrial" Hp Hne Hm) as [more Hsplit].
    rewrite (guess_from_query part_number manufacturer more r m Hpn)
      by (rewrite Hq; exact Hsplit).
    now rewrite Hstop.
  - destruct (automotive_part part_number).
    + destruct (split_quoted_query part_number (quoted manufacturer)
                  "genuine part" Hp (quoted_nonempty _) (has_space_quoted _ Hm))
        as [more Hsplit].
      rewrite (guess_from_query part_number (quoted manufacturer) more r m Hpn)
        by (rewrite Hq; exact Hsplit).
      reflexivity.
    + destruct (split_quoted_query part_number manufacturer
                  "part component" Hp Hne Hm) as [more Hsplit].
      rewrite (guess_from_query part_number manufacturer more r m Hpn)
        by (rewrite Hq; exact Hsplit).
      now rewrite Hstop.
Qed.

(** X9. When the first-pass search of a part whose number has no
    whitespace was made without a manufacturer, the second word of the query
    of its last original result is a word of the template, and re-process
    passes that word on as the manufacturer: "electrical" for a part of the
    industrial kind, "genuine" for one of the automotive kind, "industrial"
    otherwise. *)
Theorem reprocess_guesses_template_word (part_number : string)
    (before after : list PartSearchResult) (r : PartSearchResult) :
  has_space part_number = false ->
  first_pass_result part_number None r ->
  Forall (fun r' => psr_part_number r' <> part_number) after ->
  original_manufacturer (before ++ r :: after) part_number
  = Some (if industrial_part part_number then "electrical"
          else if automotive_part part_number then "genuine" else "industrial").
Proof.
  intros Hp [Hpn Hq] Hafter.
  apply original_manufacturer_last; [|exact Hafter]. intros m.
  rewrite build_search_query_by_kind in Hq. cbv zeta in Hq.
  cbn [is_truthy_opt] in Hq.
  assert (Hword : forall word tail, word <> "" -> has_space word = false ->
            mem word ["OEM"; "part"; "component"] = false ->
            psr_search_query r = quoted part_number +:+ " " +:+ word +:+ String " " tail ->
            guess_manufacturer part_number m r = Some word).
  { intros word tail Hne Hw Hstop Hquery.
    destruct (split_quoted_query part_number word tail Hp Hne Hw) as [more Hsplit].
    rewrite (guess_from_query part_number word more r m Hpn)
      by (rewrite Hquery; exact Hsplit).
    now rewrite Hstop. }
  destruct (industrial_part part_number).
  - apply (Hword "electrical" "component transformer relay");
      [discriminate | reflexivity | reflexivity | exact Hq].
  - destruct (automotive_part part_number).
    + apply (Hword "genuine" "OEM part");
        [discriminate | reflexivity | reflexivity | exact Hq].
    + apply (Hword "industrial" "part component");
        [discriminate | reflexivity | reflexivity | exact Hq].
Qed.

End ManufacturerGuess.

Section ManufacturerGuessExamples.
Import PyStr SearchService Reprocess.

Lemma reprocess_recovers_manufacturer_witness :
  original_manufacturer
    ([] ++ search_part_images two_hit_provider "LC1D09" (Some "Schneider") 4 :: [])
    "LC1D09"
  = Some (if negb (industrial_part "LC1D09") && automotive_part "LC1D09"
          then quoted "Schneider" else "Schneider").
Proof.
  apply (reprocess_recovers_manufacturer "LC1D09" "Schneider" [] []
           (search_part_images two_hit_provider "LC1D09" (Some "Schneider") 4));
    try reflexivity; try discriminate.
  - split; reflexivity.
  - constructor.
Defined.

Lemma reprocess_guesses_template_word_witness :
  original_manufacturer
    ([] ++ search_part_images two_hit_provider "CT-100" None 4 :: []) "CT-100"
  = Some (if industrial_part "CT-100" then "electrical"
          else if automotive_part "CT-100" then "genuine" else "industrial").
Proof.
  apply (reprocess_guesses_template_word "CT-100" [] []
           (search_part_images two_hit_provider "CT-100" None 4));
    try reflexivity.
  - split; reflexivity.
  - constructor.
Defined.

End ManufacturerGuessExamples.

(** ** Fetcher and batch: outcomes *)

Section FetchOutcomes.
Import PyStr Fetcher Archiver Endpoints.
Variable image_opens : list byte -> bool.

Lemma download_image_not_200 (status : Z) (read : exn + list byte)
    (url filename : string) (fs : storage) :
  status <> 200 ->
  download_image image_opens (GetResponse status read) url filename fs
  = (failure url filename ("HTTP " +:+ pretty status), fs).
Proof.
  intros Hne. unfold download_image.
  replace (status =? 200) with false by lia. reflexivity.
Qed.

(** X10. In a chunk whose file names are pairwise distinct, and whatever
    the order in which the event loop runs its fetches, a fetch succeeds
    exactly when its response has status 200, its body is read and written
    to the local file, has more than 1000 bytes and opens as an image; the
    result then records the part number, the URL, the filename and the size
    of the body, and when the chunk is over the file holds the body. *)
Theorem fetch_succeeds_iff (max_concurrent : nat) (net : nat -> get_outcome)
    (first : nat) (chunk : list (string * string * string)) (fs fs' : storage)
    (results : list DownloadResult) (i : nat) (part_number url filename : string)
    (result : DownloadResult) :
  NoDup (map item_filename chunk) ->
  Gather.gathered image_opens max_concurrent net first chunk fs results fs' ->
  chunk !! i = Some (part_number, url, filename) ->
  results !! i = Some result ->
  (dr_success result = true <->
   exists content,
     net (first + i)%nat = GetResponse 200 (inr content) /\
     1000 < Z.of_nat (length content) /\ image_opens content = true) /\
  (forall content,
     net (first + i)%nat = GetResponse 200 (inr content) ->
     1000 < Z.of_nat (length content) -> image_opens content = true ->
     result = mkDownloadResult part_number url filename true None
                (Some (Z.of_nat (length content))) /\
     fs' !! filename = Some (Blob content)).
Proof.
  intros Hnd Hrun Hitem Hresult.
  destruct (gathered_sequential image_opens max_concurrent net first chunk fs
              results fs' Hnd Hrun) as [-> ->].
  rewrite (batch_results_lookup image_opens net chunk first i part_number url
             filename fs fs Hitem) in Hresult.
  injection Hresult as <-.
  rewrite (batch_own_file image_opens net chunk Hnd first i part_number url
             filename fs Hitem).
  rewrite semaphore_stamps. cbn [fst snd]. unfold Gather.stamp. cbn [dr_success].
  destruct (net (first + i)%nat) as [e|status [e|content]|content e].
  - split; [|intros ? [=]]. split; [destruct e; discriminate|].
    intros (? & [=] & _).
  - split; [|intros ? [=]]. split; [|intros (? & [=] & _)].
    destruct (Z.eq_dec status 200) as [->|Hne].
    + destruct e; discriminate.
    + rewrite download_image_not_200 by exact Hne. discriminate.
  - destruct (Z.eq_dec status 200) as [->|Hne].
    + rewrite download_image_200.
      destruct (Z.of_nat (length content) >? 1000) eqn:Hlen.
      * destruct (image_opens content) eqn:Hopen.
        -- split.
           ++ split; [|reflexivity]. intros _. exists content.
              repeat split; trivial. lia.
           ++ intros ? [= <-] _ _. cbn. split; [reflexivity|].
              apply lookup_insert_eq.
        -- split.
           ++ split; [discriminate|]. intros (? & [= <-] & _ & H). congruence.
           ++ intros ? [= <-] _ H. congruence.
      * split.
        -- split; [discriminate|]. intros (? & [= <-] & H & _). lia.
        -- intros ? [= <-] H _. lia.
    + rewrite download_image_not_200 by exact Hne.
      split; [|intros ? [= -> _]; contradiction].
      split; [discriminate|]. intros (? & [= -> _] & _). contradiction.
  - split; [|intros ? [=]]. split; [destruct e; discriminate|].
    intros (? & [=] & _).
Qed.

Lemma download_image_well_formed (reply : get_outcome) (url filename : string)
    (fs : storage) :
  well_formed_result (fst (download_image image_opens reply url filename fs)).
Proof.
  unfold well_formed_result.
  destruct reply as [e|status [e|content]|content e];
    [| | |right; simpl; destruct e; simpl; eauto].
  - right. simpl. destruct e; simpl; eauto.
  - right. destruct (Z.eq_dec status 200) as [->|Hne].
    + simpl. destruct e; simpl; eauto.
    + rewrite download_image_not_200 by exact Hne. simpl. eauto.
  - destruct (Z.eq_dec status 200) as [->|Hne].
    + rewrite download_image_200.
      destruct (Z.of_nat (length content) >? 1000) eqn:Hlen;
        [destruct (image_opens content)|]; simpl; eauto.
      left. repeat split. eexists. split; [reflexivity | lia].
    + right. rewrite download_image_not_200 by exact Hne. simpl. eauto.
Qed.

Lemma download_with_semaphore_well_formed (reply : get_outcome)
    (part_number url filename : string) (fs : storage) :
  well_formed_result
    (fst (download_with_semaphore image_opens reply part_number url filename fs)).
Proof.
  pose proof (download_image_well_formed reply url filename fs) as H.
  unfold download_with_semaphore.
  destruct (download_image image_opens reply url filename fs) as [r fs'].
  exact H.
Qed.

(** X11. A batch returns exactly one result per work item, in submission
    order, each under the part number, URL and filename of its item; and
    every result is either a success with the body size (above 1000 bytes)
    and no error message, or a failure with an error message and no size. *)
Theorem batch_results_one_per_item (net : nat -> get_outcome)
    (todo : list (string * string * string)) (fs : storage) :
  map (fun r => (dr_part_number r, dr_image_url r, dr_filename r))
      (fst (download_images_batch image_opens net 0 todo fs)) = todo /\
  length (fst (download_images_batch image_opens net 0 todo fs)) = length todo /\
  Forall well_formed_result (fst (download_images_batch image_opens net 0 todo fs)).
Proof.
  pose proof (batch_results_shape image_opens net todo 0%nat fs) as Hshape.
  split; [exact Hshape|]. split.
  - rewrite <- Hshape at 2. now rewrite length_map.
  - clear Hshape. generalize 0%nat. revert fs.
    induction todo as [|[[p u] f] todo IH]; intros fs i; [constructor|].
    rewrite download_images_batch_cons. cbv zeta. simpl.
    constructor; [apply download_with_semaphore_well_formed | apply IH].
Qed.

Lemma length_append (s t : string) :
  String.length (s +:+ t) = (String.length s + String.length t)%nat.
Proof. induction s as [|c s IH]; simpl; [reflexivity | now rewrite IH]. Qed.

(** X13. A background download job changes no file of the download
    directory other than those named in its work list and its own archive,
    and no tracker entry other than its own. *)
Theorem job_touches_only_its_own (net : nat -> get_outcome) (flt : fault)
    (download_id : string) (todo : list (string * string * string))
    (download_tasks : tracker) (fs : storage) :
  let run := download_images_background image_opens net flt download_id todo
               download_tasks fs in
  (forall other : string,
     ~ In other (map item_filename todo) -> other <> zip_name download_id ->
     snd run !! other = fs !! other) /\
  (forall other : string,
     other <> download_id ->
     fst (fst run) !! other = download_tasks !! other /\
     snd (fst run) !! other = download_tasks !! other).
Proof.
  cbv zeta. split.
  - intros other Hother Hzip. unfold download_images_background.
    destruct (download_tasks !! download_id); [|reflexivity].
    unfold run_job.
    pose proof (batch_other_files image_opens net todo other Hother 0%nat fs)
      as Hbatch.
    destruct flt as [|msg|msg]; [| reflexivity |];
      destruct (download_images_batch image_opens net 0 todo fs) as [results fs1];
      simpl in Hbatch;
      destruct (List.filter dr_success results) as [|r rs]; simpl; trivial.
    unfold zip_name in Hzip. rewrite !lookup_insert_ne by congruence. exact Hbatch.
  - intros other Hne.
    apply (background_keeps_entry image_opens net flt download_id other
             todo download_tasks fs).
    congruence.
Qed.

End FetchOutcomes.

Section FetchOutcomeExamples.

Import PyStr Fetcher.

Lemma fetch_succeeds_iff_witness :
  (dr_success
     (mkDownloadResult "CT-100" "https://b.example/ct100.png" "CT-100_2.png"
        true None (Some 2048)) = true <->
   exists content,
     always_gif (0 + 1)%nat = GetResponse 200 (inr content) /\
     1000 < Z.of_nat (length content) /\ opens_pixel_gif content = true) /\
  (forall content,
     always_gif (0 + 1)%nat = GetResponse 200 (inr content) ->
     1000 < Z.of_nat (length content) -> opens_pixel_gif content = true ->
     mkDownloadResult "CT-100" "https://b.example/ct100.png" "CT-100_2.png"
       true None (Some 2048)
     = mkDownloadResult "CT-100" "https://b.example/ct100.png" "CT-100_2.png"
         true None (Some (Z.of_nat (length content))) /\
     snd (download_images_batch opens_pixel_gif always_gif 0 demo_todo ∅)
       !! "CT-100_2.png" = Some (Blob content)).
Proof.
  apply (fetch_succeeds_iff opens_pixel_gif 3 always_gif 0 demo_todo ∅
           (snd (download_images_batch opens_pixel_gif always_gif 0 demo_todo ∅))
           (fst (download_images_batch opens_pixel_gif always_gif 0 demo_todo ∅))
           1 "CT-100" "https://b.example/ct100.png" "CT-100_2.png").
  - apply (bool_decide_unpack _). vm_compute. exact I.
  - apply gathered_in_order. lia.
  - reflexivity.
  - vm_compute. reflexivity.
Defined.

End FetchOutcomeExamples.

(** ** Generated file names: characters and extension *)

Section FilenameShape.
Import PyStr Archiver.

Lemma append_assoc3 (s t u : string) : (s +:+ t) +:+ u = s +:+ t +:+ u.
Proof.
  induction s as [|c s IH]; [reflexivity|].
  change (String c ((s +:+ t) +:+ u) = String c (s +:+ t +:+ u)). now f_equal.
Qed.

Lemma all_chars_app (p : ascii -> bool) (s t : string) :
  all_chars p (s +:+ t) = all_chars p s && all_chars p t.
Proof.
  induction s as [|c s IH]; simpl; [reflexivity|]. rewrite IH. apply andb_assoc.
Qed.

Lemma all_chars_of_has_char (p : ascii -> bool) (s : string) :
  (forall c, p c = false -> has_char c s = false) -> all_chars p s = true.
Proof.
  induction s as [|c s IH]; intros H; simpl; [reflexivity|].
  apply andb_true_iff. split.
  - destruct (p c) eqn:Hp; [reflexivity|].
    specialize (H c Hp). simpl in H. now rewrite Ascii.eqb_refl in H.
  - apply IH. intros d Hd. specialize (H d Hd). simpl in H.
    now apply orb_false_iff in H.
Qed.

Lemma has_char_of_all_chars (p : ascii -> bool) (s : string) (c : ascii) :
  all_chars p s = true -> p c = false -> has_char c s = false.
Proof.
  induction s as [|d s IH]; simpl; intros Hall Hc; [reflexivity|].
  apply andb_true_iff in Hall as [Hd Hall]. rewrite (IH Hall Hc), orb_false_r.
  apply Ascii.eqb_neq. intros ->. congruence.
Qed.

Lemma clean_char_safe (c : ascii) : safe_char (clean_char c) = true.
Proof.
  unfold clean_char. fold (safe_char c).
  destruct (safe_char c) eqn:Hc; [exact Hc | reflexivity].
Qed.

Lemma clean_char_fixes_safe (c : ascii) : safe_char c = true -> clean_char c = c.
Proof. unfold clean_char. fold (safe_char c). now intros ->. Qed.

Lemma clean_part_safe_chars (part_number : string) :
  all_chars safe_char (clean_part part_number) = true.
Proof.
  unfold clean_part. induction part_number as [|c s IH]; simpl; [reflexivity|].
  now rewrite clean_char_safe, IH.
Qed.

(** X14. Cleaning a part number keeps its length and yields only
    alphanumeric characters (in the sense of [str.isalnum]) and the
    characters ".", "_" and "-"; it leaves a part number made of such
    characters unchanged, and cleaning twice is cleaning once. *)
Theorem clean_part_safe (part_number : string) :
  String.length (clean_part part_number) = String.length part_number /\
  all_chars safe_char (clean_part part_number) = true /\
  (all_chars safe_char part_number = true -> clean_part part_number = part_number) /\
  clean_part (clean_part part_number) = clean_part part_number.
Proof.
  unfold clean_part.
  induction part_number as [|c s (IH1 & IH2 & IH3 & IH4)]; simpl;
    [repeat split; reflexivity|].
  repeat split.
  - now rewrite IH1.
  - now rewrite clean_char_safe, IH2.
  - intros H. apply andb_true_iff in H as [Hc Hs].
    now rewrite (clean_char_fixes_safe c Hc), (IH3 Hs).
  - rewrite IH4. now rewrite (clean_char_fixes_safe _ (clean_char_safe c)).
Qed.

Lemma digit_is_safe (c : ascii) : is_digit c = true -> safe_char c = true.
Proof. unfold safe_char, isalnum. intros ->. now rewrite orb_true_r. Qed.

Lemma pretty_nat_safe (n : nat) : all_chars safe_char (pretty n) = true.
Proof.
  apply all_chars_of_has_char. intros c Hc.
  apply has_char_pretty_nat.
  destruct (is_digit c) eqn:Hd; [|reflexivity].
  apply digit_is_safe in Hd. congruence.
Qed.

Lemma last_dot_suffix_none (s : string) :
  has_char "." s = false -> last_dot_suffix s = None.
Proof.
  induction s as [|c s IH]; cbn [last_dot_suffix has_char]; [reflexivity|].
  intros H. apply orb_false_iff in H as [Hc Hs].
  now rewrite (IH Hs), (Ascii.eqb_sym c "."), Hc.
Qed.

Lemma last_dot_suffix_app (x letters : string) :
  has_char "." letters = false ->
  last_dot_suffix (x +:+ String "." letters) = Some (String "." letters).
Proof.
  intros H. induction x as [|c x IH].
  - change ("" +:+ String "." letters) with (String "." letters).
    unfold last_dot_suffix; fold last_dot_suffix.
    now rewrite (last_dot_suffix_none letters H).
  - change (String c x +:+ String "." letters)
      with (String c (x +:+ String "." letters)).
    unfold last_dot_suffix; fold last_dot_suffix. now rewrite IH.
Qed.

Variable urlparse_path : string -> option string.

(** Every allowed extension is a dot followed by one or more letters. *)
Lemma extension_shape (url : string) :
  exists letters,
    url_extension urlparse_path url = String "." letters /\
    letters <> "" /\ has_char "." letters = false /\
    all_chars safe_char (String "." letters) = true.
Proof.
  pose proof (url_extension_allowed urlparse_path url) as Hin.
  repeat (destruct Hin as [<-|Hin];
          [eexists; repeat split; discriminate|]).
  destruct Hin.
Qed.

Lemma generated_filename_shape_aux (part_number : string) (image_index : nat)
    (url : string) :
  exists c x letters,
    generate_filename urlparse_path part_number image_index url
    = String c (x +:+ String "." letters) /\
    url_extension urlparse_path url = String "." letters /\
    letters <> "" /\ has_char "." letters = false /\
    has_char "/" (generate_filename urlparse_path part_number image_index url) = false.
Proof.
  assert (Hsafe : all_chars safe_char
            (generate_filename urlparse_path part_number image_index url) = true).
  { unfold generate_filename.
    destruct (extension_shape url) as (letters & -> & _ & _ & Hext).
    rewrite !all_chars_app, clean_part_safe_chars, pretty_nat_safe, Hext.
    reflexivity. }
  assert (Hslash : has_char "/"
            (generate_filename urlparse_path part_number image_index url) = false)
    by now apply (has_char_of_all_chars safe_char).
  destruct (extension_shape url) as (letters & Hext & Hne & Hdot & _).
  unfold generate_filename in *. rewrite Hext in *.
  destruct (clean_part part_number) as [|c cs].
  - exists "_"%char, (pretty (image_index + 1)%nat), letters.
    repeat split; trivial.
  - exists c, (cs +:+ "_" +:+ pretty (image_index + 1)%nat), letters.
    repeat split; trivial.
    change (String c cs +:+ "_" +:+ pretty (image_index + 1)%nat +:+ String "." letters)
      with (String c (cs +:+ "_" +:+ pretty (image_index + 1)%nat +:+ String "." letters)).
    f_equal. now rewrite !append_assoc3.
Qed.

(** X15. A generated file name is made of alphanumeric characters (in the
    sense of [str.isalnum]) and the characters ".", "_" and "-" only; in
    particular it is not empty and contains no path separator, so it names
    a file directly in the download directory. *)
Theorem generated_filename_is_safe (part_number : string) (image_index : nat)
    (url : string) :
  generate_filename urlparse_path part_number image_index url <> "" /\
  all_chars safe_char (generate_filename urlparse_path part_number image_index url)
  = true /\
  has_char "/" (generate_filename urlparse_path part_number image_index url) = false.
Proof.
  assert (Hsafe : all_chars safe_char
            (generate_filename urlparse_path part_number image_index url) = true).
  { unfold generate_filename.
    destruct (extension_shape url) as (letters & -> & _ & _ & Hext).
    rewrite !all_chars_app, clean_part_safe_chars, pretty_nat_safe, Hext.
    reflexivity. }
  split; [apply generate_filename_nonempty|]. split; [exact Hsafe|].
  now apply (has_char_of_all_chars safe_char).
Qed.

(** X16. The archiver reads back from a generated file name the extension
    the generator put in: the suffix of the name is the extension chosen for
    the URL, one of .jpg, .jpeg, .png, .webp and .gif. *)
Theorem generated_filename_extension (part_number : string) (image_index : nat)
    (url : string) :
  path_suffix (generate_filename urlparse_path part_number image_index url)
  = url_extension urlparse_path url /\
  In (url_extension urlparse_path url) allowed_extensions.
Proof.
  split; [|apply url_extension_allowed].
  destruct (generated_filename_shape_aux part_number image_index url)
    as (c & x & letters & Hname & Hext & Hne & Hdot & Hslash).
  unfold path_suffix.
  rewrite (path_name_plain _ Hslash);
    [| rewrite Hname; discriminate
     | rewrite Hname; intros [= _ H]; destruct x; discriminate H].
  rewrite Hname, Hext.
  rewrite (last_dot_suffix_app x letters Hdot).
  destruct letters; [congruence|]. reflexivity.
Qed.

(** X17. Two generated file names are equal exactly when they were built
    from part numbers with the same cleaned form, the same image index and
    URLs with the same chosen extension. *)
Theorem generated_filenames_equal_iff (p p' : string) (i i' : nat) (u u' : string) :
  generate_filename urlparse_path p i u = generate_filename urlparse_path p' i' u' <->
  clean_part p = clean_part p' /\ i = i' /\
  url_extension urlparse_path u = url_extension urlparse_path u'.
Proof.
  split.
  - intros Heq. destruct (generate_filename_inj urlparse_path _ _ _ _ _ _ Heq)
      as [Hc Hi].
    split; [exact Hc|]. split; [exact Hi|].
    unfold generate_filename in Heq. rewrite Hc, Hi in Heq.
    now repeat apply (inj (String.append _)) in Heq.
  - intros (Hc & -> & He). unfold generate_filename. now rewrite Hc, He.
Qed.

End FilenameShape.

Section CharacterExamples.
Import PyStr Archiver Scorer.

(** Characters beyond ASCII: the part number U-umlaut "nit-5" (the letter is
    the character of code 220) is kept as it is by the cleaning, its
    lower-case form has the letter of code 252, and a title with either
    form matches it. *)
Lemma umlaut_part_number :
  clean_part (String (chr 220) "nit-5") = String (chr 220) "nit-5" /\
  lower (String (chr 220) "nit-5") = String (chr 252) "nit-5" /\
  part_match (lower (String (chr 220) "NIT-5 relay")) (String (chr 252) "nit-5") 0
  = 50.
Proof. repeat split; vm_compute; reflexivity. Qed.

(** A path that ends in a separator, or in a separator and a dot, has the
    suffix of its last named component. *)
Lemma suffix_of_trailing_slash :
  map path_suffix ["/img/ct100.png/"; "/img/ct100.png//"; "/img/ct100.png/."]
  = [".png"; ".png"; ".png"] /\
  url_extension simple_url_path "https://a.example/img/ct100.png/" = ".png".
Proof. split; vm_compute; reflexivity. Qed.

(** The names the archive library stores for the part numbers "", "." and
    "..", and for an ordinary one. *)
Lemma stored_names_of_odd_owners :
  map (fun owner =>
         entry_name owner 0
           (mkDownloadResult owner "https://a.example/x.jpg"
              (clean_part owner +:+ "_1.jpg") true None (Some 2048)))
      [""; "."; ".."; "CT-100"]
  = ["_1.jpg"; "._1.jpg"; "../.._1.jpg"; "CT-100/CT-100_1.jpg"].
Proof. vm_compute. reflexivity. Qed.

End CharacterExamples.

(** ** Archiver: what an archive can hold *)

Section ArchiveContents.
Import PyStr Archiver.

Lemma part_groups_filter (l : list DownloadResult) :
  part_groups l = fold_left group_add (List.filter archivable l) [].
Proof.
  unfold part_groups. generalize (@nil (string * list DownloadResult)).
  induction l as [|r l IH]; intros groups; [reflexivity|].
  simpl. fold (archivable r). destruct (archivable r); simpl; apply IH.
Qed.

Lemma indexed_cells_length {A B : Type} (l : list A) :
  forall f : nat -> A -> list B,
    (forall i x, (length (f i x) <= 1)%nat) ->
    (length (concat (imap f l)) <= length l)%nat.
Proof.
  induction l as [|x l IH]; intros f Hf; [simpl; lia|].
  rewrite imap_cons. simpl. rewrite length_app.
  specialize (IH (f ∘ S) (fun i y => Hf (S i) y)). specialize (Hf 0%nat x). lia.
Qed.

Lemma group_entries_length (fs : storage) (owner : string)
    (rs : list DownloadResult) :
  (length (group_entries fs owner rs) <= length rs)%nat.
Proof.
  unfold group_entries. apply indexed_cells_length.
  intros i r. destruct (fs !! dr_filename r); simpl; lia.
Qed.

Lemma group_entries_member (fs : storage) (owner name : string) (f : file_obj)
    (rs : list DownloadResult) :
  In (name, f) (group_entries fs owner rs) ->
  exists i r, rs !! i = Some r /\ fs !! dr_filename r = Some f /\
              name = entry_name owner i r.
Proof.
  unfold group_entries. intros Hin. apply in_concat in Hin as (cell & Hcell & Hin).
  apply list_elem_of_In, elem_of_lookup_imap in Hcell as (i & r & -> & Hr).
  exists i, r. destruct (fs !! dr_filename r) as [g|]; [|destruct Hin].
  destruct Hin as [[= <- <-]|[]]. auto.
Qed.

(** X18. Whatever the state of the download directory, an archive never
    holds more entries than there are successful results, and each of its
    entries is the file found under the filename of a successful result,
    stored as sanitizedOwner/sanitizedOwner_<i>.<ext> for the position [i]
    of that result among the results of its owner; when the sanitized
    owner is empty or a single dot, the archive library stores the name
    without the folder part, as sanitizedOwner_<i>.<ext>. *)
Theorem archive_entries_sound (fs : storage) (l : list DownloadResult) :
  (length (zip_entries fs l) <= length (List.filter dr_success l))%nat /\
  forall name f,
    In (name, f) (zip_entries fs l) ->
    exists r i,
      In r l /\ dr_success r = true /\ dr_filename r <> "" /\
      fs !! dr_filename r = Some f /\
      owned_by (dr_part_number r) (List.filter archivable l) !! i = Some r /\
      name = stored_entry_name (dr_part_number r) (i + 1) (entry_extension r).
Proof.
  unfold zip_entries. rewrite part_groups_filter.
  set (l' := List.filter archivable l). split.
  - assert (Hsize : (length (flat_map (fun g => group_entries fs (fst g) (snd g))
                               (fold_left group_add l' []))
                     <= groups_size (fold_left group_add l' []))%nat).
    { unfold groups_size.
      induction (fold_left group_add l' []) as [|[k rs] groups IH]; simpl; [lia|].
      rewrite length_app. pose proof (group_entries_length fs k rs). lia. }
    rewrite groups_size_fold in Hsize.
    assert (Hl' : (length l' <= length (List.filter dr_success l))%nat).
    { subst l'. clear. induction l as [|r l IH]; simpl; [lia|].
      unfold archivable at 1.
      destruct (dr_success r); simpl; [|exact IH].
      destruct (truthy (dr_filename r)); simpl; lia. }
    lia.
  - intros name f Hin. rewrite fold_group_add_spec in Hin.
    apply in_flat_map in Hin as ([k rs] & Hg & Hin). simpl in Hin.
    apply in_map_iff in Hg as (p & [= <- <-] & _).
    apply group_entries_member in Hin as (i & r & Hr & Hf & ->).
    assert (Hin : In r (owned_by p l'))
      by (apply list_elem_of_In, list_elem_of_lookup; eauto).
    apply filter_In in Hin as [Hin Hp]. apply String.eqb_eq in Hp. subst p.
    apply filter_In in Hin as [Hin Harch].
    apply andb_true_iff in Harch as [Hs Hn].
    exists r, i. repeat split; trivial;
      [now apply truthy_nonempty | apply entry_name_stored].
Qed.

End ArchiveContents.

(** ** Archive download and cleanup *)

Section MaintenanceFacts.
Import PyStr Fetcher Archiver Endpoints Maintenance.
Variable image_opens : list byte -> bool.

(** An archive never holds more entries than it was given results. *)
Lemma archive_entries_bound (fs : storage) (l : list DownloadResult) :
  (length (zip_entries fs l) <= length (List.filter dr_success l))%nat.
Proof.
  unfold zip_entries. rewrite part_groups_filter.
  set (l' := List.filter archivable l).
  assert (Hsize : (length (flat_map (fun g => group_entries fs (fst g) (snd g))
                             (fold_left group_add l' []))
                   <= groups_size (fold_left group_add l' []))%nat).
  { unfold groups_size.
    induction (fold_left group_add l' []) as [|[k rs] groups IH]; simpl; [lia|].
    rewrite length_app. pose proof (group_entries_length fs k rs). lia. }
  rewrite groups_size_fold in Hsize.
  assert (Hl' : (length l' <= length (List.filter dr_success l))%nat).
  { subst l'. clear. induction l as [|r l IH]; simpl; [lia|].
    unfold archivable at 1.
    destruct (dr_success r); simpl; [|exact IH].
    destruct (truthy (dr_filename r)); simpl; lia. }
  lia.
Qed.

Lemma filter_success_twice (l : list DownloadResult) :
  List.filter dr_success (List.filter dr_success l) = List.filter dr_success l.
Proof.
  induction l as [|r l IH]; simpl; [reflexivity|].
  destruct (dr_success r) eqn:Hr; simpl; [|exact IH]. now rewrite Hr, IH.
Qed.

(** The final tracker entry and storage of a job that runs without an
    exception escaping. *)
Lemma job_without_fault (net : nat -> get_outcome) (download_id : string)
    (todo : list (string * string * string)) (download_tasks : tracker)
    (fs : storage) (t : task_data) :
  download_tasks !! download_id = Some t ->
  let batch := download_images_batch image_opens net 0 todo fs in
  let successes := List.filter dr_success (fst batch) in
  let run := download_images_background image_opens net NoFault download_id todo
               download_tasks fs in
  snd (fst run)
  = alter (set_completed (Z.of_nat (length successes)) (fst batch)
             (match successes with
              | [] => None
              | _ :: _ => Some (zip_name download_id)
              end))
      download_id (alter set_processing download_id download_tasks) /\
  snd run
  = match successes with
    | [] => snd batch
    | _ :: _ =>
        <[zip_name download_id :=
            ZipArchive (zip_entries
                          (<[zip_name download_id := ZipArchive []]> (snd batch))
                          successes)]>
          (<[zip_name download_id := ZipArchive []]> (snd batch))
    end.
Proof.
  intros Hjob. cbv zeta. unfold download_images_background. rewrite Hjob.
  unfold run_job.
  destruct (download_images_batch image_opens net 0 todo fs) as [results fs1].
  simpl. destruct (List.filter dr_success results) as [|r rs]; simpl; auto.
Qed.

(** X19. After a download job that ran without an exception escaping, the
    download-zip endpoint serves the job's archive if at least one fetch
    succeeded, and answers 404 "ZIP file not available" if none did. *)
Theorem zip_download_after_job (net : nat -> get_outcome) (download_id : string)
    (todo : list (string * string * string)) (download_tasks : tracker)
    (fs : storage) (t : task_data) :
  download_tasks !! download_id = Some t ->
  let results := fst (download_images_batch image_opens net 0 todo fs) in
  let run := download_images_background image_opens net NoFault download_id todo
               download_tasks fs in
  ((exists r, In r results /\ dr_success r = true) ->
   exists entries,
     download_zip_file download_id (snd (fst run)) (snd run)
     = Ok (zip_name download_id, ZipArchive entries) /\
     (length entries <= length (List.filter dr_success results))%nat) /\
  ((forall r, In r results -> dr_success r = false) ->
   download_zip_file download_id (snd (fst run)) (snd run)
   = HTTPException 404 "ZIP file not available").
Proof.
  intros Hjob. cbv zeta.
  destruct (job_without_fault net download_id todo download_tasks fs t Hjob)
    as [-> ->].
  unfold download_zip_file. rewrite !lookup_alter_eq, Hjob. simpl.
  destruct (List.filter dr_success
              (fst (download_images_batch image_opens net 0 todo fs)))
    as [|s ss] eqn:Hsucc; simpl.
  - split; [|reflexivity].
    intros (r & Hin & Hok).
    assert (Hf : In r (List.filter dr_success
                         (fst (download_images_batch image_opens net 0 todo fs))))
      by (apply filter_In; auto).
    rewrite Hsucc in Hf. destruct Hf.
  - rewrite lookup_insert_eq. split.
    + intros _. eexists. split; [reflexivity|].
      pose proof (archive_entries_bound
                    (<[zip_name download_id := ZipArchive []]>
                       (snd (download_images_batch image_opens net 0 todo fs)))
                    (List.filter dr_success
                       (fst (download_images_batch image_opens net 0 todo fs))))
        as Hle.
      rewrite filter_success_twice, Hsucc in Hle. exact Hle.
    + intros Hnone. exfalso.
      assert (Hf : In s (List.filter dr_success
                           (fst (download_images_batch image_opens net 0 todo fs))))
        by (rewrite Hsucc; now left).
      apply filter_In in Hf as [Hin Hok]. rewrite (Hnone s Hin) in Hok. discriminate.
Qed.

(** X20. The id of a search job is no download job with an archive: right
    after a search-images call, download-zip answers its id with 404 "ZIP
    file not available", whatever the download directory holds. *)
Theorem zip_download_of_search_id
    (provider : SearchService.search_params -> SearchService.provider_outcome)
    (request : PartSearchRequest) (search_id : string) (download_tasks : tracker)
    (fs : storage) :
  download_zip_file search_id
    (snd (search_part_images provider request search_id download_tasks)) fs
  = HTTPException 404 "ZIP file not available".
Proof.
  unfold search_part_images, download_zip_file. simpl.
  now rewrite lookup_insert_eq.
Qed.

(** What the unlink loop leaves of the download directory. *)
Lemma unlink_results_lookup (results : list DownloadResult) (k : string) :
  forall fs : storage,
    unlink_results results fs !! k
    = if existsb (fun r => archivable r && String.eqb (dr_filename r) k) results
      then None else fs !! k.
Proof.
  unfold unlink_results.
  induction results as [|r results IH]; intros fs; [reflexivity|].
  simpl. rewrite IH. fold (archivable r).
  destruct (existsb _ results); [now rewrite orb_true_r|]. rewrite orb_false_r.
  destruct (archivable r); simpl; [|reflexivity].
  destruct (String.eqb_spec (dr_filename r) k) as [->|Hne].
  - apply lookup_delete_eq.
  - now apply lookup_delete_ne.
Qed.

(** X21. Cleanup of an id the tracker holds answers "Cleanup completed" and
    removes the entry and nothing else from the tracker: afterwards a status
    poll, an archive download and a second cleanup of that id all answer
    404, the second cleanup changing nothing. *)
Theorem cleanup_removes_entry (task_id : string) (download_tasks : tracker)
    (fs : storage) (t : task_data) :
  download_tasks !! task_id = Some t ->
  let cleaned := cleanup_task task_id download_tasks fs in
  fst (fst cleaned) = Ok "Cleanup completed" /\
  snd (fst cleaned) = delete task_id download_tasks /\
  get_download_status task_id (snd (fst cleaned))
  = HTTPException 404 "Download ID not found" /\
  download_zip_file task_id (snd (fst cleaned)) (snd cleaned)
  = HTTPException 404 "Download ID not found" /\
  cleanup_task task_id (snd (fst cleaned)) (snd cleaned)
  = (HTTPException 404 "Task not found", snd (fst cleaned), snd cleaned).
Proof.
  intros Hjob. cbv zeta.
  assert (Hclean : exists fs', cleanup_task task_id download_tasks fs
                   = (Ok "Cleanup completed", delete task_id download_tasks, fs')).
  { unfold cleanup_task. rewrite Hjob. eexists. reflexivity. }
  destruct Hclean as [fs' ->]. cbn [fst snd].
  unfold get_download_status, download_zip_file, cleanup_task.
  rewrite lookup_delete_eq. auto.
Qed.

(** X22. Cleanup of a job deletes the file of every successful result with
    a filename and the job's archive, and leaves every other file of the
    download directory as it is. *)
Theorem cleanup_removes_files (task_id : string) (download_tasks : tracker)
    (fs : storage) (t : task_data) :
  download_tasks !! task_id = Some t ->
  let fs' := snd (cleanup_task task_id download_tasks fs) in
  let results := default [] (td_results t) in
  let archive := default "" (default None (td_zip_file t)) in
  (forall r, In r results -> dr_success r = true -> dr_filename r <> "" ->
             fs' !! dr_filename r = None) /\
  (archive <> "" -> fs' !! archive = None) /\
  (forall k : string,
     (forall r, In r results -> dr_success r = true -> dr_filename r <> k) ->
     k <> archive -> fs' !! k = fs !! k).
Proof.
  intros Hjob. cbv zeta. unfold cleanup_task. rewrite Hjob. simpl.
  assert (Hun : forall k, (match td_results t with
                           | Some results => unlink_results results fs
                           | None => fs
                           end) !! k
                = if existsb (fun r => archivable r && String.eqb (dr_filename r) k)
                       (default [] (td_results t))
                  then None else fs !! k).
  { intros k. destruct (td_results t) as [results|]; simpl; [|reflexivity].
    apply unlink_results_lookup. }
  set (fs1 := match td_results t with
              | Some results => unlink_results results fs
              | None => fs
              end) in *.
  assert (Hzip : forall k,
            (match td_zip_file t with
             | Some (Some z) => if truthy z then delete z fs1 else fs1
             | _ => fs1
             end) !! k
            = if truthy (default "" (default None (td_zip_file t)))
                 && String.eqb (default "" (default None (td_zip_file t))) k
              then None else fs1 !! k).
  { intros k. destruct (td_zip_file t) as [[z|]|]; simpl; trivial.
    destruct (truthy z); simpl; [|reflexivity].
    destruct (String.eqb_spec z k) as [->|Hne].
    - apply lookup_delete_eq.
    - now apply lookup_delete_ne. }
  split; [|split].
  - intros r Hin Hok Hname. rewrite Hzip.
    destruct (_ && _); [reflexivity|]. rewrite Hun.
    assert (Hex : existsb (fun r' => archivable r'
                                      && String.eqb (dr_filename r') (dr_filename r))
                    (default [] (td_results t)) = true).
    { apply existsb_exists. exists r. split; [exact Hin|].
      unfold archivable. rewrite Hok, String.eqb_refl.
      apply truthy_nonempty in Hname. now rewrite Hname. }
    now rewrite Hex.
  - intros Hne. rewrite Hzip. apply truthy_nonempty in Hne.
    now rewrite Hne, String.eqb_refl.
  - intros k Hk Harchive. rewrite Hzip.
    destruct (String.eqb_spec (default "" (default None (td_zip_file t))) k)
      as [Heq|_]; [congruence|].
    rewrite andb_false_r, Hun.
    destruct (existsb _ _) eqn:Hex; [|reflexivity].
    apply existsb_exists in Hex as (r & Hin & Hr).
    apply andb_true_iff in Hr as [Harch Heq].
    apply andb_true_iff in Harch as [Hok _]. apply String.eqb_eq in Heq.
    exfalso. exact (Hk r Hin Hok Heq).
Qed.




End MaintenanceFacts.

Section MaintenanceExamples.
Import PyStr Fetcher Archiver Endpoints Maintenance.

Lemma zip_download_after_job_witness :
  let results := fst (download_images_batch opens_pixel_gif always_gif 0
                        demo_todo ∅) in
  let run := download_images_background opens_pixel_gif always_gif NoFault
               "download-1" demo_todo demo_created ∅ in
  ((exists r, In r results /\ dr_success r = true) ->
   exists entries,
     download_zip_file "download-1" (snd (fst run)) (snd run)
     = Ok (zip_name "download-1", ZipArchive entries) /\
     (length entries <= length (List.filter dr_success results))%nat) /\
  ((forall r, In r results -> dr_success r = false) ->
   download_zip_file "download-1" (snd (fst run)) (snd run)
   = HTTPException 404 "ZIP file not available").
Proof.
  apply (zip_download_after_job opens_pixel_gif always_gif "download-1"
           demo_todo demo_created ∅
           (mkTask None (Some "started") (Some 2) (Some 0) (Some []) None None)).
  apply lookup_insert_eq.
Defined.

Lemma cleanup_removes_entry_witness :
  let cleaned := cleanup_task "download-1" demo_created ∅ in
  fst (fst cleaned) = Ok "Cleanup completed" /\
  snd (fst cleaned) = delete "download-1" demo_created /\
  get_download_status "download-1" (snd (fst cleaned))
  = HTTPException 404 "Download ID not found" /\
  download_zip_file "download-1" (snd (fst cleaned)) (snd cleaned)
  = HTTPException 404 "Download ID not found" /\
  cleanup_task "download-1" (snd (fst cleaned)) (snd cleaned)
  = (HTTPException 404 "Task not found", snd (fst cleaned), snd cleaned).
Proof.
  apply (cleanup_removes_entry "download-1" demo_created ∅
           (mkTask None (Some "started") (Some 2) (Some 0) (Some []) None None)).
  apply lookup_insert_eq.
Defined.

Lemma cleanup_removes_files_witness :
  let t := mkTask None (Some "completed") (Some 2) (Some 1)
             (Some [mkDownloadResult "CT-100" "https://a.example/ct100.jpg"
                      "CT-100_1.jpg" true None (Some 2048);
                    mkDownloadResult "CT-100" "https://b.example/ct100.png"
                      "CT-100_2.png" false (Some "HTTP 404") None])
             (Some (Some "parts_images_download-1.zip")) None in
  let fs : storage :=
    <["CT-100_1.jpg" := Blob (gif_of_size 2048)]>
      (<["notes.txt" := Blob []]>
         (<["parts_images_download-1.zip" := ZipArchive []]> ∅)) in
  let fs' := snd (cleanup_task "download-1" (<["download-1" := t]> ∅) fs) in
  let results := default [] (td_results t) in
  let archive := default "" (default None (td_zip_file t)) in
  (forall r, In r results -> dr_success r = true -> dr_filename r <> "" ->
             fs' !! dr_filename r = None) /\
  (archive <> "" -> fs' !! archive = None) /\
  (forall k : string,
     (forall r, In r results -> dr_success r = true -> dr_filename r <> k) ->
     k <> archive -> fs' !! k = fs !! k).
Proof.
  intros t fs.
  apply (cleanup_removes_files "download-1" (<["download-1" := t]> ∅) fs t).
  apply lookup_insert_eq.
Defined.


End MaintenanceExamples.

(** ** The download-images endpoint *)

Section DownloadEndpointFacts.
Import PyStr Fetcher Archiver Endpoints.
Variable urlparse_path : string -> option string.

(** The work items one search result gives. *)
Lemma images_of_result_spec (result : PartSearchResult) (p u f : string) :
  In (p, u, f) (images_of_result urlparse_path result) <->
  psr_search_success result = true /\ psr_part_number result = p /\ u <> "" /\
  exists i image,
    psr_images result !! i = Some image /\ ir_original_url image = u /\
    f = generate_filename urlparse_path p i u.
Proof.
  unfold images_of_result.
  destruct (psr_search_success result); [|simpl; intuition discriminate].
  rewrite in_concat. split.
  - intros (cell & Hcell & Hin).
    apply list_elem_of_In, elem_of_lookup_imap in Hcell as (i & image & -> & Hi).
    destruct (truthy (ir_original_url image)) eqn:Hurl; [|destruct Hin].
    destruct Hin as [Heq|[]]. injection Heq as <- <- <-.
    split; [reflexivity|]. split; [reflexivity|]. split.
    + now apply truthy_nonempty.
    + now exists i, image.
  - intros (_ & <- & Hu & i & image & Hi & <- & ->).
    exists [(psr_part_number result, ir_original_url image,
             generate_filename urlparse_path (psr_part_number result) i
               (ir_original_url image))].
    split; [|now left].
    apply list_elem_of_In, elem_of_lookup_imap. exists i, image.
    split; [|exact Hi]. apply truthy_nonempty in Hu. now rewrite Hu.
Qed.

Lemma filter_requested_spec (search_results : list PartSearchResult)
    (part_numbers : option (list string)) (result : PartSearchResult) :
  In result (filter_requested search_results part_numbers) <->
  In result search_results /\
  (default [] part_numbers = [] \/
   In (psr_part_number result) (default [] part_numbers)).
Proof.
  unfold filter_requested. destruct part_numbers as [[|w ws]|]; cbn [default].
  - intuition.
  - rewrite filter_In, mem_true_iff. intuition discriminate.
  - intuition.
Qed.

(** X24. The download-images endpoint, called with the id of a search job,
    answers "started" with [total_images] the length of its work list,
    stores the new job so that it polls as started with the same count, and
    the work list holds the item (part number, URL, filename) exactly when
    a stored result of that part number succeeded, is among the requested
    part numbers (or none were named), has an image at some index [i]
    (counted from 0) with that non-empty URL, and the filename is the one
    generated for the part number, [i] and the URL. *)
Theorem download_endpoint_work_list (request : DownloadRequest)
    (download_id : string) (download_tasks : tracker) (t : task_data)
    (search_results : list PartSearchResult) :
  download_tasks !! dreq_search_id request = Some t ->
  td_search_results t = Some search_results ->
  exists todo download_tasks',
    download_images urlparse_path request download_id download_tasks
    = (Ok (mkDownloadResponse download_id "started" (Z.of_nat (length todo)) 0
             [] None, todo),
       download_tasks') /\
    get_download_status download_id download_tasks'
    = Ok (mkDownloadResponse download_id "started" (Z.of_nat (length todo)) 0
            [] None) /\
    (forall other, other <> download_id ->
                   download_tasks' !! other = download_tasks !! other) /\
    forall p u f,
      In (p, u, f) todo <->
      exists result i image,
        In result search_results /\ psr_part_number result = p /\
        psr_search_success result = true /\
        (default [] (dreq_part_numbers request) = [] \/
         In p (default [] (dreq_part_numbers request))) /\
        psr_images result !! i = Some image /\ ir_original_url image = u /\
        u <> "" /\ f = generate_filename urlparse_path p i u.
Proof.
  intros Hjob Hresults. unfold download_images. rewrite Hjob, Hresults.
  eexists. eexists. split; [reflexivity|]. split; [|split].
  - unfold get_download_status. rewrite lookup_insert_eq. reflexivity.
  - intros other Hother. now apply lookup_insert_ne.
  - intros p u f. unfold images_to_download. rewrite in_flat_map. split.
    + intros (result & Hin & Hitem).
      apply filter_requested_spec in Hin as [Hin Hreq].
      apply images_of_result_spec
        in Hitem as (Hok & Hp & Hu & i & image & Hi & Hurl & Hf).
      exists result, i, image. rewrite <- Hp at 2. auto 10.
    + intros (result & i & image & Hin & Hp & Hok & Hreq & Hi & Hurl & Hu & Hf).
      exists result. split.
      * apply filter_requested_spec. split; [exact Hin|]. now rewrite Hp.
      * apply images_of_result_spec. eauto 10.
Qed.

(** X25. The id of a download job is no search id: a download-images request
    that names an id created by an earlier download-images call is answered
    with a 500, a status the endpoint does not raise itself, and the tracker
    is left as it was. *)
Theorem download_id_is_no_search_id (request request' : DownloadRequest)
    (download_id download_id' : string) (download_tasks : tracker)
    (response : DownloadResponse) (todo : list (string * string * string))
    (download_tasks' : tracker) :
  download_images urlparse_path request download_id download_tasks
  = (Ok (response, todo), download_tasks') ->
  dreq_search_id request' = download_id ->
  download_images urlparse_path request' download_id' download_tasks'
  = (HTTPException 500 "Internal Server Error", download_tasks').
Proof.
  unfold download_images. intros Hfirst Hid.
  destruct (download_tasks !! dreq_search_id request) as [t|]; [|discriminate].
  destruct (td_search_results t); [|discriminate].
  injection Hfirst as _ _ <-.
  now rewrite Hid, lookup_insert_eq.
Qed.

End DownloadEndpointFacts.

Section DownloadEndpointExamples.
Import PyStr Fetcher Archiver Endpoints.

Lemma download_endpoint_work_list_witness :
  exists todo download_tasks',
    download_images simple_url_path (mkDownloadRequest "search-1" None)
      "download-1" demo_tracker
    = (Ok (mkDownloadResponse "download-1" "started" (Z.of_nat (length todo)) 0
             [] None, todo),
       download_tasks') /\
    get_download_status "download-1" download_tasks'
    = Ok (mkDownloadResponse "download-1" "started" (Z.of_nat (length todo)) 0
            [] None) /\
    (forall other, other <> "download-1" ->
                   download_tasks' !! other = demo_tracker !! other) /\
    forall p u f,
      In (p, u, f) todo <->
      exists result i image,
        In result demo_results /\ psr_part_number result = p /\
        psr_search_success result = true /\
        (default [] (dreq_part_numbers (mkDownloadRequest "search-1" None)) = [] \/
         In p (default [] (dreq_part_numbers (mkDownloadRequest "search-1" None)))) /\
        psr_images result !! i = Some image /\ ir_original_url image = u /\
        u <> "" /\ f = generate_filename simple_url_path p i u.
Proof.
  apply (download_endpoint_work_list simple_url_path
           (mkDownloadRequest "search-1" None) "download-1" demo_tracker
           (mkTask (Some demo_results) (Some "completed") None None None None None)
           demo_results).
  - apply lookup_insert_eq.
  - reflexivity.
Defined.

Lemma download_id_is_no_search_id_witness :
  download_images simple_url_path (mkDownloadRequest "download-1" None)
    "download-2" demo_created
  = (HTTPException 500 "Internal Server Error", demo_created).
Proof.
  apply (download_id_is_no_search_id simple_url_path
           (mkDownloadRequest "search-1" None) (mkDownloadRequest "download-1" None)
           "download-1" "download-2" demo_tracker
           (mkDownloadResponse "download-1" "started" 2 0 [] None) demo_todo
           demo_created).
  - vm_compute. reflexivity.
  - reflexivity.
Defined.

End DownloadEndpointExamples.

(** ** CSV upload *)

Section CsvFacts.
Import PyStr CsvUpload.

Lemma lstrip_rstrip (s : string) : lstrip (rstrip s) = rstrip (lstrip s).
Proof.
  induction s as [|c s IH]; [reflexivity|].
  cbn [lstrip rstrip].
  destruct (Reprocess.is_space c) eqn:Hc.
  - rewrite <- IH. destruct (rstrip s) as [|d r]; [reflexivity|].
    cbn [lstrip]. now rewrite Hc.
  - cbn [rstrip]. rewrite Hc.
    destruct (rstrip s) as [|d r]; cbn [lstrip]; now rewrite Hc.
Qed.

Lemma lstrip_idempotent (s : string) : lstrip (lstrip s) = lstrip s.
Proof.
  induction s as [|c s IH]; [reflexivity|].
  cbn [lstrip]. destruct (Reprocess.is_space c) eqn:Hc; [exact IH|].
  cbn [lstrip]. now rewrite Hc.
Qed.

Lemma rstrip_idempotent (s : string) : rstrip (rstrip s) = rstrip s.
Proof.
  induction s as [|c s IH]; [reflexivity|].
  cbn [rstrip]. destruct (rstrip s) as [|d r] eqn:Hr.
  - destruct (Reprocess.is_space c) eqn:Hc; [reflexivity|].
    cbn [rstrip]. now rewrite Hc.
  - change (rstrip (String c (String d r)))
      with (match rstrip (String d r) with
            | EmptyString =>
                if Reprocess.is_space c then EmptyString else String c EmptyString
            | String e r' => String c (String e r')
            end).
    now rewrite IH.
Qed.

(** [strip] leaves nothing for a second [strip] to remove. *)
Lemma strip_idempotent (s : string) : strip (strip s) = strip s.
Proof.
  unfold strip.
  now rewrite lstrip_rstrip, rstrip_idempotent, lstrip_idempotent.
Qed.

Lemma row_part_number_stripped (row : list string) :
  strip (row_part_number row) = row_part_number row.
Proof.
  unfold row_part_number. destruct row as [|c [|d row]]; apply strip_idempotent.
Qed.

(** What the loop over the rows adds to the part numbers it starts from. *)
Lemma collect_spec (rows : list (list string)) :
  forall (row_idx : nat) (part_numbers : list string),
    let collected := collect row_idx rows part_numbers in
    (NoDup part_numbers -> NoDup collected) /\
    (length collected <= length part_numbers + length rows)%nat /\
    forall p,
      In p collected <->
      In p part_numbers \/
      (p <> "" /\
       exists j row,
         rows !! j = Some row /\ row <> [] /\
         ((row_idx + j)%nat = 0%nat -> looks_like_header row = false) /\
         row_part_number row = p).
Proof.
  induction rows as [|row rows IH]; intros row_idx part_numbers; cbv zeta.
  - cbn [collect length]. split; [auto|]. split; [lia|].
    intros p. split; [auto|]. intros [H|(_ & j & row & Hj & _)]; [exact H|].
    now rewrite lookup_nil in Hj.
  - assert (Hshift : forall acc p,
              (In p acc \/
               (p <> "" /\
                exists j row',
                  rows !! j = Some row' /\ row' <> [] /\
                  ((S row_idx + j)%nat = 0%nat -> looks_like_header row' = false) /\
                  row_part_number row' = p)) ->
              forall keep : In p acc -> In p part_numbers \/
                (p <> "" /\ row <> [] /\
                 (row_idx = 0%nat -> looks_like_header row = false) /\
                 row_part_number row = p),
              In p part_numbers \/
              (p <> "" /\
               exists j row',
                 (row :: rows) !! j = Some row' /\ row' <> [] /\
                 ((row_idx + j)%nat = 0%nat -> looks_like_header row' = false) /\
                 row_part_number row' = p)).
    { intros acc p [Hacc|(Hp & j & row' & Hj & Hne & _ & Heq)] keep.
      - destruct (keep Hacc) as [H|(Hp & Hne & Hhead & Heq)]; [now left|].
        right. split; [exact Hp|]. exists 0%nat, row.
        split; [reflexivity|]. split; [exact Hne|]. split; [|exact Heq].
        intros H0. apply Hhead. lia.
      - right. split; [exact Hp|]. exists (S j), row'.
        split; [exact Hj|]. split; [exact Hne|]. split; [|exact Heq]. lia. }
    assert (Hskip :
              (row = [] \/
               (row_idx = 0%nat /\ looks_like_header row = true) \/
               row_part_number row = "" \/
               In (row_part_number row) part_numbers) ->
              forall p,
                In p part_numbers \/
                (p <> "" /\
                 exists j row',
                   (row :: rows) !! j = Some row' /\ row' <> [] /\
                   ((row_idx + j)%nat = 0%nat -> looks_like_header row' = false) /\
                   row_part_number row' = p) ->
                In p part_numbers \/
                (p <> "" /\
                 exists j row',
                   rows !! j = Some row' /\ row' <> [] /\
                   ((S row_idx + j)%nat = 0%nat -> looks_like_header row' = false) /\
                   row_part_number row' = p)).
    { intros Hwhy p [H|(Hp & j & row' & Hj & Hne & Hhead & Heq)]; [now left|].
      destruct j as [|j].
      - injection Hj as <-.
        destruct Hwhy as [Hempty|[[H0 Hh]|[Hblank|Hdup]]].
        + contradiction.
        + rewrite Hhead in Hh by lia. discriminate.
        + congruence.
        + left. now rewrite <- Heq.
      - right. split; [exact Hp|]. exists j, row'.
        split; [exact Hj|]. split; [exact Hne|]. split; [lia|exact Heq]. }
    cbn [collect length].
    destruct row as [|cell cells] eqn:Hrow.
    { destruct (IH (S row_idx) part_numbers) as (Hnd & Hlen & Hin).
      split; [exact Hnd|]. split; [lia|]. intros p. rewrite Hin. split.
      - intros H. apply (Hshift part_numbers p H). auto.
      - apply Hskip. now left. }
    rewrite <- Hrow in *.
    assert (Hne : row <> []) by (rewrite Hrow; discriminate).
    destruct ((row_idx =? 0)%nat && looks_like_header row) eqn:Hheader.
    { apply andb_true_iff in Hheader as [H0 Hh]. apply Nat.eqb_eq in H0.
      destruct (IH (S row_idx) part_numbers) as (Hnd & Hlen & Hin).
      split; [exact Hnd|]. split; [lia|]. intros p. rewrite Hin. split.
      - intros H. apply (Hshift part_numbers p H). auto.
      - apply Hskip. right. left. auto. }
    assert (Hhead : row_idx = 0%nat -> looks_like_header row = false).
    { intros ->. now destruct (looks_like_header row). }
    destruct (truthy (row_part_number row)) eqn:Htruthy; cbn [andb].
    + destruct (mem (row_part_number row) part_numbers) eqn:Hmem; cbn [negb].
      * destruct (IH (S row_idx) part_numbers) as (Hnd & Hlen & Hin).
        split; [exact Hnd|]. split; [lia|]. intros p. rewrite Hin. split.
        -- intros H. apply (Hshift part_numbers p H). auto.
        -- apply Hskip. right. right. right. now apply mem_true_iff.
      * destruct (IH (S row_idx) (part_numbers ++ [row_part_number row])%list)
          as (Hnd & Hlen & Hin).
        rewrite length_app in Hlen. cbn [length] in Hlen.
        split; [|split; [lia|]].
        -- intros Hacc. apply Hnd. apply NoDup_app. split; [exact Hacc|].
           split; [|repeat constructor; apply not_elem_of_nil].
           intros x Hx Hx'. apply list_elem_of_singleton in Hx'. subst x.
           apply list_elem_of_In, mem_true_iff in Hx. congruence.
        -- intros p. rewrite Hin. split.
           ++ intros H. apply (Hshift _ p H). intros Hp.
              apply in_app_or in Hp as [Hp|[<-|[]]]; [now left|].
              right. split; [|auto].
              intros Hblank. rewrite Hblank in Htruthy. discriminate.
           ++ intros [Hp|(Hp & j & row' & Hj & Hne' & Hhead' & Heq)].
              ** left. apply in_or_app. now left.
              ** destruct j as [|j].
                 --- injection Hj as <-. left. apply in_or_app. right.
                     now left.
                 --- right. split; [exact Hp|]. exists j, row'.
                     split; [exact Hj|]. split; [exact Hne'|].
                     split; [lia|exact Heq].
    + destruct (IH (S row_idx) part_numbers) as (Hnd & Hlen & Hin).
      split; [exact Hnd|]. split; [lia|]. intros p. rewrite Hin. split.
      * intros H. apply (Hshift part_numbers p H). auto.
      * apply Hskip. right. right. left.
        destruct (row_part_number row); [reflexivity|discriminate].
Qed.

Lemma lstrip_first (s : string) (c : ascii) (rest : string) :
  lstrip s = String c rest -> Reprocess.is_space c = false.
Proof.
  induction s as [|d s IH]; cbn [lstrip]; [discriminate|].
  destruct (Reprocess.is_space d) eqn:Hd; [exact IH|].
  now intros [= <- _].
Qed.

Lemma rstrip_first (s : string) (c : ascii) (rest : string) :
  rstrip s = String c rest -> exists rest', s = String c rest'.
Proof.
  destruct s as [|d s]; cbn [rstrip]; [discriminate|].
  destruct (rstrip s); [destruct (Reprocess.is_space d); [discriminate|]|];
    intros [= <- _]; eauto.
Qed.

Lemma rstrip_last (s : string) :
  forall (q : string) (c : ascii),
    rstrip s = q +:+ String c "" -> Reprocess.is_space c = false.
Proof.
  induction s as [|d s IH]; intros q c; cbn [rstrip].
  - destruct q; discriminate.
  - destruct (rstrip s) as [|e r] eqn:Hr.
    + destruct (Reprocess.is_space d) eqn:Hd; [destruct q; discriminate|].
      destruct q as [|a q]; [now intros [= <-]|].
      intros [= _ H]. destruct q; discriminate.
    + destruct q as [|a q]; [discriminate|].
      intros [= _ H]. now apply (IH q c).
Qed.

(** A stripped text neither begins nor ends with whitespace. *)
Lemma strip_ends (s : string) :
  (forall c rest, strip s = String c rest -> Reprocess.is_space c = false) /\
  (forall q c, strip s = q +:+ String c "" -> Reprocess.is_space c = false).
Proof.
  unfold strip. split.
  - intros c rest H. apply rstrip_first in H as [rest' H].
    now apply lstrip_first in H.
  - apply rstrip_last.
Qed.

(** X26. For an upload whose name ends in ".csv" and whose content the CSV
    reader accepts, parse-csv answers with part numbers that are pairwise
    distinct, non-empty and without leading or trailing whitespace (neither
    the first nor the last character is whitespace, so that stripping
    changes nothing), at most one per row, and a [total_count] that is
    their number. *)
Theorem csv_part_numbers_clean (filename : string) (rows : list (list string)) :
  ends_with ".csv" filename = true ->
  exists part_numbers,
    parse_csv_file filename (inr rows)
    = Ok (part_numbers, Z.of_nat (length part_numbers)) /\
    NoDup part_numbers /\
    (length part_numbers <= length rows)%nat /\
    forall p, In p part_numbers ->
      p <> "" /\ strip p = p /\
      (forall c rest, p = String c rest -> Reprocess.is_space c = false) /\
      (forall q c, p = q +:+ String c "" -> Reprocess.is_space c = false).
Proof.
  intros Hname. unfold parse_csv_file. rewrite Hname. cbn [negb].
  eexists. split; [reflexivity|].
  destruct (collect_spec rows 0 []) as (Hnd & Hlen & Hin).
  split; [apply Hnd; constructor|]. split; [exact Hlen|].
  intros p Hp. apply Hin in Hp as [[]|(Hne & _ & row & _ & _ & _ & <-)].
  split; [exact Hne|]. split; [apply row_part_number_stripped|].
  unfold row_part_number. destruct row as [|cell [|cell' row]]; apply strip_ends.
Qed.

(** X27. parse-csv returns a part number exactly when it is the non-empty
    stripped content (the only cell, or the cells joined by spaces) of a
    non-empty row, the first row of the upload counting only if its first
    cell, lower-cased and stripped, contains none of the header words; rows
    after the first are never taken for a header. *)
Theorem csv_part_number_iff (filename : string) (rows : list (list string))
    (p : string) :
  ends_with ".csv" filename = true ->
  exists part_numbers total,
    parse_csv_file filename (inr rows) = Ok (part_numbers, total) /\
    (In p part_numbers <->
     p <> "" /\
     exists j row,
       rows !! j = Some row /\ row <> [] /\
       (j = 0%nat -> looks_like_header row = false) /\
       row_part_number row = p).
Proof.
  intros Hname. unfold parse_csv_file. rewrite Hname. cbn [negb].
  eexists. eexists. split; [reflexivity|].
  destruct (collect_spec rows 0 []) as (_ & _ & Hin).
  rewrite Hin. cbn [In Nat.add]. tauto.
Qed.

(** X28. The test on the name of the upload is case-sensitive: parse-csv
    answers 400 "File must be a CSV" to every name that ends in ".CSV",
    whatever the content, and reads the rows of every name that ends in
    ".csv". *)
Theorem csv_suffix_case_sensitive (name : string)
    (parsed : string + list (list string)) (rows : list (list string)) :
  parse_csv_file (name +:+ ".CSV") parsed
  = HTTPException 400 "File must be a CSV" /\
  parse_csv_file (name +:+ ".csv") (inr rows)
  = Ok (collect 0 rows [], Z.of_nat (length (collect 0 rows []))).
Proof.
  assert (Hupper : ends_with ".csv" (name +:+ ".CSV") = false).
  { induction name as [|c s IH]; [reflexivity|].
    change (String c s +:+ ".CSV") with (String c (s +:+ ".CSV")).
    cbn [ends_with]. rewrite IH, orb_false_r.
    apply String.eqb_neq. intros Heq.
    assert (Hlen : String.length ".csv" = String.length (String c (s +:+ ".CSV")))
      by now rewrite <- Heq.
    cbn [String.length] in Hlen. rewrite length_append in Hlen.
    cbn [String.length] in Hlen. lia. }
  assert (Hlower : ends_with ".csv" (name +:+ ".csv") = true).
  { clear Hupper. induction name as [|c s IH]; [reflexivity|].
    change (String c s +:+ ".csv") with (String c (s +:+ ".csv")).
    cbn [ends_with]. rewrite IH. apply orb_true_r. }
  unfold parse_csv_file. now rewrite Hupper, Hlower.
Qed.

End CsvFacts.

Section CsvExamples.
Import PyStr CsvUpload.

(** An upload with a header, a repeated part, a blank row and an empty one. *)
Lemma parse_csv_example :
  parse_csv_file "parts.csv"
    (inr [["Part Number"; "Qty"]; ["CT-100"; "2"]; ["  CT-100 2 "]; [];
          ["   "]; ["Item code"]; ["LC1D09"]])
  = Ok (["CT-100 2"; "Item code"; "LC1D09"], 3).
Proof. vm_compute. reflexivity. Qed.

Lemma csv_part_numbers_clean_witness :
  exists part_numbers,
    parse_csv_file "parts.csv"
      (inr [["Part Number"; "Qty"]; ["CT-100"; "2"]; ["  CT-100 2 "]; [];
            ["LC1D09"]])
    = Ok (part_numbers, Z.of_nat (length part_numbers)) /\
    NoDup part_numbers /\
    (length part_numbers <= 5)%nat /\
    forall p, In p part_numbers ->
      p <> "" /\ strip p = p /\
      (forall c rest, p = String c rest -> Reprocess.is_space c = false) /\
      (forall q c, p = q +:+ String c "" -> Reprocess.is_space c = false).
Proof.
  apply (csv_part_numbers_clean "parts.csv"
           [["Part Number"; "Qty"]; ["CT-100"; "2"]; ["  CT-100 2 "]; [];
            ["LC1D09"]]).
  reflexivity.
Defined.

(** A no-break space (code point 160) after a part number is stripped like
    a space: the two rows give one part number. *)
Lemma parse_csv_no_break_space :
  parse_csv_file "parts.csv"
    (inr [["CT-100" +:+ String (chr 160) ""]; ["CT-100"]])
  = Ok (["CT-100"], 1).
Proof. vm_compute. reflexivity. Qed.

Lemma csv_part_number_iff_witness :
  exists part_numbers total,
    parse_csv_file "parts.csv"
      (inr [["Part Number"; "Qty"]; ["CT-100"; "2"]; ["Item code"]])
    = Ok (part_numbers, total) /\
    (In "Item code" part_numbers <->
     "Item code" <> "" /\
     exists j row,
       [["Part Number"; "Qty"]; ["CT-100"; "2"]; ["Item code"]] !! j = Some row /\
       row <> [] /\
       (j = 0%nat -> looks_like_header row = false) /\
       row_part_number row = "Item code").
Proof.
  apply (csv_part_number_iff "parts.csv"
           [["Part Number"; "Qty"]; ["CT-100"; "2"]; ["Item code"]] "Item code").
  reflexivity.
Defined.

End CsvExamples.
